(** * nc2shp: contours of a gridded netCDF field written to a shapefile

    A shallow embedding of [nc2shp.py] and the properties of its pipeline:
    analysis window ([get_analysis_date]), temporal selection and aggregation
    ([read_nc]), contour extraction ([get_contours]), the feature writer
    ([write_shapefile]), the diagnostic plot
    ([read_shapefile_and_plot_filled_contour]) and the driver ([main]).

    Conventions.
    - Python [float] values (field samples, scale factor, contour levels,
      coordinates) are exact rationals [Qc]; rounding and NaN are not
      represented.
    - A Python call either returns or raises: [result].  Calls with effects
      (log, files) run in the monad [M] over [World]; the world survives a
      raised exception, as files on disk do.
    - The libraries the script calls into are outside the repository.  What
      they compute is either a parameter of section [Pipeline] (the
      contouring routine, the opening of a dataset, [strftime], the
      coordinate sequences shapely accepts) or a small model of the
      documented behaviour the script relies on (datetime arithmetic, xarray
      reductions along [time], fiona's append-only collection).
    - The label slice [ds.sel(time=slice(start, end))] is described for a
      time axis in ascending order ([ascending]); what is proved about the
      selected samples assumes such an axis. *)

From Stdlib Require Import ZArith QArith Qcanon Lia List Bool.
From stdpp Require Import base decidable option numbers list strings gmap.

Local Open Scope string_scope.
Local Open Scope list_scope.
Local Open Scope Z_scope.

(** ** Python exceptions and results *)

Inductive exn : Type :=
  | ValueError (msg : string)
  | KeyError (key : string)
  | UnboundLocalError (var : string)
  | OverflowError (msg : string)
  | TypeError (msg : string)
  | IndexError (msg : string)
  | OSError (msg : string)
  | ShapefileException (msg : string).

Inductive result (A : Type) : Type :=
  | Raise (e : exn)
  | Return (a : A).
Arguments Raise {A} e.
Arguments Return {A} a.

Definition rbind {A B} (r : result A) (k : A → result B) : result B :=
  match r with
  | Raise e => Raise e
  | Return a => k a
  end.

Definition rmap {A B} (f : A → B) (r : result A) : result B :=
  rbind r (λ a, Return (f a)).
Notation "f <$$> r" := (rmap f r) (at level 61, left associativity).

Definition is_Return {A} (r : result A) : Prop := ∃ a, r = Return a.
Definition is_Raise {A} (r : result A) : Prop := ∃ e, r = Raise e.

(** ** The [datetime] module (proleptic Gregorian calendar) *)

Module dt.

Definition MINYEAR : Z := 1.
Definition MAXYEAR : Z := 9999.
Definition MAXORDINAL : Z := 3652059.

Definition DI400Y : Z := 146097.
Definition DI100Y : Z := 36524.
Definition DI4Y : Z := 1461.

Definition DAYS_IN_MONTH (m : Z) : Z :=
  match m with
  | 1 => 31 | 2 => 28 | 3 => 31 | 4 => 30 | 5 => 31 | 6 => 30
  | 7 => 31 | 8 => 31 | 9 => 30 | 10 => 31 | 11 => 30 | 12 => 31
  | _ => -1
  end.

Definition DAYS_BEFORE_MONTH (m : Z) : Z :=
  match m with
  | 1 => 0 | 2 => 31 | 3 => 59 | 4 => 90 | 5 => 120 | 6 => 151
  | 7 => 181 | 8 => 212 | 9 => 243 | 10 => 273 | 11 => 304 | 12 => 334
  | _ => -1
  end.

Definition is_leap (year : Z) : bool :=
  (year mod 4 =? 0) && (negb (year mod 100 =? 0) || (year mod 400 =? 0)).

Definition days_before_year (year : Z) : Z :=
  let y := year - 1 in
  y * 365 + y / 4 - y / 100 + y / 400.

Definition days_in_month (year month : Z) : Z :=
  if (month =? 2) && is_leap year then 29 else DAYS_IN_MONTH month.

Definition days_before_month (year month : Z) : Z :=
  DAYS_BEFORE_MONTH month + (if (2 <? month) && is_leap year then 1 else 0).

Definition ymd2ord (year month day : Z) : Z :=
  days_before_year year + days_before_month year month + day.

(** [_ord2ymd]: the date of the [n]-th day, 01-Jan-0001 being day 1. *)
Definition ord2ymd (n : Z) : Z * Z * Z :=
  let n := n - 1 in
  let n400 := n / DI400Y in
  let n := n mod DI400Y in
  let year := n400 * 400 + 1 in
  let n100 := n / DI100Y in
  let n := n mod DI100Y in
  let n4 := n / DI4Y in
  let n := n mod DI4Y in
  let n1 := n / 365 in
  let n := n mod 365 in
  let year := year + n100 * 100 + n4 * 4 + n1 in
  if (n1 =? 4) || (n100 =? 4) then (year - 1, 12, 31)
  else
    let leapyear := (n1 =? 3) && (negb (n4 =? 24) || (n100 =? 3)) in
    let month := Z.shiftr (n + 50) 5 in
    let preceding :=
      DAYS_BEFORE_MONTH month + (if (2 <? month) && leapyear then 1 else 0) in
    let '(month, preceding) :=
      if n <? preceding
      then (month - 1,
            preceding - (DAYS_IN_MONTH (month - 1)
                         + (if (month - 1 =? 2) && leapyear then 1 else 0)))
      else (month, preceding) in
    (year, month, n - preceding + 1).

Record datetime : Type := mk_datetime {
  year : Z; month : Z; day : Z;
  hour : Z; minute : Z; second : Z; microsecond : Z
}.

(** A normalised duration: [0 <= seconds < 86400],
    [0 <= microseconds < 1000000]. *)
Record timedelta : Type := mk_timedelta {
  days : Z; seconds : Z; microseconds : Z
}.

Definition td_normalize (d s us : Z) : result timedelta :=
  let s := s + us / 1000000 in
  let us := us mod 1000000 in
  let d := d + s / 86400 in
  let s := s mod 86400 in
  if 999999999 <? Z.abs d
  then Raise (OverflowError "days out of range")
  else Return (mk_timedelta d s us).

(** [timedelta(days=d, hours=h)] *)
Definition timedelta_new (d h : Z) : result timedelta :=
  td_normalize d (h * 3600) 0.

Definition td_neg (t : timedelta) : result timedelta :=
  td_normalize (- days t) (- seconds t) (- microseconds t).

Definition check_date_fields (y m d : Z) : result unit :=
  if negb ((MINYEAR <=? y) && (y <=? MAXYEAR))
  then Raise (ValueError "year out of range")
  else if negb ((1 <=? m) && (m <=? 12))
  then Raise (ValueError "month must be in 1..12")
  else if negb ((1 <=? d) && (d <=? days_in_month y m))
  then Raise (ValueError "day is out of range for month")
  else Return tt.

Definition check_time_fields (h mi s us : Z) : result unit :=
  if negb ((0 <=? h) && (h <=? 23))
  then Raise (ValueError "hour must be in 0..23")
  else if negb ((0 <=? mi) && (mi <=? 59))
  then Raise (ValueError "minute must be in 0..59")
  else if negb ((0 <=? s) && (s <=? 59))
  then Raise (ValueError "second must be in 0..59")
  else if negb ((0 <=? us) && (us <=? 999999))
  then Raise (ValueError "microsecond must be in 0..999999")
  else Return tt.

(** [datetime(year, month, day, hour, minute, second)] *)
Definition datetime_new (y m d h mi s : Z) : result datetime :=
  rbind (check_date_fields y m d) (λ _,
  rbind (check_time_fields h mi s 0) (λ _,
  Return (mk_datetime y m d h mi s 0))).

Definition toordinal (t : datetime) : Z :=
  ymd2ord (year t) (month t) (day t).

(** [datetime.__add__] *)
Definition add (t : datetime) (other : timedelta) : result datetime :=
  rbind (td_normalize (toordinal t + days other)
           (hour t * 3600 + minute t * 60 + second t + seconds other)
           (microsecond t + microseconds other)) (λ delta,
  let hour := seconds delta / 3600 in
  let rem := seconds delta mod 3600 in
  let minute := rem / 60 in
  let second := rem mod 60 in
  if (0 <? days delta) && (days delta <=? MAXORDINAL)
  then let '(y, m, d) := ord2ymd (days delta) in
       Return (mk_datetime y m d hour minute second (microseconds delta))
  else Raise (OverflowError "date value out of range")).

(** [datetime.__sub__] with a [timedelta] on the right *)
Definition sub (t : datetime) (other : timedelta) : result datetime :=
  rbind (td_neg other) (add t).

(** A value that [datetime] can hold. *)
Definition valid (t : datetime) : Prop :=
  check_date_fields (year t) (month t) (day t) = Return tt ∧
  check_time_fields (hour t) (minute t) (second t) (microsecond t) = Return tt.

(** Microseconds elapsed since 0001-01-01T00:00:00 on the naive time line;
    the measure in which durations between two values are stated. *)
Definition to_us (t : datetime) : Z :=
  (((toordinal t - 1) * 24 + hour t) * 60 + minute t) * 60000000
  + second t * 1000000 + microsecond t.

Definition td_to_us (d : timedelta) : Z :=
  (days d * 86400 + seconds d) * 1000000 + microseconds d.

End dt.

(** ** [get_analysis_date] *)

(** [today] is the value of [dt.datetime.today()], the local wall clock at
    the time of the call. *)
Definition get_analysis_date (today : dt.datetime)
    (year month day : option Z) (time_window : Z)
  : result (dt.datetime * dt.datetime) :=
  rbind (dt.timedelta_new 1 0) (λ one_day,
  rbind (dt.sub today one_day) (λ today,
  let year := match year with Some y => y | None => dt.year today end in
  let month := match month with Some m => m | None => dt.month today end in
  let day := match day with Some d => d | None => dt.day today end in
  let hour := 0 in
  let minute := 0 in
  rbind (dt.datetime_new year month day hour minute 0) (λ start,
  rbind (dt.timedelta_new 0 time_window) (λ delta,
  rbind (dt.add start delta) (λ end_,
  Return (start, end_)))))).

(** Nanoseconds since 1970-01-01T00:00:00, the unit of the [time]
    coordinate ([datetime64[ns]]) against which a window bound is compared. *)
Definition datetime_to_ns (t : dt.datetime) : Z :=
  (dt.to_us t - (dt.ymd2ord 1970 1 1 - 1) * 86400000000) * 1000.

(** ** Data: xarray datasets *)

(** A dataset whose data variables all have the dimensions
    [(time, d1, ..., dk)]: [ds_dims] lists the non-time dimensions with their
    sizes, and [ds_vars] maps every name that [ds[v]] resolves to its
    values: per time sample, the row-major buffer of the remaining
    dimensions. *)
Record Dataset : Type := mk_Dataset {
  ds_time : list Z;
  ds_dims : list (string * nat);
  ds_lon : list Qc;
  ds_lat : list Qc;
  ds_vars : gmap string (list (list Qc))
}.

(** [ds[v]] and [arrs]: an array with a leading [time] dimension. *)
Record DataArray : Type := mk_DataArray {
  da_time : list Z;
  da_dims : list (string * nat);
  da_lon : list Qc;
  da_lat : list Qc;
  da_data : list (list Qc)
}.

(** [arr]: an array reduced along [time]. *)
Record Field : Type := mk_Field {
  f_dims : list (string * nat);
  f_lon : list Qc;
  f_lat : list Qc;
  f_data : list Qc
}.

(** [.values]: shape and buffer. *)
Record ndarray : Type := mk_ndarray {
  nd_shape : list nat;
  nd_buffer : list Qc
}.

Module xr.

Definition in_window (start end_ t : Z) : bool :=
  (start <=? t) && (t <=? end_).

(** The entries of [rows] at the positions where the time coordinate lies
    in [[start, end_]] (label slices include both ends).  This is the label
    slice on a time axis in ascending order; on an axis in another order
    pandas looks the two bounds up as labels, and raises [KeyError] or cuts
    by position.  What is proved about the selected samples is proved for
    an ascending axis. *)
Fixpoint sel_rows {A} (start end_ : Z) (times : list Z) (rows : list A)
  : list A :=
  match times, rows with
  | t :: ts, r :: rs =>
      if in_window start end_ t
      then r :: sel_rows start end_ ts rs
      else sel_rows start end_ ts rs
  | _, _ => []
  end.

(** [ds.sel(time=slice(start, end_))] *)
Definition sel (ds : Dataset) (start end_ : Z) : Dataset :=
  {| ds_time := sel_rows start end_ (ds_time ds) (ds_time ds);
     ds_dims := ds_dims ds;
     ds_lon := ds_lon ds;
     ds_lat := ds_lat ds;
     ds_vars := sel_rows start end_ (ds_time ds) <$> ds_vars ds |}.

(** [ds[v]] *)
Definition getitem (ds : Dataset) (v : string) : result DataArray :=
  match ds_vars ds !! v with
  | Some rows =>
      Return {| da_time := ds_time ds; da_dims := ds_dims ds;
                da_lon := ds_lon ds; da_lat := ds_lat ds;
                da_data := rows |}
  | None => Raise (KeyError v)
  end.

(** [a + b], both on the same coordinates *)
Definition add (a b : DataArray) : DataArray :=
  {| da_time := da_time a; da_dims := da_dims a;
     da_lon := da_lon a; da_lat := da_lat a;
     da_data := zip_with (zip_with Qcplus) (da_data a) (da_data b) |}.

(** A binary operation folded along [time], cell by cell.  An empty time
    axis is never reduced: [times.min()] has raised before. *)
Definition reduce_time (f : Qc → Qc → Qc) (rows : list (list Qc))
  : result (list Qc) :=
  match rows with
  | [] => Raise (ValueError "reduction over an empty time axis")
  | r :: rs => Return (foldl (zip_with f) r rs)
  end.

Definition Qcmax (x y : Qc) : Qc := if decide (x ≤ y)%Qc then y else x.
Definition Qcmin (x y : Qc) : Qc := if decide (x ≤ y)%Qc then x else y.

Definition reduced (a : DataArray) (data : list Qc) : Field :=
  {| f_dims := da_dims a; f_lon := da_lon a; f_lat := da_lat a;
     f_data := data |}.

(** [a.mean(dim='time')] *)
Definition mean (a : DataArray) : result Field :=
  rbind (reduce_time Qcplus (da_data a)) (λ s,
  Return (reduced a
    (map (λ x, (x / Qc_of_Z (Z.of_nat (length (da_data a))))%Qc) s))).

(** [a.max(dim='time')] *)
Definition max (a : DataArray) : result Field :=
  rbind (reduce_time Qcmax (da_data a)) (λ s, Return (reduced a s)).

(** [a.min(dim='time')] *)
Definition min (a : DataArray) : result Field :=
  rbind (reduce_time Qcmin (da_data a)) (λ s, Return (reduced a s)).

Definition has_dim (name : string) (dims : list (string * nat)) : bool :=
  bool_decide (name ∈ dims.*1).

(** [arr.squeeze(name)]: drops a dimension of size one. *)
Definition squeeze (arr : Field) (name : string) : result Field :=
  match list_find (λ d, d.1 = name) (f_dims arr) with
  | None => Raise (KeyError name)
  | Some (_, (_, size)) =>
      if decide (size = 1%nat)
      then Return {| f_dims := filter (λ d, d.1 ≠ name) (f_dims arr);
                     f_lon := f_lon arr; f_lat := f_lat arr;
                     f_data := f_data arr |}
      else Raise (ValueError
        "cannot select a dimension to squeeze out which has length greater than one")
  end.

(** [arr * scal] *)
Definition scale (arr : Field) (scal : Qc) : Field :=
  {| f_dims := f_dims arr; f_lon := f_lon arr; f_lat := f_lat arr;
     f_data := map (λ x, (x * scal)%Qc) (f_data arr) |}.

(** [arr.values] *)
Definition values (arr : Field) : ndarray :=
  {| nd_shape := (f_dims arr).*2; nd_buffer := f_data arr |}.

End xr.

(** [times.min()] on a numpy array *)
Definition np_min (times : list Z) : result Z :=
  match times with
  | [] => Raise (ValueError
            "zero-size array to reduction operation minimum which has no identity")
  | t :: ts => Return (foldl Z.min t ts)
  end.

(** [m + (times - m).mean()]: the mean of the offsets is a whole number of
    nanoseconds.  numpy adds the offsets in 64 bits; this is its result as
    long as their sum stays below [2 ^ 63]. *)
Definition mean_time (m : Z) (times : list Z) : Z :=
  m + foldr Z.add 0 ((λ t, t - m) <$> times) / Z.of_nat (length times).

(** ** Data: contour sets, polygons and files *)

Definition coord : Type := Qc * Qc.

(** [matplotlib.path.Path]: [vertices] is an N x 2 array. *)
Record Path : Type := mk_Path { vertices : list coord }.

(** One line collection per level; [col_id] is the identity of the object,
    by which it hashes as a dictionary key. *)
Record LineCollection : Type := mk_LineCollection {
  col_id : nat;
  get_paths : list Path
}.

Record QuadContourSet : Type := mk_QuadContourSet {
  collections : list LineCollection;
  levels : list Qc
}.

Record Polygon : Type := mk_Polygon { exterior : list coord }.

Record Geometry : Type := mk_Geometry {
  geom_type : string;
  coordinates : list coord
}.

(** A record as handed to fiona: a properties mapping and a geometry. *)
Record Feature : Type := mk_Feature {
  properties : list (string * Qc);
  geometry : Geometry
}.

Record Schema : Type := mk_Schema {
  schema_geometry : string;
  schema_properties : list (string * string)
}.

(** A shapefile on disk. *)
Record ShpFile : Type := mk_ShpFile {
  shp_schema : Schema;
  shp_records : list Feature;
  shp_closed : bool
}.

Inductive Figure : Type :=
  | ContourFigure (cs : QuadContourSet)
  | FilledFigure (title : string) (central_longitude : Z) (extent : list Z)
                 (fills : list (list Qc * list Qc)).

(** ** The world outside the process *)

Inductive loglevel : Type := INFO | ERROR.

(** [w_quota] is the number of records the output device still takes
    ([None]: no limit); [w_unwritable] the paths at which no file can be
    created. *)
Record World : Type := mk_World {
  w_today : dt.datetime;
  w_log : list (loglevel * string);
  w_shp : gmap string ShpFile;
  w_figs : gmap string Figure;
  w_quota : option nat;
  w_unwritable : gset string
}.

Definition M (A : Type) : Type := World → result A * World.

Definition ret {A} (a : A) : M A := λ w, (Return a, w).
Definition raise {A} (e : exn) : M A := λ w, (Raise e, w).
Definition bind {A B} (m : M A) (k : A → M B) : M B :=
  λ w, match m w with
       | (Return a, w') => k a w'
       | (Raise e, w') => (Raise e, w')
       end.
Definition lift {A} (r : result A) : M A := λ w, (r, w).

(** [try: body finally: cleanup] *)
Definition finally {A} (body : M A) (cleanup : M unit) : M A :=
  λ w, match body w with
       | (r, w') =>
           match cleanup w' with
           | (Return _, w'') => (r, w'')
           | (Raise e, w'') => (Raise e, w'')
           end
       end.

Declare Scope py_scope.
Delimit Scope py_scope with py.
Notation "'do' x <- m ; k" := (bind m (λ x, k))
  (at level 10, x binder, m at level 100, k at level 200) : py_scope.
Notation "'do' ' pat <- m ; k" := (bind m (λ x, match x with pat => k end))
  (at level 10, pat pattern, m at level 100, k at level 200) : py_scope.
Notation "'run' m ; k" := (bind m (λ _, k))
  (at level 10, m at level 100, k at level 200) : py_scope.
Local Open Scope py_scope.

Definition log_info (msg : string) : M unit :=
  λ w, (Return tt,
        mk_World (w_today w) (w_log w ++ [(INFO, msg)]) (w_shp w) (w_figs w)
                 (w_quota w) (w_unwritable w)).

Definition log_error (msg : string) : M unit :=
  λ w, (Return tt,
        mk_World (w_today w) (w_log w ++ [(ERROR, msg)]) (w_shp w) (w_figs w)
                 (w_quota w) (w_unwritable w)).

Definition set_shp (path : string) (f : ShpFile) (w : World) : World :=
  mk_World (w_today w) (w_log w) (<[path := f]> (w_shp w)) (w_figs w)
           (w_quota w) (w_unwritable w).

Definition set_quota (q : option nat) (w : World) : World :=
  mk_World (w_today w) (w_log w) (w_shp w) (w_figs w) q (w_unwritable w).

(** [plt.savefig(path)] *)
Definition savefig (path : string) (fig : Figure) : M unit :=
  λ w, if decide (path ∈ w_unwritable w)
       then (Raise (OSError path), w)
       else (Return tt,
             mk_World (w_today w) (w_log w) (w_shp w)
                      (<[path := fig]> (w_figs w)) (w_quota w)
                      (w_unwritable w)).

Fixpoint for_each {A} (l : list A) (body : A → M unit) : M unit :=
  match l with
  | [] => ret tt
  | x :: l' => run body x; for_each l' body
  end.

(** A [for] loop that carries a value and may raise. *)
Fixpoint for_fold {A S} (l : list A) (s : S) (body : S → A → result S)
  : result S :=
  match l with
  | [] => Return s
  | x :: l' => rbind (body s x) (λ s', for_fold l' s' body)
  end.

(** ['{}'.format(x)] for a file name that may be [None] *)
Definition str_of (x : option string) : string := default "None" x.

(** ** shapely *)

Module shapely.

(** The ring as GEOS stores it: closed by repeating the first vertex. *)
Definition close_ring (cs : list coord) : list coord :=
  match cs with
  | [] => []
  | c :: _ => if decide (last cs = Some c) then cs else cs ++ [c]
  end.

(** [geometry.mapping(poly)] *)
Definition mapping (p : Polygon) : Geometry :=
  {| geom_type := "Polygon"; coordinates := close_ring (exterior p) |}.

End shapely.

(** ** fiona and pyshp *)

Module fiona.

Definition conforms (schema : Schema) (r : Feature) : bool :=
  bool_decide (geom_type (geometry r) = schema_geometry schema) &&
  bool_decide ((properties r).*1 = (schema_properties schema).*1).

(** [fiona.collection(path, "w", "ESRI Shapefile", schema)]: the file is
    created, or emptied, when the collection is opened. *)
Definition collection (path : option string) (schema : Schema) : M string :=
  match path with
  | None => raise (TypeError "invalid path: None")
  | Some p =>
      λ w, if decide (p ∈ w_unwritable w)
           then (Raise (OSError p), w)
           else (Return p, set_shp p (mk_ShpFile schema [] false) w)
  end.

(** [output.write(record)] *)
Definition write (output : string) (r : Feature) : M unit :=
  λ w, match w_shp w !! output with
       | None => (Raise (OSError output), w)
       | Some f =>
           if shp_closed f
           then (Raise (OSError "collection is closed"), w)
           else if negb (conforms (shp_schema f) r)
           then (Raise (ValueError "Record does not match collection schema"), w)
           else match w_quota w with
                | Some O => (Raise (OSError "write failed"), w)
                | q =>
                    (Return tt,
                     set_shp output
                       (mk_ShpFile (shp_schema f) (shp_records f ++ [r]) false)
                       (set_quota (pred <$> q) w))
                end
       end.

(** [output.close()], which leaving the [with] block calls. *)
Definition close (output : string) : M unit :=
  λ w, match w_shp w !! output with
       | None => (Return tt, w)
       | Some f =>
           (Return tt,
            set_shp output (mk_ShpFile (shp_schema f) (shp_records f) true) w)
       end.

End fiona.

Module shp.
(** [shp.Reader(path).shapeRecords()]: the records that the file holds.
    How the driver encodes a record that is written (the winding of a ring,
    the digits of an attribute, the length of a field name) is not
    described here, and no property below states what is read back after a
    write. *)
Definition Reader (path : string) : M (list Feature) :=
  λ w, match w_shp w !! path with
       | None => (Raise (ShapefileException ("Unable to open " +:+ path)), w)
       | Some f => (Return (shp_records f), w)
       end.
End shp.

(** ** The libraries as parameters *)

Record Externals : Type := mk_Externals {
  (** [datetime.strftime] and [Timestamp.strftime] *)
  strftime : dt.datetime → string → string;
  ts_strftime : Z → string → string;
  (** [xr.open_dataset], [xr.open_mfdataset] *)
  open_dataset : string → result Dataset;
  open_mfdataset : string → result Dataset;
  (** [plt.contour(lon, lat, values, levels)] *)
  contour : list Qc → list Qc → ndarray → list Qc → result QuadContourSet;
  (** the coordinate sequences from which shapely builds a polygon *)
  shapely_accepts : list coord → bool
}.

Inductive vars_arg : Type :=
  | VStr (v : string)
  | VList (vs : list string).

Record PolyEntry : Type := mk_PolyEntry {
  poly : Polygon;
  props : list (string * Qc)
}.

Record Args : Type := mk_Args {
  a_ifile : string;
  a_year : option Z;
  a_month : option Z;
  a_day : option Z;
  a_time_window : Z;
  a_ncvars : list string;
  a_ncscal : Qc;
  a_func : string;
  a_contours : list Qc;
  a_shapefile : option string;
  a_propname : string;
  a_contour_figname : option string;
  a_fillfig_name : string;
  a_fillfig_contour : option Qc;
  a_fillfig_title : string;
  a_central_longitude : Z;
  a_extent : list Z
}.

Section Pipeline.

Variable ext : Externals.

(** [geometry.Polygon(coords)] *)
Definition geometry_Polygon (coords : list coord) : result Polygon :=
  if shapely_accepts ext coords
  then Return (mk_Polygon coords)
  else Raise (ValueError "A LinearRing must have at least 3 coordinate tuples").

(** *** [read_nc] *)

(** [xr.open_mfdataset] for a name with an asterisk, else
    [xr.open_dataset]. *)
Definition open_source (ifile ifile_parsed : string) : result Dataset :=
  if String.index 0 "*" ifile is Some _
  then open_mfdataset ext ifile_parsed
  else open_dataset ext ifile_parsed.

(** The window is applied only to a source with more than one sample. *)
Definition select_window (ds : Dataset) (start end_ : dt.datetime) : Dataset :=
  if decide (1 < length (ds_time ds))%nat
  then xr.sel ds (datetime_to_ns start) (datetime_to_ns end_)
  else ds.

Definition var_list (vars : vars_arg) : list string :=
  match vars with VStr v => [v] | VList vs => vs end.

(** The loop over [vars]; [None] is [arrs] not yet bound. *)
Definition sum_variables (ds : Dataset) (vars : list string)
  : result (option DataArray) :=
  for_fold vars None (λ arrs v,
    rbind (xr.getitem ds v) (λ dsv,
    match arrs with
    | None => Return (Some dsv)
    | Some arrs => Return (Some (xr.add arrs dsv))
    end)).

(** The three [if func == ...] statements; [None] is [arr] not bound. *)
Definition reduce_by (func : string) (arrs : DataArray)
  : result (option Field) :=
  let arr := None in
  rbind (if decide (func = "mean")
         then Some <$$> xr.mean arrs else Return arr) (λ arr,
  rbind (if decide (func = "max")
         then Some <$$> xr.max arrs else Return arr) (λ arr,
  if decide (func = "min")
  then Some <$$> xr.min arrs else Return arr)).

Definition bound {A} (name : string) (x : option A) : result A :=
  match x with
  | Some a => Return a
  | None => Raise (UnboundLocalError name)
  end.

Definition read_nc (ifile : string) (start end_ : dt.datetime)
    (vars : vars_arg) (scal : Qc) (func : string) : M (Field * Z) :=
  let ifile_parsed := strftime ext start ifile in
  run log_info ("Reading " +:+ ifile_parsed);
  do ds <- lift (open_source ifile ifile_parsed);
  let ds := select_window ds start end_ in
  let vars := var_list vars in
  do arrs <- lift (sum_variables ds vars);
  do arrs <- lift (bound "arrs" arrs);
  let times := da_time arrs in
  do m <- lift (np_min times);
  let meantime := mean_time m times in
  do arr <- lift (reduce_by func arrs);
  do arr <- lift (bound "arr" arr);
  do arr <- lift (if xr.has_dim "lev" (f_dims arr)
                  then xr.squeeze arr "lev" else Return arr);
  let arr := if decide (scal ≠ 1%Qc) then xr.scale arr scal else arr in
  (* ds.close() releases the source and changes nothing that is modelled *)
  ret (arr, meantime).

(** *** [get_contours] *)

Definition get_contours (arr : Field) (contours : list Qc)
    (contour_figname : option string) : M QuadContourSet :=
  do cs <- lift (contour ext (f_lon arr) (f_lat arr) (xr.values arr) contours);
  run match contour_figname with
      | Some name =>
          run savefig name (ContourFigure cs);
          log_info ("Original figure written to " +:+ name)
      | None => ret tt
      end;
  ret cs.

(** *** [write_shapefile] *)

(** [dict(zip(cs.collections, cs.levels))]: a later pair replaces an
    earlier one with the same key. *)
Definition dict_zip (cols : list LineCollection) (lvls : list Qc)
  : gmap nat Qc :=
  foldl (λ d kv, <[col_id kv.1 := kv.2]> d) ∅ (zip cols lvls).

(** [levels[col]] *)
Definition dict_getitem (d : gmap nat Qc) (col : LineCollection) : result Qc :=
  match d !! col_id col with
  | Some z => Return z
  | None => Raise (KeyError "<LineCollection>")
  end.

(** The body of the loop over the paths of one collection. *)
Definition path_body (propname : string) (z : Qc)
    (polylist : list PolyEntry) (path : Path) : result (list PolyEntry) :=
  let v := vertices path in
  let lons := v.*1 in
  let lats := v.*2 in
  rbind (geometry_Polygon ((λ i, (i.1, i.2)) <$> zip lons lats)) (λ poly,
  Return (polylist ++ [mk_PolyEntry poly [(propname, z)]])).

(** The two nested loops that fill [polylist]. *)
Definition build_polylist (cs : QuadContourSet) (propname : string)
  : result (list PolyEntry) :=
  let levels := dict_zip (collections cs) (levels cs) in
  let polylist := [] in
  for_fold (collections cs) polylist (λ polylist col,
    rbind (dict_getitem levels col) (λ z,
    for_fold (get_paths col) polylist (path_body propname z))).

Definition write_shapefile (cs : QuadContourSet) (propname : string)
    (shapefile : option string) : M unit :=
  do polylist <- lift (build_polylist cs propname);
  (* write to shapefile *)
  let schema := mk_Schema "Polygon" [(propname, "float")] in
  do output <- fiona.collection shapefile schema;
  run finally
        (for_each polylist (λ p,
           fiona.write output (mk_Feature (props p) (shapely.mapping (poly p)))))
        (fiona.close output);
  run log_info ("Shapefile written to file " +:+ str_of shapefile);
  ret tt.

(** *** [read_shapefile_and_plot_filled_contour] *)

(** [shape.record[0]] *)
Definition record0 (shape : Feature) : result Qc :=
  match properties shape with
  | (_, x) :: _ => Return x
  | [] => Raise (IndexError "list index out of range")
  end.

Definition read_shapefile_and_plot_filled_contour
    (shapefile : option string) (contour : Qc) (ofile : option string)
    (title : string) (central_longitude : Z) (extent : list Z) : M unit :=
  match ofile with
  | None => ret tt
  | Some ofile =>
      match shapefile with
      | None => run log_error "Cannot read shapefile - not defined!"; ret tt
      | Some shapefile =>
          do sf <- shp.Reader shapefile;
          do fills <- lift (for_fold sf [] (λ fills shape,
                        rbind (record0 shape) (λ r0,
                        if decide (r0 = contour)
                        then let x := (coordinates (geometry shape)).*1 in
                             let y := (coordinates (geometry shape)).*2 in
                             Return (fills ++ [(x, y)])
                        else Return fills)));
          run savefig ofile (FilledFigure title central_longitude extent fills);
          run log_info ("Test figure written to " +:+ ofile);
          ret tt
      end
  end.

(** *** [main] *)

Definition get_today : M dt.datetime := λ w, (Return (w_today w), w).

(** [args.fillfig_contour], or [args.contours[0]] when it is [None]. *)
Definition fillfig_level (args : Args) : result Qc :=
  match a_fillfig_contour args with
  | Some c => Return c
  | None =>
      match a_contours args with
      | c :: _ => Return c
      | [] => Raise (IndexError "list index out of range")
      end
  end.

Definition main (args : Args) : M unit :=
  (* Read netCDF file *)
  do today <- get_today;
  do '(start, end_) <- lift (get_analysis_date today (a_year args)
                               (a_month args) (a_day args)
                               (a_time_window args));
  do '(arr, meantime) <- read_nc (a_ifile args) start end_
                           (VList (a_ncvars args)) (a_ncscal args)
                           (a_func args);
  (* Get contours, eventually write to shapefile *)
  let figname := ts_strftime ext meantime <$> a_contour_figname args in
  do cs <- get_contours arr (a_contours args) figname;
  (* Write contours to shapefile *)
  let shapefile := ts_strftime ext meantime <$> a_shapefile args in
  run write_shapefile cs (a_propname args) shapefile;
  (* Create figure with one filled contour, read from the shapefile *)
  do fillfig_contour <- lift (fillfig_level args);
  read_shapefile_and_plot_filled_contour
    shapefile fillfig_contour
    (Some (ts_strftime ext meantime (a_fillfig_name args)))
    (ts_strftime ext meantime (a_fillfig_title args))
    (a_central_longitude args) (a_extent args).

End Pipeline.

(** ** Decidable equality of the data *)

Global Instance exn_eq_dec : EqDecision exn.
Proof. solve_decision. Defined.
Global Instance result_eq_dec {A} `{EqDecision A} : EqDecision (result A).
Proof. solve_decision. Defined.
Global Instance datetime_eq_dec : EqDecision dt.datetime.
Proof. solve_decision. Defined.
Global Instance Field_eq_dec : EqDecision Field.
Proof. solve_decision. Defined.
Global Instance Path_eq_dec : EqDecision Path.
Proof. solve_decision. Defined.
Global Instance LineCollection_eq_dec : EqDecision LineCollection.
Proof. solve_decision. Defined.
Global Instance QuadContourSet_eq_dec : EqDecision QuadContourSet.
Proof. solve_decision. Defined.
Global Instance Geometry_eq_dec : EqDecision Geometry.
Proof. solve_decision. Defined.
Global Instance Feature_eq_dec : EqDecision Feature.
Proof. solve_decision. Defined.
Global Instance Schema_eq_dec : EqDecision Schema.
Proof. solve_decision. Defined.
Global Instance ShpFile_eq_dec : EqDecision ShpFile.
Proof. solve_decision. Defined.

(** ** Notions in which the properties are stated *)

(** *** Aggregation *)

(** The value at time index [t] and cell [c] of a time-by-cell table. *)
Definition cell (rows : list (list Qc)) (t c : nat) : Qc :=
  default 0%Qc (rows !! t ≫= (.!! c)).

Definition var_cell (ds : Dataset) (v : string) (t c : nat) : Qc :=
  cell (default [] (ds_vars ds !! v)) t c.

Definition Qcsum (l : list Qc) : Qc := foldr Qcplus 0%Qc l.

(** The element-wise sum of the named variables at one sample and cell. *)
Definition spec_sum_vars (ds : Dataset) (vs : list string) (t c : nat) : Qc :=
  Qcsum ((λ v, var_cell ds v t c) <$> vs).

(** The summed values of one cell at the successive time samples. *)
Definition spec_samples (ds : Dataset) (vs : list string) (c : nat) : list Qc :=
  (λ t, spec_sum_vars ds vs t c) <$> seq 0 (length (ds_time ds)).

(** The arithmetic mean. *)
Definition spec_mean (l : list Qc) : Qc :=
  (Qcsum l / Qc_of_Z (Z.of_nat (length l)))%Qc.

Definition is_maximum (x : Qc) (l : list Qc) : Prop :=
  x ∈ l ∧ ∀ y, y ∈ l → (y ≤ x)%Qc.

Definition is_minimum (x : Qc) (l : list Qc) : Prop :=
  x ∈ l ∧ ∀ y, y ∈ l → (x ≤ y)%Qc.

(** A table of [T] rows of [N] cells. *)
Definition shaped (T N : nat) (rows : list (list Qc)) : Prop :=
  length rows = T ∧ Forall (λ r, length r = N) rows.

Definition ncells (ds : Dataset) : nat := foldr Nat.mul 1%nat (ds_dims ds).*2.

(** Every variable has one row per time sample and one value per cell. *)
Definition wf_dataset (ds : Dataset) : Prop :=
  ∀ v rows, ds_vars ds !! v = Some rows →
            shaped (length (ds_time ds)) (ncells ds) rows.

(** A vertical dimension, if there is one, has a single level. *)
Definition lev_ok (dims : list (string * nat)) : Prop :=
  ∀ i d, list_find (λ d, d.1 = "lev") dims = Some (i, d) → d.2 = 1%nat.

(** What [read_nc] returns or raises; the log line is its only effect. *)
Definition read_nc_result (ext : Externals) (ifile : string)
    (start end_ : dt.datetime) (vars : vars_arg) (scal : Qc) (func : string)
  : result (Field * Z) :=
  rbind (open_source ext ifile (strftime ext start ifile)) (λ ds,
  let ds := select_window ds start end_ in
  rbind (sum_variables ds (var_list vars)) (λ arrs,
  rbind (bound "arrs" arrs) (λ arrs,
  rbind (np_min (da_time arrs)) (λ m,
  rbind (reduce_by func arrs) (λ arr,
  rbind (bound "arr" arr) (λ arr,
  rbind (if xr.has_dim "lev" (f_dims arr)
         then xr.squeeze arr "lev" else Return arr) (λ arr,
  Return (if decide (scal ≠ 1%Qc) then xr.scale arr scal else arr,
          mean_time m (da_time arrs))))))))).

(** *** Contour sets and written files *)

(** The rings paired with the level of their collection, in the order of
    the collections. *)
Definition rings_with_levels (cs : QuadContourSet) : list (list coord * Qc) :=
  '(col, z) ← zip (collections cs) (levels cs);
  (λ p, (vertices p, z)) <$> get_paths col.

Definition all_paths (cs : QuadContourSet) : list Path :=
  collections cs ≫= get_paths.

(** The record written for a ring at a level. *)
Definition feature_of (propname : string) (rz : list coord * Qc) : Feature :=
  mk_Feature [(propname, rz.2)] (shapely.mapping (mk_Polygon rz.1)).

Definition entry_of (propname : string) (rz : list coord * Qc) : PolyEntry :=
  mk_PolyEntry (mk_Polygon rz.1) [(propname, rz.2)].

(** What the contouring routine is relied upon to return: one collection
    per level, each a distinct object. *)
Definition well_formed (cs : QuadContourSet) : Prop :=
  length (collections cs) = length (levels cs) ∧
  NoDup (col_id <$> collections cs).

(** The levels of the contour set are the levels asked for, in their
    order. *)
Definition contour_contract (ext : Externals) : Prop :=
  ∀ lon lat vals lvls cs,
    contour ext lon lat vals lvls = Return cs →
    levels cs = lvls ∧ well_formed cs.

Definition accepted (ext : Externals) (p : Path) : Prop :=
  shapely_accepts ext (vertices p) = true.

Global Instance accepted_dec ext p : Decision (accepted ext p).
Proof. unfold accepted. apply _. Defined.

(** The number of records, out of [n], that the device takes. *)
Definition taken (quota : option nat) (n : nat) : nat :=
  match quota with
  | None => n
  | Some q => (q `min` n)%nat
  end.

Definition device_takes (w : World) (n : nat) : Prop :=
  match w_quota w with
  | None => True
  | Some q => (n ≤ q)%nat
  end.

Definition declared_schema (propname : string) : Schema :=
  mk_Schema "Polygon" [(propname, "float")].

Definition features_at (propname : string) (L : Qc) (f : ShpFile) : list Feature :=
  filter (λ feat, properties feat = [(propname, L)]) (shp_records f).

Definition rings_at (L : Qc) (cs : QuadContourSet) : list (list coord * Qc) :=
  filter (λ rz, rz.2 = L) (rings_with_levels cs).

(** Twice the signed area enclosed by a ring (shoelace formula). *)
Fixpoint shoelace (first : coord) (ring : list coord) : Qc :=
  match ring with
  | [] => 0
  | [p] => p.1 * first.2 - first.1 * p.2
  | p :: (q :: _) as rest => (p.1 * q.2 - q.1 * p.2) + shoelace first rest
  end%Qc.

Definition area2 (ring : list coord) : Qc :=
  match ring with
  | [] => 0%Qc
  | first :: _ => shoelace first ring
  end.

(** Fewer than three distinct vertices, or no enclosed area. *)
Definition degenerate (ring : list coord) : bool :=
  bool_decide (length (remove_dups ring) < 3)%nat || bool_decide (area2 ring = 0%Qc).

Definition nondegenerate_rings_at (L : Qc) (cs : QuadContourSet)
  : list (list coord * Qc) :=
  filter (λ rz, degenerate rz.1 = false) (rings_at L cs).

(** *** The month and day of a day of the year, as [ord2ymd] finds them *)

Definition month_day (leapyear : bool) (n : Z) : Z * Z :=
  let month := Z.shiftr (n + 50) 5 in
  let preceding :=
    dt.DAYS_BEFORE_MONTH month + (if (2 <? month) && leapyear then 1 else 0) in
  let '(month, preceding) :=
    if n <? preceding
    then (month - 1,
          preceding - (dt.DAYS_IN_MONTH (month - 1)
                       + (if (month - 1 =? 2) && leapyear then 1 else 0)))
    else (month, preceding) in
  (month, n - preceding + 1).

Definition month_day_ok (leapyear : bool) (n : Z) : bool :=
  let '(m, d) := month_day leapyear n in
  Z.leb 1 m && Z.leb m 12 && Z.leb 1 d &&
  Z.leb d (if (m =? 2) && leapyear then 29 else dt.DAYS_IN_MONTH m) &&
  (dt.DAYS_BEFORE_MONTH m + (if (2 <? m) && leapyear then 1 else 0) + d =? n + 1).

(** ** A concrete setting for examples *)

Module Demo.

Local Open Scope Qc_scope.

Definition q (n : Z) : Qc := Qc_of_Z n.

(** 2020-01-01T00:00:00 in nanoseconds since the epoch, and one hour. *)
Definition t0 : Z := 1577836800000000000.
Definition hour_ns : Z := 3600000000000.

Definition start : dt.datetime := dt.mk_datetime 2020 1 1 0 0 0 0.
Definition end_ : dt.datetime := dt.mk_datetime 2020 1 2 0 0 0 0.

(** A wall clock on the morning of 2020-03-15. *)
Definition today : dt.datetime := dt.mk_datetime 2020 3 15 10 30 5 7.

(** Three hourly samples of two variables on a 2 x 2 grid. *)
Definition ds3 : Dataset :=
  {| ds_time := [t0; t0 + hour_ns; t0 + 2 * hour_ns]%Z;
     ds_dims := [("lat", 2%nat); ("lon", 2%nat)];
     ds_lon := [q 0; q 1];
     ds_lat := [q 0; q 1];
     ds_vars := {[ "dust" := [[q 1; q 2; q 3; q 4];
                              [q 3; q 2; q 1; q 0];
                              [q 2; q 5; q 8; q 8]];
                   "salt" := [[q 10; q 10; q 10; q 10];
                              [q 20; q 20; q 20; q 20];
                              [q 30; q 30; q 30; q 60]] ]} |}.

(** A single sample taken on 2019-01-01, on one vertical level. *)
Definition ds1 : Dataset :=
  {| ds_time := [1546300800000000000%Z];
     ds_dims := [("lev", 1%nat); ("lat", 2%nat); ("lon", 2%nat)];
     ds_lon := [q 0; q 1];
     ds_lat := [q 0; q 1];
     ds_vars := {[ "dust" := [[q 1; q 2; q 3; q 4]] ]} |}.

Definition half : Qc := Q2Qc (1 # 2).

Definition square (x y : Qc) : list coord :=
  [(x - half, y - half); (x + half, y - half); (x + half, y + half);
   (x - half, y + half); (x - half, y - half)].

(** A crude contouring routine: at each level, the outline of every grid
    cell whose value exceeds the level; one collection per level, in the
    order of the levels. *)
Definition cell_outlines (lon lat : list Qc) (vals : ndarray)
    (lvls : list Qc) : result QuadContourSet :=
  let cells := zip (list_prod lat lon) (nd_buffer vals) in
  Return {| collections :=
              imap (λ i l,
                mk_LineCollection i
                  ((λ c, mk_Path (square c.1.2 c.1.1)) <$>
                     filter (λ c, l < c.2) cells)) lvls;
            levels := lvls |}.

(** The libraries: file name templates without directives are returned as
    they are, two sources can be opened, and shapely asks for three
    coordinate tuples. *)
Definition ext : Externals :=
  {| strftime := λ _ s, s;
     ts_strftime := λ _ s, s;
     open_dataset := λ name,
       if decide (name = "hourly.nc") then Return ds3
       else if decide (name = "single.nc") then Return ds1
       else Raise (OSError name);
     open_mfdataset := λ name, Raise (OSError name);
     contour := cell_outlines;
     shapely_accepts := λ cs, bool_decide (3 ≤ length cs)%nat |}.

Definition world : World :=
  {| w_today := dt.mk_datetime 2020 1 2 9 30 0 0;
     w_log := [];
     w_shp := ∅;
     w_figs := ∅;
     w_quota := None;
     w_unwritable := {[ "/nonexistent/plumes.png" ]} |}.

(** The same world with room for a single record on the device. *)
Definition world_full : World :=
  {| w_today := dt.mk_datetime 2020 1 2 9 30 0 0;
     w_log := [];
     w_shp := ∅;
     w_figs := ∅;
     w_quota := Some 1%nat;
     w_unwritable := {[ "/nonexistent/plumes.png" ]} |}.

(** The mean of [dust + salt] over the three samples of [ds3]. *)
Definition field : Field :=
  {| f_dims := [("lat", 2%nat); ("lon", 2%nat)];
     f_lon := [q 0; q 1];
     f_lat := [q 0; q 1];
     f_data := [q 22; q 23; q 24; q 34] |}.

(** Its contours at 10 and 25: four cells above 10, one above 25. *)
Definition cs_field : QuadContourSet :=
  {| collections :=
       [mk_LineCollection 0 [mk_Path (square (q 0) (q 0));
                             mk_Path (square (q 1) (q 0));
                             mk_Path (square (q 0) (q 1));
                             mk_Path (square (q 1) (q 1))];
        mk_LineCollection 1 [mk_Path (square (q 1) (q 1))]];
     levels := [q 10; q 25] |}.

(** Its contours at 25 and 100: nothing reaches 100. *)
Definition cs_sparse : QuadContourSet :=
  {| collections :=
       [mk_LineCollection 0 [mk_Path (square (q 1) (q 1))];
        mk_LineCollection 1 []];
     levels := [q 25; q 100] |}.

(** A contour line that runs straight: three vertices on one line. *)
Definition straight : list coord := [(q 0, q 0); (q 1, q 1); (q 2, q 2)].

Definition cs_straight : QuadContourSet :=
  {| collections := [mk_LineCollection 0 [mk_Path straight]];
     levels := [q 10] |}.

Definition args : Args :=
  {| a_ifile := "hourly.nc";
     a_year := None; a_month := None; a_day := None;
     a_time_window := 24;
     a_ncvars := ["dust"; "salt"];
     a_ncscal := 1;
     a_func := "mean";
     a_contours := [q 10; q 25];
     a_shapefile := Some "plumes.shp";
     a_propname := "pm25";
     a_contour_figname := None;
     a_fillfig_name := "plumes.png";
     a_fillfig_contour := Some (q 25);
     a_fillfig_title := "plumes";
     a_central_longitude := 0;
     a_extent := [-180; 180; -90; 90]%Z |}.

(** The same call with the diagnostic figure sent to a directory that does
    not exist. *)
Definition args_nofig : Args :=
  {| a_ifile := "hourly.nc";
     a_year := None; a_month := None; a_day := None;
     a_time_window := 24;
     a_ncvars := ["dust"; "salt"];
     a_ncscal := 1;
     a_func := "mean";
     a_contours := [q 10; q 25];
     a_shapefile := Some "plumes.shp";
     a_propname := "pm25";
     a_contour_figname := None;
     a_fillfig_name := "/nonexistent/plumes.png";
     a_fillfig_contour := Some (q 25);
     a_fillfig_title := "plumes";
     a_central_longitude := 0;
     a_extent := [-180; 180; -90; 90]%Z |}.

End Demo.

(** ** The time axis of a source *)

(** The time stamps do not decrease. *)
Fixpoint ascending (times : list Z) : bool :=
  match times with
  | t :: (u :: _) as rest => Z.leb t u && ascending rest
  | _ => true
  end.

(** The time stamps are 64-bit counts of nanoseconds, and the sum of their
    offsets from the earliest stays below [2 ^ 63]: the sum that numpy
    forms in 64 bits does not wrap. *)
Definition offsets_fit (times : list Z) : bool :=
  forallb (λ t, Z.ltb (- 2 ^ 63) t && Z.ltb t (2 ^ 63)) times &&
  match np_min times with
  | Return m => Z.ltb (foldr Z.add 0 ((λ t, t - m) <$> times)) (2 ^ 63)
  | Raise _ => true
  end.

(** ** What a call leaves alone, and what the diagnostic plot draws *)

(** [w'] is [w] but for the shapefile at [path], the log and the room left
    on the device. *)
Definition same_but_at (path : option string) (w w' : World) : Prop :=
  (∀ p, Some p ≠ path → w_shp w' !! p = w_shp w !! p) ∧
  w_figs w' = w_figs w ∧
  w_unwritable w' = w_unwritable w ∧
  w_today w' = w_today w.

(** [shape.record[0]] of a record that has an attribute. *)
Definition first_attr (r : Feature) : option Qc := snd <$> head (properties r).

(** The two coordinate lists that [ax.fill] is given for a record. *)
Definition fill_of (r : Feature) : list Qc * list Qc :=
  ((coordinates (geometry r)).*1, (coordinates (geometry r)).*2).

(** ** More concrete data *)

Module Cases.

Local Open Scope Qc_scope.

(** A wall clock on the last evening of 1999. *)
Definition clock2 : dt.datetime := dt.mk_datetime 1999 12 31 23 59 59 0.



(** A contour set with a collection more than it has levels. *)
Definition cs_short : QuadContourSet :=
  {| collections :=
       [mk_LineCollection 0 [mk_Path (Demo.square (Demo.q 0) (Demo.q 0))];
        mk_LineCollection 1 [mk_Path (Demo.square (Demo.q 1) (Demo.q 1))]];
     levels := [Demo.q 10] |}.

(** A shapefile written earlier: two rings at 10, one at 25. *)
Definition archive : ShpFile :=
  mk_ShpFile (mk_Schema "Polygon" [("pm25", "float")])
    [mk_Feature [("pm25", Demo.q 10)]
       (shapely.mapping (mk_Polygon (Demo.square (Demo.q 0) (Demo.q 0))));
     mk_Feature [("pm25", Demo.q 25)]
       (shapely.mapping (mk_Polygon (Demo.square (Demo.q 1) (Demo.q 1))));
     mk_Feature [("pm25", Demo.q 10)]
       (shapely.mapping (mk_Polygon (Demo.square (Demo.q 1) (Demo.q 0))))]
    true.

(** [Demo.world] with that file on the disk. *)
Definition world_archive : World :=
  {| w_today := dt.mk_datetime 2020 1 2 9 30 0 0;
     w_log := [];
     w_shp := {[ "archive.shp" := archive ]};
     w_figs := ∅;
     w_quota := None;
     w_unwritable := {[ "/nonexistent/plumes.png" ]} |}.

(** The call of [Demo.args] without a shapefile. *)
Definition args_noshp : Args :=
  {| a_ifile := "hourly.nc";
     a_year := None; a_month := None; a_day := None;
     a_time_window := 24;
     a_ncvars := ["dust"; "salt"];
     a_ncscal := 1;
     a_func := "mean";
     a_contours := [Demo.q 10; Demo.q 25];
     a_shapefile := None;
     a_propname := "pm25";
     a_contour_figname := None;
     a_fillfig_name := "plumes.png";
     a_fillfig_contour := Some (Demo.q 25);
     a_fillfig_title := "plumes";
     a_central_longitude := 0;
     a_extent := [-180; 180; -90; 90]%Z |}.

End Cases.

(** * Properties *)

(** ** The calendar *)

Lemma month_day_ok_all (leapyear : bool) (n : Z) :
  0 <= n < (if leapyear then 366 else 365) → month_day_ok leapyear n = true.
Proof.
  intros Hn.
  assert (H : forallb (λ k, month_day_ok leapyear (Z.of_nat k)) (seq 0 366) = true
              ∨ (leapyear = false ∧ forallb (λ k, month_day_ok leapyear (Z.of_nat k)) (seq 0 365) = true)).
  { destruct leapyear; [left|right; split; [done|]]; vm_compute; reflexivity. }
  destruct H as [H|[-> H]].
  - rewrite forallb_forall in H. specialize (H (Z.to_nat n)).
    rewrite Z2Nat.id in H by lia. apply H. apply in_seq. destruct leapyear; lia.
  - rewrite forallb_forall in H. specialize (H (Z.to_nat n)).
    rewrite Z2Nat.id in H by lia. apply H. apply in_seq. lia.
Qed.

Lemma dby_decomp n400 n100 n4 n1 :
  0 <= n100 < 4 → 0 <= n4 < 25 → 0 <= n1 < 4 →
  dt.days_before_year (n400 * 400 + 1 + n100 * 100 + n4 * 4 + n1)
  = 146097 * n400 + 36524 * n100 + 1461 * n4 + 365 * n1.
Proof.
  intros H100 H4 H1. unfold dt.days_before_year. cbv zeta.
  replace (n400 * 400 + 1 + n100 * 100 + n4 * 4 + n1 - 1)
    with (n400 * 400 + n100 * 100 + n4 * 4 + n1) by lia.
  assert ((n400 * 400 + n100 * 100 + n4 * 4 + n1) / 4 = 100 * n400 + 25 * n100 + n4) as ->.
  { symmetry. apply (Z.div_unique _ 4 _ n1); lia. }
  assert ((n400 * 400 + n100 * 100 + n4 * 4 + n1) / 100 = 4 * n400 + n100) as ->.
  { symmetry. apply (Z.div_unique _ 100 _ (n4 * 4 + n1)); lia. }
  assert ((n400 * 400 + n100 * 100 + n4 * 4 + n1) / 400 = n400) as ->.
  { symmetry. apply (Z.div_unique _ 400 _ (n100 * 100 + n4 * 4 + n1)); lia. }
  lia.
Qed.

Lemma leap_decomp n400 n100 n4 n1 :
  0 <= n100 < 4 → 0 <= n4 < 25 → 0 <= n1 < 4 →
  dt.is_leap (n400 * 400 + 1 + n100 * 100 + n4 * 4 + n1)
  = (n1 =? 3) && (negb (n4 =? 24) || (n100 =? 3)).
Proof.
  intros H100 H4 H1. unfold dt.is_leap.
  assert ((n400 * 400 + 1 + n100 * 100 + n4 * 4 + n1) mod 4 = (n1 + 1) mod 4) as ->.
  { replace (n400 * 400 + 1 + n100 * 100 + n4 * 4 + n1)
      with ((n1 + 1) + (n400 * 100 + n100 * 25 + n4) * 4) by lia.
    apply Z.mod_add. lia. }
  assert ((n400 * 400 + 1 + n100 * 100 + n4 * 4 + n1) mod 100 = (n4 * 4 + n1 + 1) mod 100) as ->.
  { replace (n400 * 400 + 1 + n100 * 100 + n4 * 4 + n1)
      with ((n4 * 4 + n1 + 1) + (n400 * 4 + n100) * 100) by lia.
    apply Z.mod_add. lia. }
  assert ((n400 * 400 + 1 + n100 * 100 + n4 * 4 + n1) mod 400 = (n100 * 100 + n4 * 4 + n1 + 1) mod 400) as ->.
  { replace (n400 * 400 + 1 + n100 * 100 + n4 * 4 + n1)
      with ((n100 * 100 + n4 * 4 + n1 + 1) + n400 * 400) by lia.
    apply Z.mod_add. lia. }
  assert (n1 = 0 ∨ n1 = 1 ∨ n1 = 2 ∨ n1 = 3) as Hn1 by lia.
  destruct (Z.eqb_spec n1 3) as [->|Hne].
  - change ((3 + 1) mod 4) with 0. cbn [Z.eqb andb].
    destruct (Z.eqb_spec n4 24) as [->|Hne4].
    + change ((24 * 4 + 3 + 1) mod 100) with 0. cbn [Z.eqb negb orb].
      assert (n100 = 0 ∨ n100 = 1 ∨ n100 = 2 ∨ n100 = 3) as [->|[->|[->| ->]]] by lia;
        reflexivity.
    + cbn [negb orb].
      rewrite Z.mod_small by lia.
      destruct (Z.eqb_spec (n4 * 4 + 3 + 1) 0); [lia|]. reflexivity.
  - destruct Hn1 as [->|[->|[->| ->]]]; try lia; reflexivity.
Qed.

Lemma ord2ymd_spec n :
  1 <= n →
  ∃ y m d, dt.ord2ymd n = (y, m, d) ∧
    dt.ymd2ord y m d = n ∧
    1 <= m <= 12 ∧ 1 <= d <= dt.days_in_month y m ∧
    (n <= dt.MAXORDINAL → 1 <= y <= 9999).
Proof.
  intros Hn. unfold dt.ord2ymd. cbv zeta.
  unfold dt.DI400Y, dt.DI100Y, dt.DI4Y.
  pose proof (Z.div_mod (n - 1) 146097 ltac:(lia)) as E400.
  pose proof (Z.mod_pos_bound (n - 1) 146097 ltac:(lia)) as B400.
  pose proof (Z.div_pos (n - 1) 146097 ltac:(lia) ltac:(lia)) as P400.
  assert (n <= dt.MAXORDINAL → (n - 1) / 146097 < 25) as U400.
  { unfold dt.MAXORDINAL. intros. apply Z.div_lt_upper_bound; lia. }
  set (n400 := (n - 1) / 146097) in *. set (r := (n - 1) mod 146097) in *.
  clearbody n400 r.
  pose proof (Z.div_mod r 36524 ltac:(lia)) as E100.
  pose proof (Z.mod_pos_bound r 36524 ltac:(lia)) as B100.
  pose proof (Z.div_pos r 36524 ltac:(lia) ltac:(lia)) as P100.
  set (n100 := r / 36524) in *. set (r2 := r mod 36524) in *.
  clearbody n100 r2.
  pose proof (Z.div_mod r2 1461 ltac:(lia)) as E4.
  pose proof (Z.mod_pos_bound r2 1461 ltac:(lia)) as B4.
  pose proof (Z.div_pos r2 1461 ltac:(lia) ltac:(lia)) as P4.
  set (n4 := r2 / 1461) in *. set (r3 := r2 mod 1461) in *.
  clearbody n4 r3.
  pose proof (Z.div_mod r3 365 ltac:(lia)) as E1.
  pose proof (Z.mod_pos_bound r3 365 ltac:(lia)) as B1.
  pose proof (Z.div_pos r3 365 ltac:(lia) ltac:(lia)) as P1.
  set (n1 := r3 / 365) in *. set (r4 := r3 mod 365) in *.
  clearbody n1 r4.
  assert (n100 <= 4) by lia. assert (n4 <= 24) by lia. assert (n1 <= 4) by lia.
  destruct (Z.eqb_spec n1 4) as [->|Hn1]; cbn [orb].
  { (* last day of a leap year that ends a 4-year cycle *)
    assert (r4 = 0) as -> by lia.
    exists (n400 * 400 + 1 + n100 * 100 + n4 * 4 + 4 - 1), 12, 31. split; [done|].
    assert (n100 < 4) by lia.
    replace (n400 * 400 + 1 + n100 * 100 + n4 * 4 + 4 - 1)
      with (n400 * 400 + 1 + n100 * 100 + n4 * 4 + 3) by lia.
    unfold dt.ymd2ord, dt.days_before_month, dt.days_in_month.
    rewrite dby_decomp, leap_decomp by lia.
    change (3 =? 3) with true. change (12 =? 2) with false. cbn [andb].
    destruct (Z.eqb_spec n4 24) as [->|?]; [lia|].
    cbn. unfold dt.MAXORDINAL in *. lia. }
  destruct (Z.eqb_spec n100 4) as [->|Hn100].
  { assert (r2 = 0) as -> by lia. assert (n4 = 0) as -> by lia.
    assert (r3 = 0) as -> by lia. assert (n1 = 0) as -> by lia.
    assert (r4 = 0) as -> by lia.
    exists (n400 * 400 + 1 + 4 * 100 + 0 * 4 + 0 - 1), 12, 31. split; [done|].
    replace (n400 * 400 + 1 + 4 * 100 + 0 * 4 + 0 - 1)
      with (n400 * 400 + 1 + 3 * 100 + 24 * 4 + 3) by lia.
    unfold dt.ymd2ord, dt.days_before_month, dt.days_in_month.
    rewrite dby_decomp, leap_decomp by lia.
    cbn. unfold dt.MAXORDINAL in *. lia. }
  assert (n100 < 4) by lia. assert (n1 < 4) by lia.
  set (leapyear := (n1 =? 3) && (negb (n4 =? 24) || (n100 =? 3))).
  assert (0 <= r4 < (if leapyear then 366 else 365)) as Hr4 by (destruct leapyear; lia).
  pose proof (month_day_ok_all leapyear r4 Hr4) as Hmd.
  unfold month_day_ok, month_day in Hmd. cbv zeta in Hmd.
  destruct (if r4 <? _ then _ else _) as [m p] eqn:Emp.
  apply andb_prop in Hmd as [Hmd Hsum]. apply andb_prop in Hmd as [Hmd Hd2].
  apply andb_prop in Hmd as [Hmd Hd1]. apply andb_prop in Hmd as [Hm1 Hm2].
  exists (n400 * 400 + 1 + n100 * 100 + n4 * 4 + n1), m, (r4 - p + 1).
  split; [done|].
  unfold dt.ymd2ord, dt.days_before_month, dt.days_in_month.
  rewrite dby_decomp, leap_decomp by lia. fold leapyear.
  unfold dt.MAXORDINAL in *. lia.
Qed.

Lemma check_date_fields_inv y m d :
  dt.check_date_fields y m d = Return tt ↔
  1 <= y <= 9999 ∧ 1 <= m <= 12 ∧ 1 <= d <= dt.days_in_month y m.
Proof.
  unfold dt.check_date_fields, dt.MINYEAR, dt.MAXYEAR.
  destruct (Z.leb_spec 1 y), (Z.leb_spec y 9999); cbn [andb negb];
    try (split; [discriminate|lia]).
  destruct (Z.leb_spec 1 m), (Z.leb_spec m 12); cbn [andb negb];
    try (split; [discriminate|lia]).
  destruct (Z.leb_spec 1 d), (Z.leb_spec d (dt.days_in_month y m)); cbn [andb negb];
    try (split; [discriminate|lia]).
  split; [lia|done].
Qed.

Lemma check_time_fields_inv h mi s us :
  dt.check_time_fields h mi s us = Return tt ↔
  0 <= h <= 23 ∧ 0 <= mi <= 59 ∧ 0 <= s <= 59 ∧ 0 <= us <= 999999.
Proof.
  unfold dt.check_time_fields.
  destruct (Z.leb_spec 0 h), (Z.leb_spec h 23); cbn [andb negb];
    try (split; [discriminate|lia]).
  destruct (Z.leb_spec 0 mi), (Z.leb_spec mi 59); cbn [andb negb];
    try (split; [discriminate|lia]).
  destruct (Z.leb_spec 0 s), (Z.leb_spec s 59); cbn [andb negb];
    try (split; [discriminate|lia]).
  destruct (Z.leb_spec 0 us), (Z.leb_spec us 999999); cbn [andb negb];
    try (split; [discriminate|lia]).
  split; [lia|done].
Qed.

Lemma year_fits y :
  1 <= y <= 9999 →
  0 <= dt.days_before_year y ∧
  dt.days_before_year y + (if dt.is_leap y then 366 else 365) <= dt.MAXORDINAL.
Proof.
  intros Hy. unfold dt.days_before_year, dt.is_leap, dt.MAXORDINAL. cbv zeta.
  destruct (Z.eqb_spec (y mod 4) 0), (Z.eqb_spec (y mod 100) 0),
    (Z.eqb_spec (y mod 400) 0); cbn [andb orb negb];
    Z.div_mod_to_equations; lia.
Qed.

Lemma ymd2ord_bounds y m d :
  dt.check_date_fields y m d = Return tt → 1 <= dt.ymd2ord y m d <= dt.MAXORDINAL.
Proof.
  rewrite check_date_fields_inv. intros (Hy & Hm & Hd).
  pose proof (year_fits y Hy) as [H0 H1].
  unfold dt.ymd2ord, dt.days_before_month. unfold dt.days_in_month in Hd.
  assert (m = 1 ∨ m = 2 ∨ m = 3 ∨ m = 4 ∨ m = 5 ∨ m = 6 ∨ m = 7 ∨ m = 8 ∨
          m = 9 ∨ m = 10 ∨ m = 11 ∨ m = 12) as Hcases by lia.
  destruct (dt.is_leap y);
    repeat (destruct Hcases as [->|Hcases]; [cbn in *; lia|]); subst m; cbn in *; lia.
Qed.

Lemma td_normalize_spec d s us t :
  dt.td_normalize d s us = Return t →
  dt.td_to_us t = (d * 86400 + s) * 1000000 + us ∧
  0 <= dt.seconds t < 86400 ∧ 0 <= dt.microseconds t < 1000000.
Proof.
  unfold dt.td_normalize. cbv zeta. destruct (_ <? _); [discriminate|].
  intros [= <-]. unfold dt.td_to_us. cbn.
  pose proof (Z.div_mod us 1000000 ltac:(lia)).
  pose proof (Z.mod_pos_bound us 1000000 ltac:(lia)).
  pose proof (Z.div_mod (s + us / 1000000) 86400 ltac:(lia)).
  pose proof (Z.mod_pos_bound (s + us / 1000000) 86400 ltac:(lia)).
  lia.
Qed.

Lemma td_normalize_returns d s us :
  Z.abs ((d * 86400 + s) * 1000000 + us) <= 999999999 * 86400000000 →
  ∃ t, dt.td_normalize d s us = Return t.
Proof.
  intros Hb. unfold dt.td_normalize. cbv zeta.
  destruct (Z.ltb_spec 999999999 (Z.abs (d + (s + us / 1000000) / 86400))) as [Hlt|]; [|eauto].
  exfalso.
  pose proof (Z.div_mod us 1000000 ltac:(lia)).
  pose proof (Z.mod_pos_bound us 1000000 ltac:(lia)).
  pose proof (Z.div_mod (s + us / 1000000) 86400 ltac:(lia)).
  pose proof (Z.mod_pos_bound (s + us / 1000000) 86400 ltac:(lia)).
  lia.
Qed.

(** Adding a duration moves a value along the time line by that duration,
    and yields a value [datetime] can hold. *)
Lemma add_spec t d r :
  dt.add t d = Return r →
  dt.to_us r = dt.to_us t + dt.td_to_us d ∧
  (0 <= dt.microsecond t + dt.microseconds d → dt.valid r).
Proof.
  unfold dt.add.
  destruct (dt.td_normalize _ _ _) as [|delta] eqn:En; [discriminate|]. cbn [rbind].
  apply td_normalize_spec in En as (Eus & Hs & Hu).
  destruct (Z.ltb_spec 0 (dt.days delta)) as [Hpos|]; [|discriminate].
  destruct (Z.leb_spec (dt.days delta) dt.MAXORDINAL) as [Hmax|]; [|discriminate].
  cbn [andb].
  destruct (ord2ymd_spec (dt.days delta) ltac:(lia)) as (y & m & dd & -> & Hord & Hm & Hd & Hy).
  intros [= <-]. unfold dt.to_us, dt.toordinal, dt.valid. cbn.
  rewrite Hord. unfold dt.td_to_us in Eus.
  pose proof (Z.div_mod (dt.seconds delta) 3600 ltac:(lia)).
  pose proof (Z.mod_pos_bound (dt.seconds delta) 3600 ltac:(lia)).
  pose proof (Z.div_mod (dt.seconds delta mod 3600) 60 ltac:(lia)).
  pose proof (Z.mod_pos_bound (dt.seconds delta mod 3600) 60 ltac:(lia)).
  split.
  - unfold dt.toordinal, dt.td_to_us in *. lia.
  - intros _. rewrite check_date_fields_inv, check_time_fields_inv.
    assert (0 <= dt.seconds delta / 3600 <= 23).
    { split; [apply Z.div_pos; lia|]. apply Z.lt_succ_r, Z.div_lt_upper_bound; lia. }
    assert (0 <= (dt.seconds delta mod 3600) / 60 <= 59).
    { split; [apply Z.div_pos; lia|]. apply Z.lt_succ_r, Z.div_lt_upper_bound; lia. }
    specialize (Hy Hmax). lia.
Qed.

Lemma add_returns t d :
  Z.abs (dt.td_to_us d) <= 999999999 * 86400000000 - 3652060 * 86400000000 →
  0 <= dt.to_us t + dt.td_to_us d < dt.MAXORDINAL * 86400000000 →
  0 <= dt.to_us t < dt.MAXORDINAL * 86400000000 →
  ∃ r, dt.add t d = Return r.
Proof.
  intros Hd Hsum Ht. unfold dt.add.
  assert (dt.to_us t + dt.td_to_us d =
          ((dt.toordinal t + dt.days d - 1) * 86400
           + (dt.hour t * 3600 + dt.minute t * 60 + dt.second t + dt.seconds d)) * 1000000
          + (dt.microsecond t + dt.microseconds d)) as Etot.
  { unfold dt.to_us, dt.td_to_us. lia. }
  destruct (td_normalize_returns (dt.toordinal t + dt.days d)
              (dt.hour t * 3600 + dt.minute t * 60 + dt.second t + dt.seconds d)
              (dt.microsecond t + dt.microseconds d)) as [delta En].
  { unfold dt.MAXORDINAL in *. lia. }
  rewrite En. cbn [rbind].
  apply td_normalize_spec in En as (Eus & Hs & Hu). unfold dt.td_to_us in Eus.
  destruct (Z.ltb_spec 0 (dt.days delta)); [|unfold dt.MAXORDINAL in *; lia].
  destruct (Z.leb_spec (dt.days delta) dt.MAXORDINAL); [|unfold dt.MAXORDINAL in *; lia].
  cbn [andb]. destruct (dt.ord2ymd _) as [[y m] dd]. eauto.
Qed.

Lemma valid_to_us t :
  dt.valid t →
  (dt.toordinal t - 1) * 86400000000 <= dt.to_us t < dt.toordinal t * 86400000000 ∧
  1 <= dt.toordinal t <= dt.MAXORDINAL.
Proof.
  intros [Hd Ht]. pose proof (ymd2ord_bounds _ _ _ Hd) as Hb.
  apply check_time_fields_inv in Ht. unfold dt.to_us, dt.toordinal in *. lia.
Qed.

Lemma timedelta_one_day : dt.timedelta_new 1 0 = Return (dt.mk_timedelta 1 0 0).
Proof. reflexivity. Qed.

Lemma yesterday_spec today :
  dt.valid today → 1 < dt.toordinal today →
  ∃ yesterday,
    dt.sub today (dt.mk_timedelta 1 0 0) = Return yesterday ∧
    dt.valid yesterday ∧
    dt.to_us yesterday = dt.to_us today - 86400000000.
Proof.
  intros Hv Hord. pose proof (valid_to_us _ Hv) as [Hus Hb].
  unfold dt.sub. change (dt.td_neg _) with (Return (dt.mk_timedelta (-1) 0 0)).
  cbn [rbind].
  destruct (add_returns today (dt.mk_timedelta (-1) 0 0)) as [y Hy].
  - vm_compute. discriminate.
  - unfold dt.td_to_us, dt.MAXORDINAL in *. cbn. lia.
  - unfold dt.MAXORDINAL in *. lia.
  - exists y. split; [done|]. apply add_spec in Hy as [Hy1 Hy2]. split.
    + apply Hy2. cbn. destruct Hv as [_ Ht]. apply check_time_fields_inv in Ht. lia.
    + rewrite Hy1. unfold dt.td_to_us. cbn. lia.
Qed.

(** C10.  With the wall clock at a valid [today] later than 0001-01-01,
    let [yesterday] be that instant minus one day.  Each of year, month and
    day that is [None] is taken from [yesterday], independently of the
    others; a returned start is midnight of the resulting date, and the
    returned end lies exactly [time_window] hours after it on the time
    line.  The call returns whenever the resulting date exists and the end
    stays within the range of [datetime]. *)
Theorem get_analysis_date_window today year month day time_window :
  dt.valid today →
  1 < dt.toordinal today →
  ∃ yesterday,
    dt.valid yesterday ∧
    dt.to_us yesterday = dt.to_us today - 86400000000 ∧
    let start :=
      dt.mk_datetime (default (dt.year yesterday) year)
                     (default (dt.month yesterday) month)
                     (default (dt.day yesterday) day) 0 0 0 0 in
    let end_us := dt.to_us start + time_window * 3600000000 in
    (∀ s e, get_analysis_date today year month day time_window = Return (s, e) →
       s = start ∧ dt.valid s ∧ dt.valid e ∧ dt.to_us e = end_us) ∧
    (dt.valid start → 0 <= end_us < dt.MAXORDINAL * 86400000000 →
       ∃ e, get_analysis_date today year month day time_window = Return (start, e)).
Proof.
  intros Hv Hord.
  destruct (yesterday_spec today Hv Hord) as (yd & Hsub & Hvy & Hus).
  exists yd. split; [done|]. split; [done|]. cbv zeta.
  unfold get_analysis_date. rewrite timedelta_one_day. cbn [rbind]. rewrite Hsub.
  cbn [rbind].
  replace (match year with Some y => y | None => dt.year yd end)
    with (default (dt.year yd) year) by (by destruct year).
  replace (match month with Some y => y | None => dt.month yd end)
    with (default (dt.month yd) month) by (by destruct month).
  replace (match day with Some y => y | None => dt.day yd end)
    with (default (dt.day yd) day) by (by destruct day).
  set (y := default _ year). set (m := default _ month). set (d := default _ day).
  unfold dt.datetime_new. change (dt.check_time_fields 0 0 0 0) with (Return tt).
  split.
  - intros s e.
    destruct (dt.check_date_fields y m d) as [|[]] eqn:Ec; [discriminate|].
    cbn [rbind].
    destruct (dt.timedelta_new 0 time_window) as [|delta] eqn:Ed; [discriminate|].
    cbn [rbind].
    destruct (dt.add _ delta) as [|e'] eqn:Ea; [discriminate|]. cbn [rbind].
    intros [= <- <-].
    apply td_normalize_spec in Ed as (Ed & ? & ?).
    apply add_spec in Ea as [Ea1 Ea2].
    split; [done|]. split; [by split|]. split.
    + apply Ea2. cbn. lia.
    + rewrite Ea1, Ed. lia.
  - intros [Hd _] Hend. cbn in Hd. rewrite Hd. cbn [rbind].
    pose proof (valid_to_us (dt.mk_datetime y m d 0 0 0 0) ltac:(by split)) as [Hs Hb].
    assert (dt.to_us (dt.mk_datetime y m d 0 0 0 0)
            = (dt.toordinal (dt.mk_datetime y m d 0 0 0 0) - 1) * 86400000000) as Es
      by (unfold dt.to_us; cbn; lia).
    destruct (td_normalize_returns 0 (time_window * 3600) 0) as [delta Ed].
    { unfold dt.MAXORDINAL in *. lia. }
    unfold dt.timedelta_new. rewrite Ed. cbn [rbind].
    apply td_normalize_spec in Ed as (Ed & ? & ?).
    destruct (add_returns (dt.mk_datetime y m d 0 0 0 0) delta) as [e He].
    + rewrite Ed. unfold dt.MAXORDINAL in *. lia.
    + rewrite Ed. unfold dt.MAXORDINAL in *. lia.
    + unfold dt.MAXORDINAL in *. lia.
    + rewrite He. cbn [rbind]. eauto.
Qed.


(** ** [read_nc] *)

Lemma read_nc_run ext ifile start end_ vars scal func w :
  read_nc ext ifile start end_ vars scal func w
  = (read_nc_result ext ifile start end_ vars scal func,
     (log_info ("Reading " +:+ strftime ext start ifile) w).2).
Proof.
  unfold read_nc, read_nc_result, bind, lift, ret. cbn [log_info fst snd].
  destruct (open_source _ _ _) as [|ds]; [done|]. cbn [rbind].
  destruct (sum_variables _ _) as [|arrs]; [done|]. cbn [rbind].
  destruct (bound "arrs" arrs) as [|arrs']; [done|]. cbn [rbind].
  destruct (np_min _) as [|m]; [done|]. cbn [rbind].
  destruct (reduce_by _ _) as [|arr]; [done|]. cbn [rbind].
  destruct (bound "arr" arr) as [|arr']; [done|]. cbn [rbind].
  destruct (if xr.has_dim _ _ then _ else _) as [|arr'']; done.
Qed.

Lemma reduce_by_other func arrs :
  func ≠ "mean" → func ≠ "max" → func ≠ "min" → reduce_by func arrs = Return None.
Proof.
  intros. unfold reduce_by. cbv zeta.
  rewrite (decide_False (P := func = "mean")) by done. cbn [rbind].
  rewrite (decide_False (P := func = "max")) by done. cbn [rbind].
  by rewrite (decide_False (P := func = "min")).
Qed.

Lemma reduce_by_Some func arrs arr :
  reduce_by func arrs = Return (Some arr) →
  func = "mean" ∨ func = "max" ∨ func = "min".
Proof.
  intros H. destruct (decide (func = "mean")); [auto|].
  destruct (decide (func = "max")); [auto|].
  destruct (decide (func = "min")); [auto|].
  rewrite reduce_by_other in H by done. discriminate.
Qed.

(** C9.  For a reducer name other than "mean", "max" and "min", [read_nc]
    raises: no branch binds [arr], and where the source opens, the variables
    sum and the time axis is not empty, the exception is the
    [UnboundLocalError] of [arr].  Hence [read_nc] returns a field only for
    those three names. *)
Theorem read_nc_reducer_names ext ifile start end_ vars scal func w :
  (func ≠ "mean" → func ≠ "max" → func ≠ "min" →
   ∃ e, (read_nc ext ifile start end_ vars scal func w).1 = Raise e ∧
        ∀ ds arrs m,
          open_source ext ifile (strftime ext start ifile) = Return ds →
          sum_variables (select_window ds start end_) (var_list vars)
            = Return (Some arrs) →
          np_min (da_time arrs) = Return m →
          e = UnboundLocalError "arr") ∧
  (∀ r, (read_nc ext ifile start end_ vars scal func w).1 = Return r →
        func = "mean" ∨ func = "max" ∨ func = "min").
Proof.
  rewrite read_nc_run. cbn [fst]. unfold read_nc_result. split.
  - intros H1 H2 H3.
    destruct (open_source _ _ _) as [e|ds] eqn:Eo; cbn [rbind].
    { exists e. split; [done|]. intros; simplify_eq; congruence. }
    destruct (sum_variables _ _) as [e|arrs] eqn:Es; cbn [rbind].
    { exists e. split; [done|]. intros; simplify_eq; congruence. }
    destruct arrs as [arrs|]; cbn [bound rbind].
    2:{ eexists. split; [done|]. intros; simplify_eq; congruence. }
    destruct (np_min _) as [e|m] eqn:Em; cbn [rbind].
    { exists e. split; [done|]. intros; simplify_eq; congruence. }
    rewrite reduce_by_other by done. cbn [rbind bound].
    eexists. split; [done|]. done.
  - intros r.
    destruct (open_source _ _ _) as [e|ds]; cbn [rbind]; [done|].
    destruct (sum_variables _ _) as [e|arrs]; cbn [rbind]; [done|].
    destruct (bound "arrs" arrs) as [|arrs']; cbn [rbind]; [done|].
    destruct (np_min _) as [e|m]; cbn [rbind]; [done|].
    destruct (reduce_by _ _) as [|[arr|]] eqn:Er; cbn [rbind bound]; [done| |done].
    intros _. by apply reduce_by_Some in Er.
Qed.

Section Rows.
Local Open Scope Qc_scope.

Lemma cell_lookup rows t c row x :
  rows !! t = Some row → row !! c = Some x → cell rows t c = x.
Proof. unfold cell. intros -> . cbn. by intros ->. Qed.

Lemma shaped_lookup T N rows t :
  shaped T N rows → (t < T)%nat → ∃ row, rows !! t = Some row ∧ length row = N.
Proof.
  intros [HT HN] Ht. destruct (lookup_lt_is_Some_2 rows t) as [row Hrow]; [lia|].
  exists row. split; [done|]. by eapply (Forall_lookup_1 _ _ _ _ HN).
Qed.

Lemma cell_add T N a b t c :
  shaped T N a → shaped T N b →
  cell (zip_with (zip_with Qcplus) a b) t c = cell a t c + cell b t c.
Proof.
  intros Ha Hb. unfold cell. rewrite lookup_zip_with.
  destruct (decide (t < T)%nat) as [Ht|Ht].
  - destruct (shaped_lookup _ _ _ _ Ha Ht) as (ra & -> & Hra).
    destruct (shaped_lookup _ _ _ _ Hb Ht) as (rb & -> & Hrb). cbn.
    rewrite lookup_zip_with.
    destruct (decide (c < N)%nat) as [Hc|Hc].
    + destruct (lookup_lt_is_Some_2 ra c) as [x ->]; [lia|].
      destruct (lookup_lt_is_Some_2 rb c) as [y ->]; [lia|]. done.
    + rewrite (lookup_ge_None_2 ra), (lookup_ge_None_2 rb) by lia. cbn.
      by rewrite Qcplus_0_l.
  - destruct Ha as [Ha _], Hb as [Hb _].
    rewrite (lookup_ge_None_2 a), (lookup_ge_None_2 b) by lia. cbn.
    by rewrite Qcplus_0_l.
Qed.

Lemma shaped_add T N a b :
  shaped T N a → shaped T N b → shaped T N (zip_with (zip_with Qcplus) a b).
Proof.
  intros [Ha1 Ha2] [Hb1 Hb2]. split.
  - rewrite length_zip_with. lia.
  - apply Forall_lookup_2. intros i r. rewrite lookup_zip_with.
    destruct (a !! i) as [ra|] eqn:Ea; [|done].
    destruct (b !! i) as [rb|] eqn:Eb; [|done]. cbn. intros [= <-].
    rewrite length_zip_with.
    rewrite (Forall_lookup_1 _ _ _ _ Ha2 Ea), (Forall_lookup_1 _ _ _ _ Hb2 Eb). lia.
Qed.

Lemma foldl_Qcplus a l : foldl Qcplus a l = a + Qcsum l.
Proof.
  revert a. induction l as [|x l IH]; intros a; cbn.
  - by rewrite Qcplus_0_r.
  - rewrite IH. by rewrite Qcplus_assoc.
Qed.

Lemma Qcmax_cases x y : (xr.Qcmax x y = y ∧ x ≤ y) ∨ (xr.Qcmax x y = x ∧ y ≤ x).
Proof.
  unfold xr.Qcmax. destruct (decide (x ≤ y)); [by left|right].
  split; [done|]. apply Qclt_le_weak. by apply Qclt_nge.
Qed.

Lemma Qcmin_cases x y : (xr.Qcmin x y = x ∧ x ≤ y) ∨ (xr.Qcmin x y = y ∧ y ≤ x).
Proof.
  unfold xr.Qcmin. destruct (decide (x ≤ y)); [by left|right].
  split; [done|]. apply Qclt_le_weak. by apply Qclt_nge.
Qed.

Lemma foldl_Qcmax a l : is_maximum (foldl xr.Qcmax a l) (a :: l).
Proof.
  revert a. induction l as [|x l IH]; intros a; cbn.
  - split; [by left|]. intros y ->%list_elem_of_singleton. apply Qcle_refl.
  - destruct (IH (xr.Qcmax a x)) as [Hin Hub]. split.
    + apply elem_of_cons in Hin as [Hin|Hin]; [|by do 2 right].
      rewrite Hin. destruct (Qcmax_cases a x) as [[-> _]|[-> _]];
        [right; left|left].
    + intros y Hy.
      assert (a ≤ foldl xr.Qcmax (xr.Qcmax a x) l ∧ x ≤ foldl xr.Qcmax (xr.Qcmax a x) l) as [Ha Hx].
      { pose proof (Hub (xr.Qcmax a x) ltac:(left)) as Hm.
        set (M := foldl _ _ _) in *. clearbody M.
        destruct (Qcmax_cases a x) as [[E Hle]|[E Hle]]; rewrite E in Hm.
        - split; [by apply (Qcle_trans _ x)|done].
        - split; [done|by apply (Qcle_trans _ a)]. }
      apply elem_of_cons in Hy as [->|Hy]; [done|].
      apply elem_of_cons in Hy as [->|Hy]; [done|].
      apply Hub. by right.
Qed.

Lemma foldl_Qcmin a l : is_minimum (foldl xr.Qcmin a l) (a :: l).
Proof.
  revert a. induction l as [|x l IH]; intros a; cbn.
  - split; [by left|]. intros y ->%list_elem_of_singleton. apply Qcle_refl.
  - destruct (IH (xr.Qcmin a x)) as [Hin Hlb]. split.
    + apply elem_of_cons in Hin as [Hin|Hin]; [|by do 2 right].
      rewrite Hin. destruct (Qcmin_cases a x) as [[-> _]|[-> _]];
        [left|right; left].
    + intros y Hy.
      assert (foldl xr.Qcmin (xr.Qcmin a x) l ≤ a ∧ foldl xr.Qcmin (xr.Qcmin a x) l ≤ x) as [Ha Hx].
      { pose proof (Hlb (xr.Qcmin a x) ltac:(left)) as Hm.
        set (M := foldl _ _ _) in *. clearbody M.
        destruct (Qcmin_cases a x) as [[E Hle]|[E Hle]]; rewrite E in Hm.
        - split; [done|by apply (Qcle_trans _ a)].
        - split; [by apply (Qcle_trans _ x)|done]. }
      apply elem_of_cons in Hy as [->|Hy]; [done|].
      apply elem_of_cons in Hy as [->|Hy]; [done|].
      apply Hlb. by right.
Qed.

Lemma foldl_zip_with_length (f : Qc → Qc → Qc) N r rs :
  length r = N → Forall (λ r, length r = N) rs →
  length (foldl (zip_with f) r rs) = N.
Proof.
  intros Hr Hrs. revert r Hr. induction Hrs as [|r' rs Hr' Hrs IH]; intros r Hr.
  - done.
  - cbn. apply IH. rewrite length_zip_with. lia.
Qed.

(** Folding rows cell by cell folds each column. *)
Lemma foldl_zip_with_lookup (f : Qc → Qc → Qc) N r rs c :
  length r = N → Forall (λ r, length r = N) rs → (c < N)%nat →
  length (foldl (zip_with f) r rs) = N ∧
  foldl (zip_with f) r rs !! c
  = Some (foldl f (default 0 (r !! c)) ((λ row, default 0 (row !! c)) <$> rs)).
Proof.
  intros Hr Hrs Hc. revert r Hr. induction Hrs as [|r' rs Hr' Hrs IH]; intros r Hr.
  - cbn. split; [done|].
    destruct (lookup_lt_is_Some_2 r c) as [x ->]; [lia|]. done.
  - cbn [foldl fmap list_fmap].
    destruct (IH (zip_with f r r')) as [IH1 IH2].
    { rewrite length_zip_with. lia. }
    split; [done|]. rewrite IH2. do 2 f_equal.
    rewrite lookup_zip_with.
    destruct (lookup_lt_is_Some_2 r c) as [x ->]; [lia|].
    destruct (lookup_lt_is_Some_2 r' c) as [y ->]; [lia|]. done.
Qed.

Lemma column_cells rows c :
  (λ row, default 0 (row !! c)) <$> rows
  = (λ t, cell rows t c) <$> seq 0 (length rows).
Proof.
  induction rows as [|r rows IH] using rev_ind; [done|].
  rewrite fmap_app, length_app, Nat.add_1_r, seq_S, fmap_app. cbn. f_equal.
  - rewrite IH. apply list_fmap_ext. intros i t Ht.
    apply lookup_seq in Ht as [-> Ht]. unfold cell.
    by rewrite lookup_app_l by lia.
  - unfold cell. rewrite lookup_app_r by lia. by rewrite Nat.sub_diag.
Qed.
End Rows.

Section ReadNc.
Local Open Scope Qc_scope.

Lemma getitem_Some ds v rows :
  ds_vars ds !! v = Some rows →
  xr.getitem ds v = Return (mk_DataArray (ds_time ds) (ds_dims ds) (ds_lon ds)
                                         (ds_lat ds) rows).
Proof. unfold xr.getitem. by intros ->. Qed.

Lemma getitem_None ds v :
  ds_vars ds !! v = None → xr.getitem ds v = Raise (KeyError v).
Proof. unfold xr.getitem. by intros ->. Qed.

(** The loop fails at the first variable that the dataset lacks. *)
Lemma sum_loop_absent ds vs acc :
  (∃ v, v ∈ vs ∧ ds_vars ds !! v = None) →
  ∃ v, v ∈ vs ∧ ds_vars ds !! v = None ∧
    for_fold vs acc (λ arrs v,
      rbind (xr.getitem ds v) (λ dsv,
      match arrs with
      | None => Return (Some dsv)
      | Some arrs => Return (Some (xr.add arrs dsv))
      end)) = Raise (KeyError v).
Proof.
  revert acc. induction vs as [|u vs IH]; intros acc (v & Hv & Hnone).
  - by apply elem_of_nil in Hv.
  - cbn [for_fold]. destruct (ds_vars ds !! u) as [rows|] eqn:Eu.
    + rewrite (getitem_Some _ _ _ Eu). cbn [rbind].
      apply elem_of_cons in Hv as [->|Hv]; [congruence|].
      destruct acc as [acc|]; cbn [rbind];
        (edestruct IH as (v' & ? & ? & ->); [by eauto|]);
        exists v'; (split; [by right|done]).
    + rewrite (getitem_None _ _ Eu). cbn [rbind].
      exists u. split; [by left|done].
Qed.

Lemma sum_loop_present ds vs acc :
  wf_dataset ds →
  (∀ v, v ∈ vs → is_Some (ds_vars ds !! v)) →
  shaped (length (ds_time ds)) (ncells ds) (da_data acc) →
  ∃ arrs,
    for_fold vs (Some acc) (λ arrs v,
      rbind (xr.getitem ds v) (λ dsv,
      match arrs with
      | None => Return (Some dsv)
      | Some arrs => Return (Some (xr.add arrs dsv))
      end)) = Return (Some arrs) ∧
    da_time arrs = da_time acc ∧ da_dims arrs = da_dims acc ∧
    da_lon arrs = da_lon acc ∧ da_lat arrs = da_lat acc ∧
    shaped (length (ds_time ds)) (ncells ds) (da_data arrs) ∧
    ∀ t c, cell (da_data arrs) t c
           = cell (da_data acc) t c + Qcsum ((λ v, var_cell ds v t c) <$> vs).
Proof.
  intros Hwf. revert acc. induction vs as [|u vs IH]; intros acc Hall Hacc.
  - exists acc. cbn. repeat split; try done; try apply Hacc.
    intros. by rewrite Qcplus_0_r.
  - destruct (Hall u ltac:(left)) as [rows Hu].
    cbn [for_fold]. rewrite (getitem_Some _ _ _ Hu). cbn [rbind].
    pose proof (Hwf _ _ Hu) as Hrows.
    destruct (IH (xr.add acc (mk_DataArray (ds_time ds) (ds_dims ds)
                     (ds_lon ds) (ds_lat ds) rows)))
      as (arrs & -> & H1 & H2 & H3 & H4 & H5 & H6).
    { intros v Hv. apply Hall. by right. }
    { by apply shaped_add. }
    exists arrs. repeat split; try done; try apply H5.
    intros t c. rewrite H6. cbn [xr.add da_data fmap list_fmap Qcsum foldr].
    rewrite (cell_add _ _ _ _ _ _ Hacc Hrows).
    unfold var_cell at 2. rewrite Hu. cbn [default].
    by rewrite Qcplus_assoc.
Qed.

Lemma sum_variables_absent ds vs :
  (∃ v, v ∈ vs ∧ ds_vars ds !! v = None) →
  ∃ v, v ∈ vs ∧ ds_vars ds !! v = None ∧
       sum_variables ds vs = Raise (KeyError v).
Proof. apply sum_loop_absent. Qed.

Lemma sum_variables_present ds vs :
  wf_dataset ds → vs ≠ [] →
  (∀ v, v ∈ vs → is_Some (ds_vars ds !! v)) →
  ∃ arrs,
    sum_variables ds vs = Return (Some arrs) ∧
    da_time arrs = ds_time ds ∧ da_dims arrs = ds_dims ds ∧
    da_lon arrs = ds_lon ds ∧ da_lat arrs = ds_lat ds ∧
    shaped (length (ds_time ds)) (ncells ds) (da_data arrs) ∧
    ∀ t c, cell (da_data arrs) t c = spec_sum_vars ds vs t c.
Proof.
  intros Hwf Hne Hall. destruct vs as [|u vs]; [done|].
  destruct (Hall u ltac:(left)) as [rows Hu].
  unfold sum_variables. cbn [for_fold]. rewrite (getitem_Some _ _ _ Hu). cbn [rbind].
  destruct (sum_loop_present ds vs (mk_DataArray (ds_time ds) (ds_dims ds)
                                      (ds_lon ds) (ds_lat ds) rows) Hwf)
    as (arrs & -> & H1 & H2 & H3 & H4 & H5 & H6).
  { intros v Hv. apply Hall. by right. }
  { by apply Hwf in Hu. }
  exists arrs. repeat split; try done; try apply H5.
  intros t c. rewrite H6. unfold spec_sum_vars. cbn.
  unfold var_cell at 2. by rewrite Hu.
Qed.

(** The time axis of the sum, whatever the shape of the data. *)
Lemma sum_loop_time ds vs acc arrs :
  for_fold vs (Some acc) (λ arrs v,
      rbind (xr.getitem ds v) (λ dsv,
      match arrs with
      | None => Return (Some dsv)
      | Some arrs => Return (Some (xr.add arrs dsv))
      end)) = Return arrs →
  ∃ a, arrs = Some a ∧ da_time a = da_time acc.
Proof.
  revert acc. induction vs as [|u vs IH]; intros acc; cbn [for_fold].
  - intros [= <-]. eauto.
  - unfold xr.getitem. destruct (ds_vars ds !! u); [|done]. cbn [rbind].
    intros H. apply IH in H as (a & -> & Ha). eauto.
Qed.

Lemma sum_variables_time ds vs arrs :
  sum_variables ds vs = Return (Some arrs) → da_time arrs = ds_time ds.
Proof.
  unfold sum_variables. destruct vs as [|u vs]; [done|]. cbn [for_fold].
  unfold xr.getitem. destruct (ds_vars ds !! u); [|done]. cbn [rbind].
  intros H. apply sum_loop_time in H as (a & [= <-] & Ha). done.
Qed.

Lemma sel_rows_length {A B} s e times (rows : list A) (rows' : list B) :
  length rows = length times → length rows' = length times →
  length (xr.sel_rows s e times rows) = length (xr.sel_rows s e times rows').
Proof.
  revert rows rows'. induction times as [|t times IH]; intros [|r rows] [|r' rows'];
    cbn; try done. intros [=] [=]. destruct (xr.in_window s e t); cbn; auto.
Qed.

Lemma sel_rows_Forall {A} (P : A → Prop) s e times (rows : list A) :
  Forall P rows → Forall P (xr.sel_rows s e times rows).
Proof.
  intros H. revert times. induction H as [|r rows Hr H IH]; intros [|t times]; cbn;
    try done. destruct (xr.in_window s e t); [constructor|]; auto.
Qed.

(** The selection keeps the samples whose time lies in the window. *)
Lemma sel_rows_filter {A} s e times (rows : list A) :
  xr.sel_rows s e times rows
  = (filter (λ tr, xr.in_window s e tr.1 = true) (zip times rows)).*2.
Proof.
  revert rows. induction times as [|t times IH]; intros [|r rows]; try done.
  cbn [xr.sel_rows zip zip_with]. rewrite filter_cons. cbn [fst].
  destruct (xr.in_window s e t) eqn:E.
  - rewrite decide_True by done. cbn. by rewrite IH.
  - rewrite decide_False by done. by rewrite IH.
Qed.

Lemma sel_rows_none {A} s e times (rows : list A) :
  Forall (λ t, xr.in_window s e t = false) times →
  xr.sel_rows s e times rows = [].
Proof.
  intros H. revert rows. induction H as [|t times Ht H IH]; intros [|r rows]; cbn;
    try done. by rewrite Ht.
Qed.

Lemma select_window_vars ds s e v :
  ds_vars (select_window ds s e) !! v = None ↔ ds_vars ds !! v = None.
Proof.
  unfold select_window. destruct (decide _); [|done]. cbn.
  rewrite lookup_fmap. by destruct (ds_vars ds !! v).
Qed.

Lemma select_window_dims ds s e :
  ds_dims (select_window ds s e) = ds_dims ds.
Proof. unfold select_window. by destruct (decide _). Qed.

Lemma select_window_wf ds s e : wf_dataset ds → wf_dataset (select_window ds s e).
Proof.
  intros Hwf. unfold select_window. destruct (decide _); [|done].
  intros v rows. cbn. rewrite lookup_fmap.
  destruct (ds_vars ds !! v) as [rows0|] eqn:E; [|done]. cbn. intros [= <-].
  destruct (Hwf _ _ E) as [H1 H2]. split.
  - by apply sel_rows_length.
  - by apply sel_rows_Forall.
Qed.

Lemma Qc_of_Z_1 : Qc_of_Z 1 = 1.
Proof. by apply Qc_is_canon. Qed.

Lemma reduce_by_spec func arrs T N :
  shaped (S T) N (da_data arrs) →
  func = "mean" ∨ func = "max" ∨ func = "min" →
  ∃ arr,
    reduce_by func arrs = Return (Some arr) ∧
    f_dims arr = da_dims arrs ∧ f_lon arr = da_lon arrs ∧
    f_lat arr = da_lat arrs ∧ length (f_data arr) = N ∧
    ∀ c, (c < N)%nat →
      let column := (λ t, cell (da_data arrs) t c) <$> seq 0 (S T) in
      ∃ x, f_data arr !! c = Some x ∧
        (func = "mean" → x = spec_mean column) ∧
        (func = "max" → is_maximum x column) ∧
        (func = "min" → is_minimum x column) ∧
        (T = 0%nat → x = cell (da_data arrs) 0 c).
Proof.
  intros [HT HN] Hfunc.
  destruct (da_data arrs) as [|r rs] eqn:Edata; [done|].
  apply Forall_cons in HN as [Hr Hrs]. injection HT as HT.
  assert (Hcol : ∀ c, (λ t, cell (r :: rs) t c) <$> seq 0 (S T)
                      = default 0 (r !! c) :: ((λ row, default 0 (row !! c)) <$> rs)).
  { intros c. rewrite <- HT. change (S (length rs)) with (length (r :: rs)).
    by rewrite <- column_cells. }
  assert (Hsingle : ∀ c, T = 0%nat → ∀ f : Qc → Qc → Qc,
            foldl f (default 0 (r !! c)) ((λ row, default 0 (row !! c)) <$> rs)
            = cell (r :: rs) 0 c).
  { intros c -> f. destruct rs; [|done]. done. }
  unfold reduce_by. cbv zeta.
  destruct Hfunc as [->|[->| ->]];
    repeat (rewrite decide_True by done || rewrite decide_False by done);
    unfold xr.mean, xr.max, xr.min, xr.reduce_time, rmap; rewrite Edata;
    cbn [rbind]; eexists; (split; [reflexivity|]); cbn [xr.reduced f_dims f_lon f_lat f_data];
    (split; [done|]); (split; [done|]); (split; [done|]).
  - split.
    { rewrite length_map. by apply foldl_zip_with_length. }
    intros c Hc. cbv zeta.
    destruct (foldl_zip_with_lookup Qcplus N r rs c Hr Hrs Hc) as [_ Hx].
    eexists. split; [by rewrite list_lookup_fmap, Hx|].
    rewrite Hcol. split; [|split; [done|split; [done|]]].
    + intros _. unfold spec_mean. cbn [length]. rewrite length_fmap.
      rewrite foldl_Qcplus. done.
    + intros HT0. rewrite (Hsingle c HT0). subst T. destruct rs; [|done].
      cbn [length]. change (Z.of_nat 1) with 1%Z. rewrite Qc_of_Z_1. unfold Qcdiv.
      replace (/ 1)%Qc with 1%Qc by by apply Qc_is_canon. by rewrite Qcmult_1_r.
  - split; [by apply foldl_zip_with_length|].
    intros c Hc. cbv zeta.
    destruct (foldl_zip_with_lookup xr.Qcmax N r rs c Hr Hrs Hc) as [_ Hx].
    eexists. split; [exact Hx|].
    rewrite Hcol. split; [done|split; [|split; [done|]]].
    + intros _. apply foldl_Qcmax.
    + intros HT0. by rewrite (Hsingle c HT0).
  - split; [by apply foldl_zip_with_length|].
    intros c Hc. cbv zeta.
    destruct (foldl_zip_with_lookup xr.Qcmin N r rs c Hr Hrs Hc) as [_ Hx].
    eexists. split; [exact Hx|].
    rewrite Hcol. split; [done|split; [done|split]].
    + intros _. apply foldl_Qcmin.
    + intros HT0. by rewrite (Hsingle c HT0).
Qed.


Lemma squeeze_lev arr :
  lev_ok (f_dims arr) →
  ∃ arr',
    (if xr.has_dim "lev" (f_dims arr) then xr.squeeze arr "lev" else Return arr)
    = Return arr' ∧ f_data arr' = f_data arr.
Proof.
  intros Hlev. destruct (xr.has_dim _ _) eqn:Eh; [|eauto].
  unfold xr.squeeze.
  destruct (list_find _ _) as [[i [n size]]|] eqn:Ef.
  - apply Hlev in Ef. cbn in Ef. subst size. rewrite decide_True by done. eauto.
  - apply list_find_None in Ef. unfold xr.has_dim in Eh.
    apply bool_decide_eq_true_1 in Eh.
    apply list_elem_of_fmap in Eh as ([n sz] & Hn & Hin).
    exfalso. rewrite Forall_forall in Ef. by apply (Ef _ Hin).
Qed.

Lemma np_min_nonempty times :
  times ≠ [] → ∃ m, np_min times = Return m.
Proof. destruct times; [done|]. cbn. eauto. Qed.

Lemma spec_samples_cells ds vs arrs c :
  da_time arrs = ds_time ds →
  (∀ t c, cell (da_data arrs) t c = spec_sum_vars ds vs t c) →
  (λ t, cell (da_data arrs) t c) <$> seq 0 (length (ds_time ds))
  = spec_samples ds vs c.
Proof.
  intros _ H. unfold spec_samples. apply list_fmap_ext. intros; apply H.
Qed.

(** C2.  For a well-formed source on an ascending time axis, whose
    requested variables exist and whose selected time axis is not empty,
    [read_nc] under "mean", "max" or "min" returns a field that holds, in
    every cell, the reducer applied over time to the element-wise sum of the
    variables, times the scale factor: the arithmetic mean, the maximum or
    the minimum of the summed samples.  With a single time sample each of
    the three returns the summed sample itself. *)
Theorem read_nc_aggregation ext ifile start end_ vars scal func w ds0 :
  open_source ext ifile (strftime ext start ifile) = Return ds0 →
  ascending (ds_time ds0) = true →
  wf_dataset ds0 →
  let ds := select_window ds0 start end_ in
  let vs := var_list vars in
  vs ≠ [] →
  (∀ v, v ∈ vs → is_Some (ds_vars ds0 !! v)) →
  ds_time ds ≠ [] →
  lev_ok (ds_dims ds0) →
  func = "mean" ∨ func = "max" ∨ func = "min" →
  ∃ arr meantime,
    (read_nc ext ifile start end_ vars scal func w).1 = Return (arr, meantime) ∧
    length (f_data arr) = ncells ds ∧
    ∀ c, (c < ncells ds)%nat →
      ∃ x, f_data arr !! c = Some (x * scal) ∧
        (func = "mean" → x = spec_mean (spec_samples ds vs c)) ∧
        (func = "max" → is_maximum x (spec_samples ds vs c)) ∧
        (func = "min" → is_minimum x (spec_samples ds vs c)) ∧
        (length (ds_time ds) = 1%nat → x = spec_sum_vars ds vs 0 c).
Proof.
  intros Hopen _ Hwf ds vs Hne Hall Htime Hlev Hfunc.
  rewrite read_nc_run. cbn [fst]. unfold read_nc_result. rewrite Hopen. cbn [rbind].
  fold ds vs. cbv zeta.
  destruct (sum_variables_present ds vs) as (arrs & -> & Ht & Hd & _ & _ & Hsh & Hcell).
  { by apply select_window_wf. }
  { done. }
  { intros v Hv. apply not_eq_None_Some. unfold ds. rewrite select_window_vars.
    apply not_eq_None_Some. auto. }
  cbn [rbind bound].
  destruct (np_min_nonempty (da_time arrs)) as [m ->]; [by rewrite Ht|]. cbn [rbind].
  destruct (length (ds_time ds)) as [|T] eqn:ET.
  { by destruct (ds_time ds). }
  destruct (reduce_by_spec func arrs T (ncells ds) Hsh Hfunc)
    as (arr & -> & Hdims & _ & _ & Hlen & Hcols).
  cbn [rbind bound].
  destruct (squeeze_lev arr) as (arr' & -> & Hdata).
  { rewrite Hdims, Hd. unfold ds. by rewrite select_window_dims. }
  cbn [rbind]. eexists _, _. split; [reflexivity|].
  assert (Hscaled : ∀ c x, f_data arr !! c = Some x →
            f_data (if decide (scal ≠ 1) then xr.scale arr' scal else arr') !! c
            = Some (x * scal)).
  { intros c x Hx. destruct (decide (scal ≠ 1)) as [|Hs].
    - cbn. by rewrite list_lookup_fmap, Hdata, Hx.
    - apply dec_stable in Hs. subst scal. by rewrite Hdata, Hx, Qcmult_1_r. }
  split.
  { destruct (decide (scal ≠ 1)); cbn; rewrite ?length_map, Hdata; done. }
  intros c Hc. destruct (Hcols c Hc) as (x & Hx & Hmean & Hmax & Hmin & Hone).
  exists x. split; [by apply Hscaled|].
  rewrite <- ET in Hmean, Hmax, Hmin.
  rewrite (spec_samples_cells ds vs arrs c Ht Hcell) in Hmean, Hmax, Hmin.
  split; [done|]. split; [done|]. split; [done|].
  intros [= ->]. rewrite <- Hcell. by apply Hone.
Qed.

(** A source with a single sample is read whole, whatever the window: the
    field is the sum of the variables at that sample, times the scale
    factor, and the mean time is the time of the sample. *)
Lemma read_nc_single_sample ext ifile start end_ vars scal func w ds t :
  open_source ext ifile (strftime ext start ifile) = Return ds →
  ds_time ds = [t] →
  wf_dataset ds →
  var_list vars ≠ [] →
  (∀ v, v ∈ var_list vars → is_Some (ds_vars ds !! v)) →
  lev_ok (ds_dims ds) →
  func = "mean" ∨ func = "max" ∨ func = "min" →
  ∃ arr,
    (read_nc ext ifile start end_ vars scal func w).1 = Return (arr, t) ∧
    length (f_data arr) = ncells ds ∧
    ∀ c, (c < ncells ds)%nat →
      f_data arr !! c = Some (spec_sum_vars ds (var_list vars) 0 c * scal).
Proof.
  intros Hopen Htime Hwf Hne Hall Hlev Hfunc.
  rewrite read_nc_run. cbn [fst]. unfold read_nc_result. rewrite Hopen. cbn [rbind].
  assert (select_window ds start end_ = ds) as ->.
  { unfold select_window. rewrite Htime. by rewrite decide_False by (cbn; lia). }
  destruct (sum_variables_present ds (var_list vars) Hwf Hne Hall)
    as (arrs & -> & Ht & Hd & _ & _ & Hsh & Hcell).
  cbn [rbind bound]. rewrite Ht, Htime in *. cbn [np_min foldl rbind length] in *.
  destruct (reduce_by_spec func arrs 0 (ncells ds) Hsh Hfunc)
    as (arr & -> & Hdims & _ & _ & Hlen & Hcols).
  cbn [rbind bound].
  destruct (squeeze_lev arr) as (arr' & -> & Hdata).
  { by rewrite Hdims, Hd. }
  cbn [rbind].
  assert (mean_time t [t] = t) as ->.
  { unfold mean_time. cbn. rewrite Z.sub_diag, Z.add_0_r. cbn. lia. }
  eexists. split; [reflexivity|]. split.
  { destruct (decide (scal ≠ 1)); cbn; rewrite ?length_map, Hdata; done. }
  intros c Hc. destruct (Hcols c Hc) as (x & Hx & _ & _ & _ & Hone).
  rewrite <- Hcell, <- (Hone eq_refl).
  destruct (decide (scal ≠ 1)) as [|Hs].
  - cbn. by rewrite list_lookup_fmap, Hdata, Hx.
  - apply dec_stable in Hs. subst scal. by rewrite Hdata, Hx, Qcmult_1_r.
Qed.

(** C5, as the code has it, for a source on an ascending time axis.  When a
    requested variable is missing from the opened source, [read_nc] raises
    [KeyError] for a missing variable, whatever the window.  When all
    requested variables exist and the source has more than one time sample,
    none of them within [[start, end_]], [read_nc] raises the [ValueError]
    of the minimum of an empty time axis.  A source with a single time
    sample is not cut to the window: with the variables present, [read_nc]
    under "mean", "max" or "min" returns its sample, that is the sum of the
    variables times the scale factor, at the time of the sample, whatever
    the window. *)
Theorem read_nc_error_classes ext ifile start end_ vars scal func w ds :
  open_source ext ifile (strftime ext start ifile) = Return ds →
  ascending (ds_time ds) = true →
  ((∃ v, v ∈ var_list vars ∧ ds_vars ds !! v = None) →
   ∃ v, v ∈ var_list vars ∧ ds_vars ds !! v = None ∧
        (read_nc ext ifile start end_ vars scal func w).1 = Raise (KeyError v)) ∧
  (var_list vars ≠ [] →
   (∀ v, v ∈ var_list vars → is_Some (ds_vars ds !! v)) →
   (1 < length (ds_time ds))%nat →
   (∀ t, t ∈ ds_time ds →
         ¬ (datetime_to_ns start ≤ t ≤ datetime_to_ns end_)%Z) →
   (read_nc ext ifile start end_ vars scal func w).1
   = Raise (ValueError
       "zero-size array to reduction operation minimum which has no identity")) ∧
  (∀ t, ds_time ds = [t] →
     wf_dataset ds →
     var_list vars ≠ [] →
     (∀ v, v ∈ var_list vars → is_Some (ds_vars ds !! v)) →
     lev_ok (ds_dims ds) →
     func = "mean" ∨ func = "max" ∨ func = "min" →
     ∃ arr,
       (read_nc ext ifile start end_ vars scal func w).1 = Return (arr, t) ∧
       length (f_data arr) = ncells ds ∧
       ∀ c, (c < ncells ds)%nat →
         f_data arr !! c = Some (spec_sum_vars ds (var_list vars) 0 c * scal)).
Proof.
  intros Hopen _.
  split; [|split; [|by intros t; apply read_nc_single_sample]];
    rewrite read_nc_run; cbn [fst]; unfold read_nc_result;
    rewrite Hopen; cbn [rbind].
  - intros (v & Hv & Hnone).
    destruct (sum_variables_absent (select_window ds start end_) (var_list vars))
      as (v' & Hv' & Hnone' & ->).
    { exists v. by rewrite select_window_vars. }
    exists v'. by rewrite select_window_vars in Hnone'.
  - intros Hne Hall Hlen Hout.
    destruct (sum_variables _ _) as [e|[arrs|]] eqn:Es.
    + exfalso.
      destruct (var_list vars) as [|u vs] eqn:Ev; [done|].
      assert (∀ vs acc, (∀ v, v ∈ vs → is_Some (ds_vars ds !! v)) →
                is_Return (for_fold vs acc (λ arrs v,
                  rbind (xr.getitem (select_window ds start end_) v) (λ dsv,
                  match arrs with
                  | None => Return (Some dsv)
                  | Some arrs => Return (Some (xr.add arrs dsv))
                  end)))) as Hret.
      { clear. induction vs as [|x vs IH]; intros acc Hall; [by eexists|].
        cbn [for_fold]. unfold xr.getitem.
        destruct (ds_vars (select_window ds start end_) !! x) eqn:Ex.
        - cbn [rbind]. destruct acc; apply IH; intros; apply Hall; by right.
        - apply select_window_vars in Ex. destruct (Hall x ltac:(left)). congruence. }
      destruct (Hret (u :: vs) None Hall) as [a Ha]. unfold sum_variables in Es.
      congruence.
    + cbn [rbind bound]. apply sum_variables_time in Es. rewrite Es.
      unfold select_window. rewrite decide_True by done. cbn [xr.sel ds_time].
      rewrite sel_rows_none; [done|].
      apply Forall_forall. intros t Ht. specialize (Hout t Ht).
      unfold xr.in_window. apply andb_false_iff.
      destruct (Z.leb_spec (datetime_to_ns start) t); [|by left].
      destruct (Z.leb_spec t (datetime_to_ns end_)); [|by right]. lia.
    + exfalso. unfold sum_variables in Es.
      destruct (var_list vars) as [|u vs]; [done|]. cbn [for_fold] in Es.
      unfold xr.getitem in Es. destruct (ds_vars _ !! u); [|done]. cbn [rbind] in Es.
      apply sum_loop_time in Es as (a & [=] & _).
Qed.
End ReadNc.

(** ** [write_shapefile] *)

Section Writer.
Variable ext : Externals.

Lemma dict_zip_snoc cols lvls c z :
  length cols = length lvls →
  dict_zip (cols ++ [c]) (lvls ++ [z]) = <[col_id c := z]> (dict_zip cols lvls).
Proof.
  intros Hlen. unfold dict_zip. rewrite zip_with_app by done. cbn.
  by rewrite foldl_app.
Qed.

Lemma dict_zip_lookup cols lvls i c z :
  length cols = length lvls →
  NoDup (col_id <$> cols) →
  cols !! i = Some c → lvls !! i = Some z →
  dict_zip cols lvls !! col_id c = Some z.
Proof.
  revert lvls i. induction cols as [|c' cols IH] using rev_ind; intros lvls i Hlen Hnd Hc Hz.
  - done.
  - destruct lvls as [|z' lvls _] using rev_ind.
    { rewrite length_app in Hlen. cbn in Hlen. lia. }
    rewrite !length_app in Hlen. cbn in Hlen.
    rewrite dict_zip_snoc by lia.
    rewrite fmap_app in Hnd. apply NoDup_app in Hnd as (Hnd1 & Hnd2 & _).
    destruct (decide (i = length cols)) as [->|Hi].
    + rewrite list_lookup_middle in Hc by done.
      rewrite list_lookup_middle in Hz by lia. simplify_eq.
      apply lookup_insert_eq.
    + assert (i < length cols)%nat.
      { apply lookup_lt_Some in Hc. rewrite length_app in Hc. cbn in Hc. lia. }
      rewrite lookup_app_l in Hc by done. rewrite lookup_app_l in Hz by lia.
      rewrite lookup_insert_ne.
      * eapply IH; eauto. lia.
      * intros Heq. apply (Hnd2 (col_id c)).
        -- apply list_elem_of_fmap. exists c. split; [done|].
           by eapply list_elem_of_lookup_2.
        -- cbn. rewrite <- Heq. left.
Qed.

Lemma vertices_columns (v : list coord) :
  (λ i, (i.1, i.2)) <$> zip (v.*1) (v.*2) = v.
Proof.
  rewrite zip_fst_snd. rewrite <- (list_fmap_id v) at 2.
  apply list_fmap_ext. by intros ? [].
Qed.

Lemma path_body_eq propname z polylist path :
  path_body ext propname z polylist path
  = if shapely_accepts ext (vertices path)
    then Return (polylist ++ [entry_of propname (vertices path, z)])
    else Raise (ValueError "A LinearRing must have at least 3 coordinate tuples").
Proof.
  unfold path_body, geometry_Polygon. cbv zeta. rewrite vertices_columns.
  by destruct (shapely_accepts _ _).
Qed.

Lemma paths_loop propname z paths acc :
  for_fold paths acc (path_body ext propname z)
  = if bool_decide (Forall (accepted ext) paths)
    then Return (acc ++ ((λ p, entry_of propname (vertices p, z)) <$> paths))
    else Raise (ValueError "A LinearRing must have at least 3 coordinate tuples").
Proof.
  revert acc. induction paths as [|p paths IH]; intros acc.
  - cbn. by rewrite app_nil_r.
  - cbn [for_fold]. rewrite path_body_eq.
    destruct (shapely_accepts ext (vertices p)) eqn:Ep; cbn [rbind].
    + rewrite IH. destruct (bool_decide_reflect (Forall (accepted ext) paths)) as [H|H].
      * rewrite bool_decide_eq_true_2 by (by constructor).
        by rewrite <- app_assoc.
      * rewrite bool_decide_eq_false_2; [done|].
        intros H'. apply Forall_cons in H' as [_ H']. done.
    + rewrite bool_decide_eq_false_2; [done|].
      intros H'. apply Forall_cons in H' as [H' _]. unfold accepted in H'. congruence.
Qed.

Lemma collections_loop propname (d : gmap nat Qc) cols lvls acc :
  length cols = length lvls →
  (∀ i c z, cols !! i = Some c → lvls !! i = Some z → d !! col_id c = Some z) →
  for_fold cols acc (λ polylist col,
    rbind (dict_getitem d col) (λ z,
    for_fold (get_paths col) polylist (path_body ext propname z)))
  = if bool_decide (Forall (accepted ext) (cols ≫= get_paths))
    then Return (acc ++ (entry_of propname <$>
                   ('(col, z) ← zip cols lvls;
                    (λ p, (vertices p, z)) <$> get_paths col)))
    else Raise (ValueError "A LinearRing must have at least 3 coordinate tuples").
Proof.
  revert lvls acc. induction cols as [|c cols IH]; intros [|z lvls] acc Hlen Hd;
    try done.
  - cbn. by rewrite app_nil_r.
  - cbn [for_fold]. unfold dict_getitem at 1.
    rewrite (Hd 0%nat c z) by done. cbn [rbind]. rewrite paths_loop.
    cbn [zip zip_with]. rewrite !bind_cons.
    destruct (bool_decide_reflect (Forall (accepted ext) (get_paths c))) as [H|H];
      cbn [rbind].
    + rewrite (IH lvls).
      2:{ by injection Hlen. }
      2:{ intros i c' z' ??. by apply (Hd (S i)). }
      destruct (bool_decide_reflect (Forall (accepted ext) (cols ≫= get_paths))) as [H'|H'].
      * rewrite bool_decide_eq_true_2 by (by apply Forall_app).
        rewrite <- app_assoc. do 2 f_equal. rewrite fmap_app. f_equal.
        rewrite <- list_fmap_compose. done.
      * rewrite bool_decide_eq_false_2; [done|]. by intros [_ ?]%Forall_app.
    + rewrite bool_decide_eq_false_2; [done|]. by intros [? _]%Forall_app.
Qed.

Lemma build_polylist_eq cs propname :
  well_formed cs →
  build_polylist ext cs propname
  = if bool_decide (Forall (accepted ext) (all_paths cs))
    then Return (entry_of propname <$> rings_with_levels cs)
    else Raise (ValueError "A LinearRing must have at least 3 coordinate tuples").
Proof.
  intros [Hlen Hnd]. unfold build_polylist. cbv zeta.
  apply (collections_loop propname _ _ _ [] Hlen).
  intros i c z Hc Hz. by eapply dict_zip_lookup.
Qed.

Lemma write_loop p schema feats :
  Forall (λ r, fiona.conforms schema r = true) feats →
  ∀ w rs,
    w_shp w !! p = Some (mk_ShpFile schema rs false) →
    let k := taken (w_quota w) (length feats) in
    ∃ w',
      for_each feats (fiona.write p) w
      = (if decide (k = length feats) then Return tt
         else Raise (OSError "write failed"), w') ∧
      w_shp w' = <[p := mk_ShpFile schema (rs ++ take k feats) false]> (w_shp w) ∧
      w_log w' = w_log w ∧ w_figs w' = w_figs w ∧
      w_unwritable w' = w_unwritable w ∧ w_today w' = w_today w.
Proof.
  induction 1 as [|r feats Hr Hfeats IH]; intros w rs Hfile; cbv zeta.
  - exists w. cbn [for_each length]. unfold ret.
    assert (taken (w_quota w) 0 = 0%nat) as -> by (unfold taken; destruct (w_quota w); lia).
    rewrite decide_True by done. split; [done|].
    rewrite take_0, app_nil_r, insert_id by done. done.
  - cbn [for_each]. unfold bind, fiona.write at 1. rewrite Hfile.
    cbn [shp_closed shp_schema shp_records]. rewrite Hr. cbn [negb].
    destruct (w_quota w) as [[|q]|] eqn:Eq.
    + exists w. cbn [taken]. rewrite Nat.min_0_l, decide_False by (cbn; lia).
      split; [done|]. rewrite take_0, app_nil_r, insert_id by done. done.
    + set (w1 := set_shp p _ _).
      destruct (IH w1 (rs ++ [r])) as (w' & Hrun & Hshp & Hlog & Hfigs & Hunw & Htoday).
      { unfold w1, set_shp. cbn. apply lookup_insert_eq. }
      exists w'. rewrite Hrun. change (w_quota w1) with (Some q) in *.
      change (w_shp w1) with (<[p := mk_ShpFile schema (rs ++ [r]) false]> (w_shp w)) in Hshp.
      cbn [taken length] in *. split.
      { destruct (decide (q `min` length feats = length feats)%nat) as [E|E].
        - rewrite decide_True by lia. done.
        - rewrite decide_False by lia. done. }
      rewrite Hshp, insert_insert_eq, <- Nat.succ_min_distr, firstn_cons, <- app_assoc.
      done.
    + set (w1 := set_shp p _ _).
      destruct (IH w1 (rs ++ [r])) as (w' & Hrun & Hshp & Hlog & Hfigs & Hunw & Htoday).
      { unfold w1, set_shp. cbn. apply lookup_insert_eq. }
      exists w'. rewrite Hrun. change (w_quota w1) with (@None nat) in *.
      change (w_shp w1) with (<[p := mk_ShpFile schema (rs ++ [r]) false]> (w_shp w)) in Hshp.
      cbn [taken length] in *. split.
      { rewrite !decide_True by done. done. }
      rewrite Hshp, insert_insert_eq, firstn_cons, <- app_assoc. done.
Qed.

Lemma feature_of_conforms propname rz :
  fiona.conforms (declared_schema propname) (feature_of propname rz) = true.
Proof.
  unfold fiona.conforms, declared_schema, feature_of. cbn.
  by rewrite !bool_decide_eq_true_2.
Qed.

Lemma write_shapefile_rejected cs propname shapefile w :
  well_formed cs → ¬ Forall (accepted ext) (all_paths cs) →
  write_shapefile ext cs propname shapefile w
  = (Raise (ValueError "A LinearRing must have at least 3 coordinate tuples"), w).
Proof.
  intros Hwf Hrej. unfold write_shapefile, bind, lift.
  rewrite build_polylist_eq by done. by rewrite bool_decide_eq_false_2.
Qed.

Lemma write_shapefile_run cs propname path w :
  well_formed cs → Forall (accepted ext) (all_paths cs) →
  path ∉ w_unwritable w →
  let feats := feature_of propname <$> rings_with_levels cs in
  let k := taken (w_quota w) (length feats) in
  ∃ w',
    write_shapefile ext cs propname (Some path) w
    = (if decide (k = length feats) then Return tt
       else Raise (OSError "write failed"), w') ∧
    w_shp w' = <[path := mk_ShpFile (declared_schema propname) (take k feats) true]>
                 (w_shp w) ∧
    w_figs w' = w_figs w ∧ w_unwritable w' = w_unwritable w ∧
    w_today w' = w_today w.
Proof.
  intros Hwf Hacc Hpath feats k. unfold write_shapefile, bind, lift at 1.
  rewrite build_polylist_eq by done. rewrite bool_decide_eq_true_2 by done.
  unfold fiona.collection. rewrite decide_False by done.
  set (w1 := set_shp path _ w).
  assert (Hfeats : (λ p, mk_Feature (props p) (shapely.mapping (poly p)))
                     <$> (entry_of propname <$> rings_with_levels cs) = feats).
  { unfold feats. rewrite <- list_fmap_compose. done. }
  unfold finally.
  assert (Hloop : ∀ (l : list PolyEntry) (f : PolyEntry → Feature) p w,
            for_each l (λ x, fiona.write p (f x)) w
            = for_each (f <$> l) (fiona.write p) w).
  { clear. induction l as [|x l IH]; intros f p w; [done|].
    cbn [for_each fmap list_fmap]. unfold bind.
    destruct (fiona.write p (f x) w) as [[e|[]] w']; [done|]. apply IH. }
  rewrite Hloop, Hfeats.
  destruct (write_loop path (declared_schema propname) feats) with (w := w1) (rs := @nil Feature)
    as (w2 & -> & Hshp & Hlog & Hfigs & Hunw & Htoday).
  { apply Forall_fmap, Forall_true. intros rz. apply feature_of_conforms. }
  { unfold w1, set_shp. cbn. apply lookup_insert_eq. }
  change (w_quota w1) with (w_quota w) in *. fold k in Hshp |- *.
  change (w_shp w1) with (<[path := mk_ShpFile (declared_schema propname) [] false]> (w_shp w)) in Hshp.
  rewrite insert_insert_eq in Hshp. cbn [app] in Hshp.
  unfold fiona.close. rewrite Hshp, lookup_insert_eq.
  cbn [shp_schema shp_records].
  destruct (decide (k = length feats)).
  - eexists. split; [reflexivity|]. cbn. rewrite Hshp, insert_insert_eq. done.
  - eexists. split; [reflexivity|]. cbn. rewrite Hshp, insert_insert_eq. done.
Qed.

Lemma taken_all w n : device_takes w n → taken (w_quota w) n = n.
Proof. unfold device_takes, taken. destruct (w_quota w); lia. Qed.

Lemma rings_with_levels_vertices cs :
  length (collections cs) = length (levels cs) →
  (rings_with_levels cs).*1 = vertices <$> all_paths cs.
Proof.
  unfold rings_with_levels, all_paths.
  generalize (collections cs) (levels cs). clear.
  induction l as [|c cols IH]; intros [|z lvls] Hlen; try done.
  cbn [zip zip_with]. rewrite !bind_cons, !fmap_app. f_equal.
  - rewrite <- list_fmap_compose. done.
  - apply IH. by injection Hlen.
Qed.

Lemma rings_with_levels_level cs rz :
  rz ∈ rings_with_levels cs → rz.2 ∈ levels cs.
Proof.
  unfold rings_with_levels. intros ([c z] & Hrz & Hcz)%list_elem_of_bind.
  apply list_elem_of_fmap in Hrz as (p & -> & _). cbn.
  apply list_elem_of_lookup in Hcz as [i Hi].
  apply lookup_zip_with_Some in Hi as (c' & z' & [= <- <-] & _ & Hz).
  by eapply list_elem_of_lookup_2.
Qed.

Lemma features_at_rings propname L cs f :
  shp_records f = feature_of propname <$> rings_with_levels cs →
  length (features_at propname L f) = length (rings_at L cs).
Proof.
  unfold features_at, rings_at. intros ->.
  induction (rings_with_levels cs) as [|rz l IH]; [done|].
  rewrite fmap_cons, !filter_cons. cbn [feature_of properties].
  destruct (decide (rz.2 = L)) as [E|E].
  - rewrite decide_True by (by rewrite E). cbn. by rewrite IH.
  - rewrite decide_False by (intros [=]; done). done.
Qed.

Lemma write_shapefile_unwritable cs propname path w :
  path ∈ w_unwritable w →
  is_Raise (write_shapefile ext cs propname (Some path) w).1 ∧
  (write_shapefile ext cs propname (Some path) w).2 = w.
Proof.
  intros Hp. unfold write_shapefile, bind, lift.
  destruct (build_polylist ext cs propname) as [e|pl]; cbn [fst snd].
  { split; [by eexists|done]. }
  unfold fiona.collection. rewrite decide_True by done. split; [by eexists|done].
Qed.

Lemma write_shapefile_Return_inv cs propname path w :
  well_formed cs →
  (write_shapefile ext cs propname (Some path) w).1 = Return tt →
  Forall (accepted ext) (all_paths cs) ∧ (path ∉ w_unwritable w) ∧
  device_takes w (length (rings_with_levels cs)) ∧
  w_shp (write_shapefile ext cs propname (Some path) w).2
  = <[path := mk_ShpFile (declared_schema propname)
                (feature_of propname <$> rings_with_levels cs) true]> (w_shp w).
Proof.
  intros Hwf Hret.
  destruct (decide (Forall (accepted ext) (all_paths cs))) as [Hacc|Hrej].
  2:{ rewrite write_shapefile_rejected in Hret by done. done. }
  destruct (decide (path ∈ w_unwritable w)) as [Hp|Hp].
  { destruct (write_shapefile_unwritable cs propname path w Hp) as [[e He] _].
    congruence. }
  destruct (write_shapefile_run cs propname path w Hwf Hacc Hp)
    as (w' & Hrun & Hshp & _).
  rewrite Hrun in Hret |- *. cbn [fst snd] in *.
  rewrite length_fmap in Hret, Hshp.
  destruct (decide _) as [Hk|]; [|done].
  split; [done|]. split; [done|]. split.
  - unfold device_takes, taken in *. destruct (w_quota w); lia.
  - rewrite Hshp, Hk. rewrite <- (length_fmap (feature_of propname)), firstn_all. done.
Qed.

Lemma get_contours_Return arr contours figname w cs :
  (get_contours ext arr contours figname w).1 = Return cs →
  contour ext (f_lon arr) (f_lat arr) (xr.values arr) contours = Return cs ∧
  w_shp (get_contours ext arr contours figname w).2 = w_shp w ∧
  w_quota (get_contours ext arr contours figname w).2 = w_quota w ∧
  w_unwritable (get_contours ext arr contours figname w).2 = w_unwritable w.
Proof.
  unfold get_contours, bind, lift, savefig, log_info, ret.
  destruct (contour ext _ _ _ _) as [|cs']; [done|].
  destruct figname as [name|].
  - destruct (decide (name ∈ w_unwritable w)); [done|].
    cbn. by intros [= ->].
  - cbn. by intros [= ->].
Qed.

Lemma rings_with_levels_attrs (propname : string) cs :
  (λ rz : list coord * Qc, [(propname, rz.2)]) <$> rings_with_levels cs
  = mjoin (zip_with (λ col L, replicate (length (get_paths col)) [(propname, L)])
             (collections cs) (levels cs)).
Proof.
  unfold rings_with_levels. generalize (collections cs) (levels cs). clear.
  induction l as [|c cols IH]; intros [|z lvls]; try done.
  cbn [zip zip_with]. rewrite bind_cons, fmap_app, IH. cbn [mjoin list_join].
  f_equal. rewrite <- list_fmap_compose. clear.
  induction (get_paths c); cbn; [done|]. by f_equal.
Qed.

(** C1, as the code has it.  When the contouring routine returns the levels
    it was given, with one distinct collection per level, and shapely
    accepts all rings, writing to a writable path on a device that takes
    all records gives this: the file holds one feature per ring in the
    order of the collections, each carrying the level of the collection
    its ring came from; every attribute value is one of the requested
    levels, and the number of features at a level is the number of rings
    reported at that level, degenerate ones included. *)
Theorem write_shapefile_level_bookkeeping arr contours figname propname path w cs :
  contour_contract ext →
  (get_contours ext arr contours figname w).1 = Return cs →
  Forall (accepted ext) (all_paths cs) →
  path ∉ w_unwritable w →
  device_takes w (length (rings_with_levels cs)) →
  let written :=
    write_shapefile ext cs propname (Some path)
      (get_contours ext arr contours figname w).2 in
  ∃ f,
    written.1 = Return tt ∧
    w_shp written.2 !! path = Some f ∧
    shp_records f = feature_of propname <$> rings_with_levels cs ∧
    (∀ feat, feat ∈ shp_records f →
       ∃ z, properties feat = [(propname, z)] ∧ z ∈ contours) ∧
    (∀ L, length (features_at propname L f) = length (rings_at L cs)).
Proof.
  intros Hcontract Hcs Hacc Hpath Hdev written.
  apply get_contours_Return in Hcs as (Hcs & _ & Hquota & Hunw).
  apply Hcontract in Hcs as [Hlev Hwf].
  destruct (write_shapefile_run cs propname path
              (get_contours ext arr contours figname w).2 Hwf Hacc)
    as (w' & Hrun & Hshp & _).
  { by rewrite Hunw. }
  assert (taken (w_quota (get_contours ext arr contours figname w).2)
            (length (rings_with_levels cs)) = length (rings_with_levels cs)) as Hk.
  { apply taken_all. unfold device_takes in *. by rewrite Hquota. }
  rewrite length_fmap, Hk in Hrun, Hshp.
  rewrite decide_True in Hrun by done.
  rewrite <- (length_fmap (feature_of propname)), firstn_all in Hshp.
  unfold written. rewrite Hrun. cbn [fst snd].
  eexists. split; [done|]. split; [by rewrite Hshp, lookup_insert_eq|].
  cbn [shp_records]. split; [done|]. split.
  - intros feat (rz & -> & Hrz)%list_elem_of_fmap. exists rz.2.
    split; [done|]. rewrite <- Hlev. by apply rings_with_levels_level.
  - intros L. by apply features_at_rings.
Qed.

(** C7.  When the contouring routine returns the levels it was given, with
    one distinct collection per level, the attribute values of the written
    features are, in file order, the caller's levels in the caller's order,
    each repeated once per ring of its collection. *)
Theorem written_levels_follow_caller_order arr contours figname propname path w cs :
  contour_contract ext →
  (get_contours ext arr contours figname w).1 = Return cs →
  (write_shapefile ext cs propname (Some path)
     (get_contours ext arr contours figname w).2).1 = Return tt →
  ∃ f,
    w_shp (write_shapefile ext cs propname (Some path)
             (get_contours ext arr contours figname w).2).2 !! path = Some f ∧
    length (collections cs) = length contours ∧
    properties <$> shp_records f
    = mjoin (zip_with (λ col L, replicate (length (get_paths col)) [(propname, L)])
               (collections cs) contours).
Proof.
  intros Hcontract Hcs Hwrite.
  apply get_contours_Return in Hcs as (Hcs & _).
  apply Hcontract in Hcs as [Hlev Hwf].
  apply write_shapefile_Return_inv in Hwrite as (_ & _ & _ & Hshp); [|done].
  eexists. split; [by rewrite Hshp, lookup_insert_eq|].
  cbn [shp_records]. split; [by rewrite <- Hlev; apply Hwf|].
  rewrite <- list_fmap_compose, <- Hlev. apply rings_with_levels_attrs.
Qed.

(** C3, as the code has it.  [write_shapefile] returns when the device takes
    every record, and the file then holds all features and is closed.  When
    the device fails after [k] records the [OSError] propagates, and the
    file left at the path is closed and holds the first [k] features. *)
Theorem write_shapefile_outcome cs propname path w :
  well_formed cs →
  Forall (accepted ext) (all_paths cs) →
  path ∉ w_unwritable w →
  let feats := feature_of propname <$> rings_with_levels cs in
  let k := taken (w_quota w) (length feats) in
  (write_shapefile ext cs propname (Some path) w).1
  = (if decide (k = length feats) then Return tt
     else Raise (OSError "write failed")) ∧
  w_shp (write_shapefile ext cs propname (Some path) w).2 !! path
  = Some (mk_ShpFile (declared_schema propname) (take k feats) true).
Proof.
  intros Hwf Hacc Hp feats k.
  destruct (write_shapefile_run cs propname path w Hwf Hacc Hp)
    as (w' & Hrun & Hshp & _).
  rewrite Hrun. cbn [fst snd]. rewrite Hshp.
  split; [done|]. apply lookup_insert_eq.
Qed.

(** C6, as the code has it.  [write_shapefile] drops no ring: when shapely
    accepts every ring, the geometries in the file are those of all rings
    reported, in order; when shapely rejects some ring the call raises
    [ValueError] before any file is created. *)
Theorem write_shapefile_keeps_every_ring cs propname path w :
  well_formed cs →
  path ∉ w_unwritable w →
  device_takes w (length (all_paths cs)) →
  (Forall (accepted ext) (all_paths cs) →
   ∃ f,
     (write_shapefile ext cs propname (Some path) w).1 = Return tt ∧
     w_shp (write_shapefile ext cs propname (Some path) w).2 !! path = Some f ∧
     geometry <$> shp_records f
     = (λ p, shapely.mapping (mk_Polygon (vertices p))) <$> all_paths cs) ∧
  (¬ Forall (accepted ext) (all_paths cs) →
   write_shapefile ext cs propname (Some path) w
   = (Raise (ValueError "A LinearRing must have at least 3 coordinate tuples"), w)).
Proof.
  intros Hwf Hp Hdev. split.
  - intros Hacc.
    destruct (write_shapefile_run cs propname path w Hwf Hacc Hp)
      as (w' & Hrun & Hshp & _).
    rewrite Hrun. cbn [fst snd]. rewrite Hshp. clear Hrun Hshp.
    assert (length (rings_with_levels cs) = length (all_paths cs)) as Hlen.
    { rewrite <- (length_fmap fst), rings_with_levels_vertices by apply Hwf.
      by rewrite length_fmap. }
    rewrite length_fmap, Hlen, (taken_all _ _ Hdev).
    rewrite decide_True by done. eexists. split; [done|].
    split; [apply lookup_insert_eq|]. cbn [shp_records].
    rewrite <- Hlen, <- (length_fmap (feature_of propname)), firstn_all.
    transitivity ((λ v, shapely.mapping (mk_Polygon v)) <$> (rings_with_levels cs).*1).
    + by rewrite <- !list_fmap_compose.
    + rewrite rings_with_levels_vertices by apply Hwf.
      by rewrite <- list_fmap_compose.
  - intros Hrej. by apply write_shapefile_rejected.
Qed.

(** C8.  A requested level for which the contouring routine reports no ring
    contributes no feature and is no error: the writer returns, the file at
    the path is closed and carries the declared schema, every record
    conforms to it, and no record has that level as its attribute; when no
    level has a ring the file holds no record at all. *)
Theorem empty_level_writes_no_feature arr contours figname propname path w cs L :
  contour_contract ext →
  (get_contours ext arr contours figname w).1 = Return cs →
  Forall (accepted ext) (all_paths cs) →
  path ∉ w_unwritable w →
  device_takes w (length (rings_with_levels cs)) →
  L ∈ contours →
  (∀ i col, contours !! i = Some L → collections cs !! i = Some col →
            get_paths col = []) →
  let written :=
    write_shapefile ext cs propname (Some path)
      (get_contours ext arr contours figname w).2 in
  ∃ f,
    written.1 = Return tt ∧
    w_shp written.2 !! path = Some f ∧
    shp_closed f = true ∧
    shp_schema f = declared_schema propname ∧
    Forall (λ r, fiona.conforms (shp_schema f) r = true) (shp_records f) ∧
    features_at propname L f = [] ∧
    (all_paths cs = [] → shp_records f = []).
Proof.
  intros Hcontract Hcs Hacc Hp Hdev _ Hempty written.
  apply get_contours_Return in Hcs as (Hcs & _ & Hquota & Hunw).
  apply Hcontract in Hcs as [Hlev Hwf]. subst contours.
  destruct (write_shapefile_run cs propname path
              (get_contours ext arr (levels cs) figname w).2 Hwf Hacc)
    as (w' & Hrun & Hshp & _).
  { by rewrite Hunw. }
  unfold written. rewrite Hrun. cbn [fst snd]. rewrite Hshp. clear Hrun Hshp.
  rewrite length_fmap, taken_all, decide_True; [|done|].
  2:{ unfold device_takes in *. by rewrite Hquota. }
  rewrite <- (length_fmap (feature_of propname)), firstn_all.
  eexists. split; [done|]. split; [apply lookup_insert_eq|].
  cbn [shp_closed shp_schema shp_records]. split; [done|]. split; [done|]. split.
  { apply Forall_fmap, Forall_true. intros rz. apply feature_of_conforms. }
  split.
  - unfold features_at. cbn [shp_records].
    destruct (filter _ _) as [|feat l] eqn:Ef; [done|]. exfalso.
    assert (feat ∈ filter (λ feat, properties feat = [(propname, L)])
                     (feature_of propname <$> rings_with_levels cs)) as Hin
      by (rewrite Ef; left).
    apply list_elem_of_filter in Hin as [Hprop Hin].
    apply list_elem_of_fmap in Hin as ([ring z] & -> & Hrz).
    cbn in Hprop. injection Hprop as ->.
    unfold rings_with_levels in Hrz.
    apply list_elem_of_bind in Hrz as ([c z] & Hrz & Hcz).
    apply list_elem_of_fmap in Hrz as (p & [= -> ->] & Hp').
    apply list_elem_of_lookup in Hcz as [i Hi].
    apply lookup_zip_with_Some in Hi as (c' & z' & [= <- <-] & Hc & Hz).
    rewrite (Hempty i c Hz Hc) in Hp'. by apply elem_of_nil in Hp'.
  - intros Hnone.
    assert ((rings_with_levels cs).*1 = []) as Hnil.
    { rewrite rings_with_levels_vertices by apply Hwf. by rewrite Hnone. }
    apply fmap_nil_inv in Hnil. by rewrite Hnil.
Qed.
End Writer.

(** ** [main] *)

Section Main.
Variable ext : Externals.

Lemma render_keeps_shapefiles shapefile contour ofile title cl extent w :
  w_shp (read_shapefile_and_plot_filled_contour shapefile contour ofile title
           cl extent w).2 = w_shp w.
Proof.
  unfold read_shapefile_and_plot_filled_contour.
  destruct ofile as [ofile|]; [|done]. destruct shapefile as [shapefile|]; [|done].
  unfold bind, shp.Reader, lift, savefig, log_info, ret.
  destruct (w_shp w !! shapefile); [|done].
  destruct (for_fold _ _ _); [done|].
  destruct (decide (ofile ∈ w_unwritable w)); done.
Qed.

Lemma main_run args w :
  main ext args w =
  match get_analysis_date (w_today w) (a_year args) (a_month args)
          (a_day args) (a_time_window args) with
  | Raise e => (Raise e, w)
  | Return (start, end_) =>
    match read_nc ext (a_ifile args) start end_ (VList (a_ncvars args))
            (a_ncscal args) (a_func args) w with
    | (Raise e, w1) => (Raise e, w1)
    | (Return (arr, meantime), w1) =>
      match get_contours ext arr (a_contours args)
              (ts_strftime ext meantime <$> a_contour_figname args) w1 with
      | (Raise e, w2) => (Raise e, w2)
      | (Return cs, w2) =>
        match write_shapefile ext cs (a_propname args)
                (ts_strftime ext meantime <$> a_shapefile args) w2 with
        | (Raise e, w3) => (Raise e, w3)
        | (Return _, w3) =>
          match fillfig_level args with
          | Raise e => (Raise e, w3)
          | Return c =>
              read_shapefile_and_plot_filled_contour
                (ts_strftime ext meantime <$> a_shapefile args) c
                (Some (ts_strftime ext meantime (a_fillfig_name args)))
                (ts_strftime ext meantime (a_fillfig_title args))
                (a_central_longitude args) (a_extent args) w3
          end
        end
      end
    end
  end.
Proof.
  unfold main, bind, lift, get_today.
  destruct (get_analysis_date _ _ _ _ _) as [|[start end_]]; [done|].
  destruct (read_nc _ _ _ _ _ _ _ _) as [[|[arr meantime]] w1]; [done|].
  destruct (get_contours _ _ _ _ _) as [[|cs] w2]; [done|].
  destruct (write_shapefile _ _ _ _ _) as [[|[]] w3]; [done|].
  by destruct (fillfig_level args).
Qed.

(** C4, as the code has it.  [main] has no handler: an exception raised by
    the date, the read, the contouring, the writing or the diagnostic plot
    is raised by [main].  In particular, once the shapefile has been
    written, [main] ends as the plot ends, and the shapefile stays as it
    was written. *)
Theorem main_propagates_every_failure args w :
  let date := get_analysis_date (w_today w) (a_year args) (a_month args)
                (a_day args) (a_time_window args) in
  (∀ e, date = Raise e → (main ext args w).1 = Raise e) ∧
  ∀ start end_, date = Return (start, end_) →
    let read := read_nc ext (a_ifile args) start end_ (VList (a_ncvars args))
                  (a_ncscal args) (a_func args) w in
    (∀ e, read.1 = Raise e → (main ext args w).1 = Raise e) ∧
    ∀ arr meantime, read.1 = Return (arr, meantime) →
      let contoured :=
        get_contours ext arr (a_contours args)
          (ts_strftime ext meantime <$> a_contour_figname args) read.2 in
      (∀ e, contoured.1 = Raise e → (main ext args w).1 = Raise e) ∧
      ∀ cs, contoured.1 = Return cs →
        let shapefile := ts_strftime ext meantime <$> a_shapefile args in
        let written :=
          write_shapefile ext cs (a_propname args) shapefile contoured.2 in
        (∀ e, written.1 = Raise e → (main ext args w).1 = Raise e) ∧
        (written.1 = Return tt →
         ∀ c, fillfig_level args = Return c →
           let rendered :=
             read_shapefile_and_plot_filled_contour shapefile c
               (Some (ts_strftime ext meantime (a_fillfig_name args)))
               (ts_strftime ext meantime (a_fillfig_title args))
               (a_central_longitude args) (a_extent args) written.2 in
           main ext args w = rendered ∧
           w_shp (main ext args w).2 = w_shp written.2 ∧
           ∀ e, rendered.1 = Raise e → (main ext args w).1 = Raise e).
Proof.
  cbv zeta. rewrite main_run.
  destruct (get_analysis_date _ _ _ _ _) as [e0|[start0 end0]].
  { split; [by intros e [= ->]|]. by intros ?? [=]. }
  split; [by intros e [=]|]. intros start end_ [= <- <-].
  destruct (read_nc _ _ _ _ _ _ _ _) as [[e1|[arr0 mt0]] w1]; cbn [fst snd].
  { split; [by intros e [= ->]|]. by intros ?? [=]. }
  split; [by intros e [=]|]. intros arr meantime [= <- <-].
  destruct (get_contours _ _ _ _ _) as [[e2|cs0] w2]; cbn [fst snd].
  { split; [by intros e [= ->]|]. by intros ? [=]. }
  split; [by intros e [=]|]. intros cs [= <-].
  destruct (write_shapefile _ _ _ _ _) as [[e3|[]] w3]; cbn [fst snd].
  { split; [by intros e [= ->]|]. by intros [=]. }
  split; [by intros e [=]|]. intros _ c ->.
  split; [done|]. split; [|done]. apply render_keeps_shapefiles.
Qed.
End Main.

(** ** The properties on concrete runs *)

Ltac by_computation := apply (bool_decide_unpack _); vm_compute; exact I.

(** *** The analysis window *)

Example get_analysis_date_defaults :
  get_analysis_date (dt.mk_datetime 2020 3 1 10 30 5 7) None None None 24
  = Return (dt.mk_datetime 2020 2 29 0 0 0 0, dt.mk_datetime 2020 3 1 0 0 0 0).
Proof. reflexivity. Qed.

(** A month given by the caller joins the year and the day of yesterday. *)
Example get_analysis_date_mixed :
  get_analysis_date Demo.today None (Some 1) None 36
  = Return (dt.mk_datetime 2020 1 14 0 0 0 0, dt.mk_datetime 2020 1 15 12 0 0 0).
Proof. reflexivity. Qed.

(** The mix need not be a date. *)
Example get_analysis_date_mixed_no_date :
  get_analysis_date (dt.mk_datetime 2020 3 31 10 30 5 7) None (Some 2) None 24
  = Raise (ValueError "day is out of range for month").
Proof. reflexivity. Qed.

Lemma get_analysis_date_window_witness :
  dt.valid Demo.today ∧ 1 < dt.toordinal Demo.today ∧
  ∃ yesterday,
    dt.valid yesterday ∧
    dt.to_us yesterday = dt.to_us Demo.today - 86400000000 ∧
    let start :=
      dt.mk_datetime (default (dt.year yesterday) None)
                     (default (dt.month yesterday) (Some 1))
                     (default (dt.day yesterday) None) 0 0 0 0 in
    let end_us := dt.to_us start + 36 * 3600000000 in
    (∀ s e, get_analysis_date Demo.today None (Some 1) None 36 = Return (s, e) →
       s = start ∧ dt.valid s ∧ dt.valid e ∧ dt.to_us e = end_us) ∧
    (dt.valid start → 0 <= end_us < dt.MAXORDINAL * 86400000000 →
       ∃ e, get_analysis_date Demo.today None (Some 1) None 36 = Return (start, e)).
Proof.
  assert (Hv : dt.valid Demo.today) by (split; reflexivity).
  assert (Ho : 1 < dt.toordinal Demo.today) by reflexivity.
  split; [exact Hv|]. split; [exact Ho|].
  exact (get_analysis_date_window Demo.today None (Some 1) None 36 Hv Ho).
Defined.

(** *** Reading *)

Lemma ds3_wf : wf_dataset Demo.ds3.
Proof.
  intros v rows Hv. unfold Demo.ds3 in Hv. cbn [ds_vars] in Hv.
  apply lookup_insert_Some in Hv as [[_ <-]|[_ Hv]].
  - split; [done|]. repeat constructor.
  - apply lookup_singleton_Some in Hv as [_ <-].
    split; [done|]. repeat constructor.
Qed.

Lemma ds3_lev_ok : lev_ok (ds_dims Demo.ds3).
Proof. intros i d. vm_compute. discriminate. Qed.

Lemma ds3_vars_present v :
  v ∈ ["dust"; "salt"] → is_Some (ds_vars Demo.ds3 !! v).
Proof.
  intros Hv. apply elem_of_cons in Hv as [->|Hv]; [by eexists|].
  apply list_elem_of_singleton in Hv as ->. by eexists.
Qed.

Lemma ds1_wf : wf_dataset Demo.ds1.
Proof.
  intros v rows Hv. unfold Demo.ds1 in Hv. cbn [ds_vars] in Hv.
  apply lookup_singleton_Some in Hv as [_ <-]. split; [done|].
  repeat constructor.
Qed.

Lemma ds1_lev_ok : lev_ok (ds_dims Demo.ds1).
Proof. intros i d [= <- <-]. reflexivity. Qed.

Lemma dust_present (ds : Dataset) v :
  is_Some (ds_vars ds !! "dust") → v ∈ ["dust"] → is_Some (ds_vars ds !! v).
Proof. by intros H ->%list_elem_of_singleton. Qed.

Lemma read_nc_reducer_names_witness :
  "median" ≠ "mean" ∧ "median" ≠ "max" ∧ "median" ≠ "min" ∧
  is_Raise (read_nc Demo.ext "hourly.nc" Demo.start Demo.end_
              (VList ["dust"; "salt"]) 1%Qc "median" Demo.world).1.
Proof.
  assert (H1 : "median" ≠ "mean") by discriminate.
  assert (H2 : "median" ≠ "max") by discriminate.
  assert (H3 : "median" ≠ "min") by discriminate.
  split; [exact H1|]. split; [exact H2|]. split; [exact H3|].
  destruct (proj1 (read_nc_reducer_names Demo.ext "hourly.nc" Demo.start Demo.end_
                     (VList ["dust"; "salt"]) 1%Qc "median" Demo.world) H1 H2 H3)
    as (e & He & _).
  exists e. exact He.
Defined.

Example read_nc_median :
  (read_nc Demo.ext "hourly.nc" Demo.start Demo.end_
     (VList ["dust"; "salt"]) 1%Qc "median" Demo.world).1
  = Raise (UnboundLocalError "arr").
Proof. by_computation. Qed.

Example read_nc_mean :
  (read_nc Demo.ext "hourly.nc" Demo.start Demo.end_
     (VList ["dust"; "salt"]) 1%Qc "mean" Demo.world).1
  = Return (Demo.field, (Demo.t0 + Demo.hour_ns)%Z).
Proof. by_computation. Qed.

Lemma read_nc_aggregation_witness :
  ascending (ds_time Demo.ds3) = true ∧
  wf_dataset Demo.ds3 ∧ lev_ok (ds_dims Demo.ds3) ∧
  let ds := select_window Demo.ds3 Demo.start Demo.end_ in
  let vs := ["dust"; "salt"] in
  ∃ arr meantime,
    (read_nc Demo.ext "hourly.nc" Demo.start Demo.end_ (VList vs) (Demo.q 2)
       "max" Demo.world).1 = Return (arr, meantime) ∧
    length (f_data arr) = ncells ds ∧
    ∀ c, (c < ncells ds)%nat →
      ∃ x, f_data arr !! c = Some (x * Demo.q 2)%Qc ∧
        ("max" = "mean" → x = spec_mean (spec_samples ds vs c)) ∧
        ("max" = "max" → is_maximum x (spec_samples ds vs c)) ∧
        ("max" = "min" → is_minimum x (spec_samples ds vs c)) ∧
        (length (ds_time ds) = 1%nat → x = spec_sum_vars ds vs 0 c).
Proof.
  split; [reflexivity|]. split; [exact ds3_wf|]. split; [exact ds3_lev_ok|].
  apply (read_nc_aggregation Demo.ext "hourly.nc" Demo.start Demo.end_
           (VList ["dust"; "salt"]) (Demo.q 2) "max" Demo.world Demo.ds3).
  - reflexivity.
  - reflexivity.
  - exact ds3_wf.
  - discriminate.
  - exact ds3_vars_present.
  - vm_compute. discriminate.
  - exact ds3_lev_ok.
  - right. left. reflexivity.
Defined.

(** A source with a single sample is not cut to the window: the sample of
    2019 is returned for a window in 2020 that holds no sample at all. *)
Lemma read_nc_single_sample_outside_window :
  Forall (λ t, ¬ (datetime_to_ns Demo.start ≤ t ≤ datetime_to_ns Demo.end_))
    (ds_time Demo.ds1) ∧
  (read_nc Demo.ext "single.nc" Demo.start Demo.end_ (VList ["dust"]) 1%Qc
     "mean" Demo.world).1
  = Return ({| f_dims := [("lat", 2%nat); ("lon", 2%nat)];
               f_lon := [Demo.q 0; Demo.q 1];
               f_lat := [Demo.q 0; Demo.q 1];
               f_data := [Demo.q 1; Demo.q 2; Demo.q 3; Demo.q 4] |},
            1546300800000000000).
Proof.
  split.
  - by_computation.
  - by_computation.
Qed.

Lemma read_nc_error_classes_witness :
  ascending (ds_time Demo.ds3) = true ∧
  ascending (ds_time Demo.ds1) = true ∧
  (∃ v, v ∈ ["dust"; "ozone"] ∧ ds_vars Demo.ds3 !! v = None ∧
        (read_nc Demo.ext "hourly.nc" Demo.start Demo.end_
           (VList ["dust"; "ozone"]) 1%Qc "mean" Demo.world).1
        = Raise (KeyError v)) ∧
  (read_nc Demo.ext "hourly.nc" (dt.mk_datetime 2021 1 1 0 0 0 0)
     (dt.mk_datetime 2021 1 2 0 0 0 0) (VList ["dust"; "salt"]) 1%Qc "mean"
     Demo.world).1
  = Raise (ValueError
      "zero-size array to reduction operation minimum which has no identity") ∧
  ∃ arr,
    (read_nc Demo.ext "single.nc" Demo.start Demo.end_ (VList ["dust"])
       (Demo.q 2) "max" Demo.world).1 = Return (arr, 1546300800000000000) ∧
    length (f_data arr) = ncells Demo.ds1 ∧
    ∀ c, (c < ncells Demo.ds1)%nat →
      f_data arr !! c
      = Some (spec_sum_vars Demo.ds1 ["dust"] 0 c * Demo.q 2)%Qc.
Proof.
  assert (H3 : ascending (ds_time Demo.ds3) = true) by reflexivity.
  assert (H1 : ascending (ds_time Demo.ds1) = true) by reflexivity.
  split; [exact H3|]. split; [exact H1|]. split; [|split].
  - apply (proj1 (read_nc_error_classes Demo.ext "hourly.nc" Demo.start Demo.end_
                    (VList ["dust"; "ozone"]) 1%Qc "mean" Demo.world Demo.ds3
                    eq_refl H3)).
    exists "ozone". split; [|reflexivity]. right. left.
  - apply (proj1 (proj2 (read_nc_error_classes Demo.ext "hourly.nc"
                    (dt.mk_datetime 2021 1 1 0 0 0 0)
                    (dt.mk_datetime 2021 1 2 0 0 0 0)
                    (VList ["dust"; "salt"]) 1%Qc "mean" Demo.world Demo.ds3
                    eq_refl H3))).
    + discriminate.
    + exact ds3_vars_present.
    + cbn. lia.
    + apply Forall_forall. by_computation.
  - apply (proj2 (proj2 (read_nc_error_classes Demo.ext "single.nc" Demo.start
                    Demo.end_ (VList ["dust"]) (Demo.q 2) "max" Demo.world
                    Demo.ds1 eq_refl H1)) 1546300800000000000).
    + reflexivity.
    + exact ds1_wf.
    + discriminate.
    + intros v Hv. apply (dust_present _ v); [by eexists|exact Hv].
    + exact ds1_lev_ok.
    + right. left. reflexivity.
Defined.

(** *** Contours and writing *)

Lemma cell_outlines_contract : contour_contract Demo.ext.
Proof.
  intros lon lat vals lvls cs [= <-]. split; [done|]. split.
  - cbn. by rewrite length_imap.
  - cbn. generalize (zip (list_prod lat lon) (nd_buffer vals)). intros cells.
    assert (H : ∀ (l : list Qc) (k : nat),
              col_id <$> imap (λ i z, mk_LineCollection (k + i)
                 ((λ c, mk_Path (Demo.square c.1.2 c.1.1)) <$>
                    filter (λ c, (z < c.2)%Qc) cells)) l
              = seq k (length l)).
    { induction l as [|z l IH]; intros k; [done|]. cbn. f_equal; [f_equal; lia|].
      rewrite <- (IH (S k)). f_equal. apply imap_ext. intros i x _. cbn.
      f_equal. lia. }
    specialize (H lvls 0%nat). cbn [Nat.add] in H. rewrite H. apply NoDup_seq.
Qed.

Lemma cs_field_well_formed : well_formed Demo.cs_field.
Proof. split; [reflexivity|]. by_computation. Qed.

Lemma cs_straight_well_formed : well_formed Demo.cs_straight.
Proof. split; [reflexivity|]. by_computation. Qed.

Lemma cs_sparse_well_formed : well_formed Demo.cs_sparse.
Proof. split; [reflexivity|]. by_computation. Qed.

Example get_contours_field :
  (get_contours Demo.ext Demo.field [Demo.q 10; Demo.q 25] None Demo.world).1
  = Return Demo.cs_field.
Proof. by_computation. Qed.

(** A contour line with three vertices on one line encloses nothing, and
    still becomes a feature at its level: one feature is written at level
    10, for which no ring with an interior was reported. *)
Lemma straight_line_counts_as_feature :
  (write_shapefile Demo.ext Demo.cs_straight "pm25" (Some "plumes.shp")
     Demo.world).1 = Return tt ∧
  ∃ f,
    w_shp (write_shapefile Demo.ext Demo.cs_straight "pm25" (Some "plumes.shp")
             Demo.world).2 !! "plumes.shp" = Some f ∧
    length (features_at "pm25" (Demo.q 10) f) = 1%nat ∧
    length (rings_at (Demo.q 10) Demo.cs_straight) = 1%nat ∧
    length (nondegenerate_rings_at (Demo.q 10) Demo.cs_straight) = 0%nat.
Proof.
  split; [by_computation|].
  eexists. split; [vm_compute; reflexivity|].
  split; [vm_compute; reflexivity|]. split; vm_compute; reflexivity.
Qed.

Lemma write_shapefile_level_bookkeeping_witness :
  let contours := [Demo.q 10; Demo.q 25] in
  let contoured := get_contours Demo.ext Demo.field contours None Demo.world in
  let written :=
    write_shapefile Demo.ext Demo.cs_field "pm25" (Some "plumes.shp")
      contoured.2 in
  contour_contract Demo.ext ∧
  contoured.1 = Return Demo.cs_field ∧
  Forall (accepted Demo.ext) (all_paths Demo.cs_field) ∧
  ("plumes.shp" ∉ w_unwritable Demo.world) ∧
  device_takes Demo.world (length (rings_with_levels Demo.cs_field)) ∧
  ∃ f,
    written.1 = Return tt ∧
    w_shp written.2 !! "plumes.shp" = Some f ∧
    shp_records f = feature_of "pm25" <$> rings_with_levels Demo.cs_field ∧
    (∀ feat, feat ∈ shp_records f →
       ∃ z, properties feat = [("pm25", z)] ∧ z ∈ contours) ∧
    (∀ L, length (features_at "pm25" L f) = length (rings_at L Demo.cs_field)).
Proof.
  intros contours contoured written.
  assert (H1 : contoured.1 = Return Demo.cs_field) by exact get_contours_field.
  assert (H2 : Forall (accepted Demo.ext) (all_paths Demo.cs_field))
    by by_computation.
  assert (H3 : "plumes.shp" ∉ w_unwritable Demo.world) by by_computation.
  assert (H4 : device_takes Demo.world (length (rings_with_levels Demo.cs_field)))
    by exact I.
  split; [exact cell_outlines_contract|]. split; [exact H1|]. split; [exact H2|].
  split; [exact H3|]. split; [exact H4|].
  exact (write_shapefile_level_bookkeeping Demo.ext Demo.field contours None
           "pm25" "plumes.shp" Demo.world Demo.cs_field cell_outlines_contract
           H1 H2 H3 H4).
Defined.

(** The device takes one record of five: the call raises, and the file it
    leaves at the path is closed and holds that one record. *)
Lemma partial_file_left_after_failed_write :
  (write_shapefile Demo.ext Demo.cs_field "pm25" (Some "plumes.shp")
     Demo.world_full).1 = Raise (OSError "write failed") ∧
  length (rings_with_levels Demo.cs_field) = 5%nat ∧
  ∃ f,
    w_shp (write_shapefile Demo.ext Demo.cs_field "pm25" (Some "plumes.shp")
             Demo.world_full).2 !! "plumes.shp" = Some f ∧
    shp_closed f = true ∧
    length (shp_records f) = 1%nat.
Proof.
  split; [by_computation|]. split; [reflexivity|].
  eexists. split; [vm_compute; reflexivity|]. split; reflexivity.
Qed.

Lemma write_shapefile_outcome_witness :
  well_formed Demo.cs_field ∧
  Forall (accepted Demo.ext) (all_paths Demo.cs_field) ∧
  ("plumes.shp" ∉ w_unwritable Demo.world_full) ∧
  let feats := feature_of "pm25" <$> rings_with_levels Demo.cs_field in
  let k := taken (w_quota Demo.world_full) (length feats) in
  (write_shapefile Demo.ext Demo.cs_field "pm25" (Some "plumes.shp")
     Demo.world_full).1
  = (if decide (k = length feats) then Return tt
     else Raise (OSError "write failed")) ∧
  w_shp (write_shapefile Demo.ext Demo.cs_field "pm25" (Some "plumes.shp")
           Demo.world_full).2 !! "plumes.shp"
  = Some (mk_ShpFile (declared_schema "pm25") (take k feats) true).
Proof.
  assert (H1 : Forall (accepted Demo.ext) (all_paths Demo.cs_field))
    by by_computation.
  assert (H2 : "plumes.shp" ∉ w_unwritable Demo.world_full) by by_computation.
  split; [exact cs_field_well_formed|]. split; [exact H1|]. split; [exact H2|].
  exact (write_shapefile_outcome Demo.ext Demo.cs_field "pm25" "plumes.shp"
           Demo.world_full cs_field_well_formed H1 H2).
Defined.

(** The straight line is degenerate, reaches the polygon constructor and is
    written. *)
Lemma degenerate_ring_is_written :
  degenerate Demo.straight = true ∧
  geometry_Polygon Demo.ext Demo.straight = Return (mk_Polygon Demo.straight) ∧
  (write_shapefile Demo.ext Demo.cs_straight "pm25" (Some "plumes.shp")
     Demo.world).1 = Return tt ∧
  ∃ f,
    w_shp (write_shapefile Demo.ext Demo.cs_straight "pm25" (Some "plumes.shp")
             Demo.world).2 !! "plumes.shp" = Some f ∧
    shp_records f = [feature_of "pm25" (Demo.straight, Demo.q 10)].
Proof.
  split; [vm_compute; reflexivity|]. split; [reflexivity|].
  split; [by_computation|].
  eexists. split; [vm_compute; reflexivity|]. vm_compute. reflexivity.
Qed.

Lemma write_shapefile_keeps_every_ring_witness :
  well_formed Demo.cs_straight ∧
  ("plumes.shp" ∉ w_unwritable Demo.world) ∧
  device_takes Demo.world (length (all_paths Demo.cs_straight)) ∧
  Forall (accepted Demo.ext) (all_paths Demo.cs_straight) ∧
  ∃ f,
    (write_shapefile Demo.ext Demo.cs_straight "pm25" (Some "plumes.shp")
       Demo.world).1 = Return tt ∧
    w_shp (write_shapefile Demo.ext Demo.cs_straight "pm25" (Some "plumes.shp")
             Demo.world).2 !! "plumes.shp" = Some f ∧
    geometry <$> shp_records f
    = (λ p, shapely.mapping (mk_Polygon (vertices p))) <$> all_paths Demo.cs_straight.
Proof.
  assert (H1 : "plumes.shp" ∉ w_unwritable Demo.world) by by_computation.
  assert (H2 : device_takes Demo.world (length (all_paths Demo.cs_straight)))
    by exact I.
  assert (H3 : Forall (accepted Demo.ext) (all_paths Demo.cs_straight))
    by by_computation.
  split; [exact cs_straight_well_formed|]. split; [exact H1|]. split; [exact H2|].
  split; [exact H3|].
  exact (proj1 (write_shapefile_keeps_every_ring Demo.ext Demo.cs_straight "pm25"
                  "plumes.shp" Demo.world cs_straight_well_formed H1 H2) H3).
Defined.

(** Levels given in descending order are written in that order. *)
Example get_contours_descending :
  (get_contours Demo.ext Demo.field [Demo.q 25; Demo.q 10] None Demo.world).1
  = Return {| collections :=
                [mk_LineCollection 0 [mk_Path (Demo.square (Demo.q 1) (Demo.q 1))];
                 mk_LineCollection 1 [mk_Path (Demo.square (Demo.q 0) (Demo.q 0));
                                      mk_Path (Demo.square (Demo.q 1) (Demo.q 0));
                                      mk_Path (Demo.square (Demo.q 0) (Demo.q 1));
                                      mk_Path (Demo.square (Demo.q 1) (Demo.q 1))]];
              levels := [Demo.q 25; Demo.q 10] |}.
Proof. by_computation. Qed.

Lemma written_levels_follow_caller_order_witness :
  contour_contract Demo.ext ∧
  let contours := [Demo.q 25; Demo.q 10] in
  let cs :=
    {| collections :=
         [mk_LineCollection 0 [mk_Path (Demo.square (Demo.q 1) (Demo.q 1))];
          mk_LineCollection 1 [mk_Path (Demo.square (Demo.q 0) (Demo.q 0));
                               mk_Path (Demo.square (Demo.q 1) (Demo.q 0));
                               mk_Path (Demo.square (Demo.q 0) (Demo.q 1));
                               mk_Path (Demo.square (Demo.q 1) (Demo.q 1))]];
       levels := contours |} in
  let contoured := get_contours Demo.ext Demo.field contours None Demo.world in
  contoured.1 = Return cs ∧
  (write_shapefile Demo.ext cs "pm25" (Some "plumes.shp") contoured.2).1
  = Return tt ∧
  ∃ f,
    w_shp (write_shapefile Demo.ext cs "pm25" (Some "plumes.shp")
             contoured.2).2 !! "plumes.shp" = Some f ∧
    length (collections cs) = length contours ∧
    properties <$> shp_records f
    = mjoin (zip_with (λ col L, replicate (length (get_paths col)) [("pm25", L)])
               (collections cs) contours).
Proof.
  split; [exact cell_outlines_contract|]. intros contours cs contoured.
  assert (H1 : contoured.1 = Return cs) by exact get_contours_descending.
  assert (H2 : (write_shapefile Demo.ext cs "pm25" (Some "plumes.shp")
                  contoured.2).1 = Return tt) by by_computation.
  split; [exact H1|]. split; [exact H2|].
  exact (written_levels_follow_caller_order Demo.ext Demo.field contours None
           "pm25" "plumes.shp" Demo.world cs cell_outlines_contract H1 H2).
Defined.

Example get_contours_sparse :
  (get_contours Demo.ext Demo.field [Demo.q 25; Demo.q 100] None Demo.world).1
  = Return Demo.cs_sparse.
Proof. by_computation. Qed.

Lemma empty_level_writes_no_feature_witness :
  let contours := [Demo.q 25; Demo.q 100] in
  let contoured := get_contours Demo.ext Demo.field contours None Demo.world in
  let written :=
    write_shapefile Demo.ext Demo.cs_sparse "pm25" (Some "plumes.shp")
      contoured.2 in
  contour_contract Demo.ext ∧
  contoured.1 = Return Demo.cs_sparse ∧
  Forall (accepted Demo.ext) (all_paths Demo.cs_sparse) ∧
  ("plumes.shp" ∉ w_unwritable Demo.world) ∧
  device_takes Demo.world (length (rings_with_levels Demo.cs_sparse)) ∧
  Demo.q 100 ∈ contours ∧
  (∀ i col, contours !! i = Some (Demo.q 100) →
            collections Demo.cs_sparse !! i = Some col → get_paths col = []) ∧
  ∃ f,
    written.1 = Return tt ∧
    w_shp written.2 !! "plumes.shp" = Some f ∧
    shp_closed f = true ∧
    shp_schema f = declared_schema "pm25" ∧
    Forall (λ r, fiona.conforms (shp_schema f) r = true) (shp_records f) ∧
    features_at "pm25" (Demo.q 100) f = [] ∧
    (all_paths Demo.cs_sparse = [] → shp_records f = []).
Proof.
  intros contours contoured written.
  assert (H0 : contoured.1 = Return Demo.cs_sparse) by exact get_contours_sparse.
  assert (H1 : Forall (accepted Demo.ext) (all_paths Demo.cs_sparse))
    by by_computation.
  assert (H2 : "plumes.shp" ∉ w_unwritable Demo.world) by by_computation.
  assert (H3 : device_takes Demo.world (length (rings_with_levels Demo.cs_sparse)))
    by exact I.
  assert (H4 : Demo.q 100 ∈ contours) by (right; left).
  assert (H5 : ∀ i col, contours !! i = Some (Demo.q 100) →
                 collections Demo.cs_sparse !! i = Some col → get_paths col = []).
  { intros [|[|i]] col; cbn; intros Hl Hc.
    - discriminate Hl.
    - injection Hc as <-. reflexivity.
    - discriminate Hl. }
  split; [exact cell_outlines_contract|]. split; [exact H0|]. split; [exact H1|].
  split; [exact H2|]. split; [exact H3|]. split; [exact H4|]. split; [exact H5|].
  exact (empty_level_writes_no_feature Demo.ext Demo.field contours None "pm25"
           "plumes.shp" Demo.world Demo.cs_sparse (Demo.q 100)
           cell_outlines_contract H0 H1 H2 H3 H4 H5).
Defined.

(** *** The whole run *)

Example main_succeeds : (main Demo.ext Demo.args Demo.world).1 = Return tt.
Proof. by_computation. Qed.

(** The figure cannot be saved: the run fails although the shapefile has
    been written in full. *)
Lemma render_failure_fails_the_run :
  (main Demo.ext Demo.args_nofig Demo.world).1
  = Raise (OSError "/nonexistent/plumes.png") ∧
  ∃ f,
    w_shp (main Demo.ext Demo.args_nofig Demo.world).2 !! "plumes.shp" = Some f ∧
    shp_closed f = true ∧
    shp_records f = feature_of "pm25" <$> rings_with_levels Demo.cs_field.
Proof.
  split; [by_computation|].
  eexists. split; [vm_compute; reflexivity|]. split; [reflexivity|].
  by_computation.
Qed.

Lemma main_propagates_every_failure_witness :
  let args := Demo.args_nofig in
  let read := read_nc Demo.ext "hourly.nc" Demo.start Demo.end_
                (VList ["dust"; "salt"]) 1%Qc "mean" Demo.world in
  let contoured :=
    get_contours Demo.ext Demo.field [Demo.q 10; Demo.q 25] None read.2 in
  let written :=
    write_shapefile Demo.ext Demo.cs_field "pm25" (Some "plumes.shp")
      contoured.2 in
  let rendered :=
    read_shapefile_and_plot_filled_contour (Some "plumes.shp") (Demo.q 25)
      (Some "/nonexistent/plumes.png") "plumes" 0 [-180; 180; -90; 90]
      written.2 in
  get_analysis_date (w_today Demo.world) None None None 24
  = Return (Demo.start, Demo.end_) ∧
  read.1 = Return (Demo.field, Demo.t0 + Demo.hour_ns) ∧
  contoured.1 = Return Demo.cs_field ∧
  written.1 = Return tt ∧
  fillfig_level args = Return (Demo.q 25) ∧
  main Demo.ext args Demo.world = rendered ∧
  w_shp (main Demo.ext args Demo.world).2 = w_shp written.2 ∧
  ∀ e, rendered.1 = Raise e → (main Demo.ext args Demo.world).1 = Raise e.
Proof.
  intros args read contoured written rendered.
  assert (H1 : get_analysis_date (w_today Demo.world) None None None 24
               = Return (Demo.start, Demo.end_)) by reflexivity.
  assert (H2 : read.1 = Return (Demo.field, Demo.t0 + Demo.hour_ns))
    by by_computation.
  assert (H3 : contoured.1 = Return Demo.cs_field) by by_computation.
  assert (H4 : written.1 = Return tt) by by_computation.
  assert (H5 : fillfig_level args = Return (Demo.q 25)) by reflexivity.
  split; [exact H1|]. split; [exact H2|]. split; [exact H3|]. split; [exact H4|].
  split; [exact H5|].
  exact (proj2 (proj2 (proj2 (proj2
           (main_propagates_every_failure Demo.ext args Demo.world)
           Demo.start Demo.end_ H1)
           Demo.field (Demo.t0 + Demo.hour_ns) H2)
           Demo.cs_field H3)
           H4 (Demo.q 25) H5).
Defined.

(** * Further properties *)

(** ** The analysis window *)

Lemma datetime_new_midnight y m d :
  dt.check_date_fields y m d = Return tt →
  dt.datetime_new y m d 0 0 0 = Return (dt.mk_datetime y m d 0 0 0 0).
Proof. intros H. unfold dt.datetime_new. rewrite H. reflexivity. Qed.

(** X1.  With no date given, and a valid clock later than the first day of
    the calendar, [get_analysis_date] with a window of 24 hours returns the
    day before the clock's day: the window starts at midnight, all time
    fields zero, on the day whose ordinal is one less than that of the
    clock's day, and ends at midnight on the clock's own day. *)
Theorem get_analysis_date_default_window today :
  dt.valid today →
  1 < dt.toordinal today →
  ∃ s e,
    get_analysis_date today None None None 24 = Return (s, e) ∧
    dt.valid s ∧ dt.valid e ∧
    dt.toordinal s = dt.toordinal today - 1 ∧
    dt.toordinal e = dt.toordinal today ∧
    (dt.hour s, dt.minute s, dt.second s, dt.microsecond s) = (0, 0, 0, 0) ∧
    (dt.hour e, dt.minute e, dt.second e, dt.microsecond e) = (0, 0, 0, 0).
Proof.
  intros Hv Hord.
  destruct (yesterday_spec today Hv Hord) as (yd & Hsub & Hvy & Hus).
  pose proof (valid_to_us yd Hvy) as [Hyd Hbound].
  pose proof (valid_to_us today Hv) as [Htoday Hbt].
  destruct Hvy as [Hdate Htime].
  unfold get_analysis_date. rewrite timedelta_one_day. cbn [rbind]. rewrite Hsub.
  cbn [rbind]. rewrite (datetime_new_midnight _ _ _ Hdate). cbn [rbind].
  change (dt.timedelta_new 0 24) with (Return (dt.mk_timedelta 1 0 0)). cbn [rbind].
  set (s := dt.mk_datetime (dt.year yd) (dt.month yd) (dt.day yd) 0 0 0 0).
  assert (Hvs : dt.valid s) by (split; [exact Hdate|reflexivity]).
  assert (Hos : dt.toordinal s = dt.toordinal today - 1).
  { change (dt.toordinal s) with (dt.toordinal yd). lia. }
  assert (Hs : dt.to_us s = (dt.toordinal s - 1) * 86400000000).
  { unfold dt.to_us, s. cbn. lia. }
  destruct (add_returns s (dt.mk_timedelta 1 0 0)) as [e He].
  - vm_compute. discriminate.
  - rewrite Hs. unfold dt.td_to_us, dt.MAXORDINAL in *. cbn. lia.
  - rewrite Hs. unfold dt.MAXORDINAL in *. lia.
  - rewrite He. cbn [rbind]. exists s, e. split; [done|].
    apply add_spec in He as [He Hve]. unfold dt.td_to_us in He. cbn in He.
    specialize (Hve ltac:(cbn; lia)).
    pose proof (valid_to_us e Hve) as [Hbe _].
    assert (Hoe : dt.toordinal e = dt.toordinal today) by lia.
    destruct Hve as [Hde Hte]. pose proof Hte as Hfields.
    apply check_time_fields_inv in Hfields.
    assert (dt.hour e = 0 ∧ dt.minute e = 0 ∧ dt.second e = 0 ∧
            dt.microsecond e = 0) as (-> & -> & -> & ->).
    { rewrite Hs in He. unfold dt.to_us in He. lia. }
    split; [done|]. split; [|done]. split; [done|].
    eapply check_time_fields_inv. lia.
Qed.

(** X2.  When the year, the month and the day are all given, the result of
    [get_analysis_date], a window or an exception, is the same under any two
    valid clocks later than the first day of the calendar: yesterday is
    computed and then not used. *)
Theorem get_analysis_date_ignores_clock today1 today2 y m d time_window :
  dt.valid today1 → 1 < dt.toordinal today1 →
  dt.valid today2 → 1 < dt.toordinal today2 →
  get_analysis_date today1 (Some y) (Some m) (Some d) time_window
  = get_analysis_date today2 (Some y) (Some m) (Some d) time_window.
Proof.
  intros Hv1 Ho1 Hv2 Ho2.
  destruct (yesterday_spec today1 Hv1 Ho1) as (yd1 & Hsub1 & _).
  destruct (yesterday_spec today2 Hv2 Ho2) as (yd2 & Hsub2 & _).
  unfold get_analysis_date. rewrite timedelta_one_day. cbn [rbind].
  by rewrite Hsub1, Hsub2.
Qed.

(** ** More on [read_nc] *)

Section ReadNcMore.
Local Open Scope Qc_scope.

Lemma select_window_coords ds s e :
  ds_lon (select_window ds s e) = ds_lon ds ∧
  ds_lat (select_window ds s e) = ds_lat ds.
Proof. unfold select_window. by destruct (decide _). Qed.

(** [read_nc] up to the reduction, for a source that has what is asked. *)
Lemma read_nc_stages ext ifile start end_ vars scal func w ds0 :
  open_source ext ifile (strftime ext start ifile) = Return ds0 →
  wf_dataset ds0 →
  let ds := select_window ds0 start end_ in
  let vs := var_list vars in
  vs ≠ [] →
  (∀ v, v ∈ vs → is_Some (ds_vars ds0 !! v)) →
  ds_time ds ≠ [] →
  ∃ arrs m T,
    da_time arrs = ds_time ds ∧ da_dims arrs = ds_dims ds0 ∧
    da_lon arrs = ds_lon ds0 ∧ da_lat arrs = ds_lat ds0 ∧
    length (ds_time ds) = S T ∧
    shaped (S T) (ncells ds) (da_data arrs) ∧
    (∀ t c, cell (da_data arrs) t c = spec_sum_vars ds vs t c) ∧
    np_min (ds_time ds) = Return m ∧
    (read_nc ext ifile start end_ vars scal func w).1
    = rbind (reduce_by func arrs) (λ arr,
      rbind (bound "arr" arr) (λ arr,
      rbind (if xr.has_dim "lev" (f_dims arr)
             then xr.squeeze arr "lev" else Return arr) (λ arr,
      Return (if decide (scal ≠ 1) then xr.scale arr scal else arr,
              mean_time m (ds_time ds))))).
Proof.
  intros Hopen Hwf ds vs Hne Hall Htime.
  rewrite read_nc_run. cbn [fst]. unfold read_nc_result. rewrite Hopen. cbn [rbind].
  fold ds vs. cbv zeta.
  destruct (sum_variables_present ds vs) as (arrs & -> & Ht & Hd & Hlon & Hlat & Hsh & Hcell).
  { by apply select_window_wf. }
  { done. }
  { intros v Hv. apply not_eq_None_Some. unfold ds. rewrite select_window_vars.
    apply not_eq_None_Some. auto. }
  cbn [rbind bound]. rewrite Ht.
  destruct (np_min_nonempty (ds_time ds) Htime) as [m Hm]. rewrite Hm. cbn [rbind].
  destruct (length (ds_time ds)) as [|T] eqn:ET.
  { by destruct (ds_time ds). }
  exists arrs, m, T.
  destruct (select_window_coords ds0 start end_) as [Hlon' Hlat'].
  split; [done|]. split; [by rewrite Hd; apply select_window_dims|].
  split; [by rewrite Hlon|]. split; [by rewrite Hlat|]. done.
Qed.

(** X3.  With an empty list of variables the loop over [vars] binds nothing:
    once a source on an ascending time axis has opened, [read_nc] raises the
    [UnboundLocalError] of [arrs]. *)
Theorem read_nc_no_variables ext ifile start end_ vars scal func w ds :
  open_source ext ifile (strftime ext start ifile) = Return ds →
  ascending (ds_time ds) = true →
  var_list vars = [] →
  (read_nc ext ifile start end_ vars scal func w).1
  = Raise (UnboundLocalError "arrs").
Proof.
  intros Hopen _ Hvars. rewrite read_nc_run. cbn [fst]. unfold read_nc_result.
  rewrite Hopen. cbn [rbind]. by rewrite Hvars.
Qed.


Lemma filter_all {A} (P : A → Prop) `{!∀ x, Decision (P x)} (l : list A) :
  Forall P l → filter P l = l.
Proof.
  induction 1 as [|x l Hx Hl IH]; [done|]. by rewrite filter_cons_True, IH.
Qed.

Lemma squeeze_lev_dims arr :
  lev_ok (f_dims arr) →
  ∃ arr',
    (if xr.has_dim "lev" (f_dims arr) then xr.squeeze arr "lev" else Return arr)
    = Return arr' ∧
    f_data arr' = f_data arr ∧ f_lon arr' = f_lon arr ∧ f_lat arr' = f_lat arr ∧
    f_dims arr' = filter (λ d, d.1 ≠ "lev") (f_dims arr).
Proof.
  intros Hlev. destruct (xr.has_dim _ _) eqn:Eh.
  - unfold xr.squeeze.
    destruct (list_find _ _) as [[i [n size]]|] eqn:Ef.
    + apply Hlev in Ef. cbn in Ef. subst size. rewrite decide_True by done.
      eexists. split; [done|]. done.
    + apply list_find_None in Ef. unfold xr.has_dim in Eh.
      apply bool_decide_eq_true_1 in Eh.
      apply list_elem_of_fmap in Eh as ([n sz] & Hn & Hin).
      exfalso. rewrite Forall_forall in Ef. by apply (Ef _ Hin).
  - exists arr. split; [done|]. split; [done|]. split; [done|]. split; [done|].
    symmetry. apply filter_all. apply Forall_forall. intros d Hd Heq.
    unfold xr.has_dim in Eh. apply bool_decide_eq_false_1 in Eh. apply Eh.
    apply list_elem_of_fmap. by exists d.
Qed.

Lemma scale_one arr : xr.scale arr 1 = arr.
Proof.
  destruct arr as [dims lon lat data]. unfold xr.scale. cbn. f_equal.
  induction data as [|x data IH]; [done|]. cbn. by rewrite Qcmult_1_r, IH.
Qed.

(** What [read_nc] returns for a source that has what is asked, cell by
    cell. *)
Lemma read_nc_cellwise ext ifile start end_ vars scal func w ds0 :
  open_source ext ifile (strftime ext start ifile) = Return ds0 →
  wf_dataset ds0 →
  let ds := select_window ds0 start end_ in
  let vs := var_list vars in
  vs ≠ [] →
  (∀ v, v ∈ vs → is_Some (ds_vars ds0 !! v)) →
  ds_time ds ≠ [] →
  lev_ok (ds_dims ds0) →
  func = "mean" ∨ func = "max" ∨ func = "min" →
  ∃ arr m,
    (read_nc ext ifile start end_ vars scal func w).1
    = Return (arr, mean_time m (ds_time ds)) ∧
    np_min (ds_time ds) = Return m ∧
    f_lon arr = ds_lon ds0 ∧ f_lat arr = ds_lat ds0 ∧
    f_dims arr = filter (λ d, d.1 ≠ "lev") (ds_dims ds0) ∧
    length (f_data arr) = ncells ds0 ∧
    ∀ c, (c < ncells ds0)%nat →
      ∃ x, f_data arr !! c = Some (x * scal) ∧
        (func = "mean" → x = spec_mean (spec_samples ds vs c)) ∧
        (func = "max" → is_maximum x (spec_samples ds vs c)) ∧
        (func = "min" → is_minimum x (spec_samples ds vs c)).
Proof.
  intros Hopen Hwf ds vs Hne Hall Htime Hlev Hfunc.
  destruct (read_nc_stages ext ifile start end_ vars scal func w ds0 Hopen Hwf Hne Hall Htime)
    as (arrs & m & T & Ht & Hdims & Hlon & Hlat & ET & Hsh & Hcell & Hm & ->).
  fold ds vs in ET, Hsh, Hcell, Hm |- *.
  assert (ncells ds = ncells ds0) as Hn.
  { unfold ncells, ds. by rewrite select_window_dims. }
  rewrite Hn in Hsh.
  destruct (reduce_by_spec func arrs T _ Hsh Hfunc)
    as (arr & -> & Hd & Hl1 & Hl2 & Hlen & Hcols).
  cbn [rbind bound].
  destruct (squeeze_lev_dims arr) as (arr' & -> & Hdata & Hlon' & Hlat' & Hdims').
  { by rewrite Hd, Hdims. }
  cbn [rbind]. eexists _, m. split; [reflexivity|]. split; [done|].
  assert (Hfields : ∀ a, f_lon a = f_lon arr' →
            f_lat a = f_lat arr' → f_dims a = f_dims arr' →
            f_lon a = ds_lon ds0 ∧ f_lat a = ds_lat ds0 ∧
            f_dims a = filter (λ d, d.1 ≠ "lev") (ds_dims ds0)).
  { intros a -> -> ->. rewrite Hlon', Hlat', Hdims', Hl1, Hl2, Hd, Hdims, Hlon, Hlat.
    done. }
  assert (Hscaled : ∀ c x, f_data arr !! c = Some x →
            f_data (if decide (scal ≠ 1) then xr.scale arr' scal else arr') !! c
            = Some (x * scal)).
  { intros c x Hx. destruct (decide (scal ≠ 1)) as [|Hs].
    - cbn. by rewrite list_lookup_fmap, Hdata, Hx.
    - apply dec_stable in Hs. subst scal. by rewrite Hdata, Hx, Qcmult_1_r. }
  destruct (decide (scal ≠ 1)) as [Hs|Hs].
  - destruct (Hfields (xr.scale arr' scal)) as (? & ? & ?); try done.
    split; [done|]. split; [done|]. split; [done|].
    split; [by cbn; rewrite length_map, Hdata|].
    intros c Hc. destruct (Hcols c Hc) as (x & Hx & Hmean & Hmax & Hmin & _).
    exists x. split; [by apply Hscaled|].
    rewrite <- ET in Hmean, Hmax, Hmin.
    by rewrite (spec_samples_cells ds vs arrs c Ht Hcell) in Hmean, Hmax, Hmin.
  - destruct (Hfields arr') as (? & ? & ?); try done.
    split; [done|]. split; [done|]. split; [done|].
    split; [by rewrite Hdata|].
    intros c Hc. destruct (Hcols c Hc) as (x & Hx & Hmean & Hmax & Hmin & _).
    exists x. split; [by apply Hscaled|].
    rewrite <- ET in Hmean, Hmax, Hmin.
    by rewrite (spec_samples_cells ds vs arrs c Ht Hcell) in Hmean, Hmax, Hmin.
Qed.

(** X7.  Scaling is the last step and touches the values only: if
    [read_nc] with scale factor 1 returns a field and a mean time, then with
    any scale factor it returns that field multiplied by the factor, and the
    same mean time. *)
Theorem read_nc_scale_after ext ifile start end_ vars scal func w arr meantime :
  (read_nc ext ifile start end_ vars 1 func w).1 = Return (arr, meantime) →
  (read_nc ext ifile start end_ vars scal func w).1
  = Return (xr.scale arr scal, meantime).
Proof.
  rewrite !read_nc_run. cbn [fst]. unfold read_nc_result.
  destruct (open_source _ _ _) as [|ds]; [done|]. cbn [rbind].
  destruct (sum_variables _ _) as [|arrs]; [done|]. cbn [rbind].
  destruct (bound "arrs" arrs) as [|arrs']; [done|]. cbn [rbind].
  destruct (np_min _) as [|m]; [done|]. cbn [rbind].
  destruct (reduce_by _ _) as [|a]; [done|]. cbn [rbind].
  destruct (bound "arr" a) as [|a']; [done|]. cbn [rbind].
  destruct (if xr.has_dim _ _ then _ else _) as [|a'']; [done|]. cbn [rbind].
  rewrite decide_False by (intros H; by apply H). intros [= <- <-].
  destruct (decide (scal ≠ 1)) as [|Hs]; [done|].
  apply dec_stable in Hs. subst scal. by rewrite scale_one.
Qed.

(** X6.  For a well-formed source on an ascending time axis, with the
    requested variables, a selected time axis that is not empty and a scale
    factor that is not negative, the reducers "min" and "max" both return,
    with one and the same mean time, and in every cell the value under
    "min" is at most the value under "max". *)
Theorem read_nc_min_below_max ext ifile start end_ vars scal w ds0 :
  open_source ext ifile (strftime ext start ifile) = Return ds0 →
  ascending (ds_time ds0) = true →
  wf_dataset ds0 →
  var_list vars ≠ [] →
  (∀ v, v ∈ var_list vars → is_Some (ds_vars ds0 !! v)) →
  ds_time (select_window ds0 start end_) ≠ [] →
  lev_ok (ds_dims ds0) →
  0 ≤ scal →
  ∃ amin amax meantime,
    (read_nc ext ifile start end_ vars scal "min" w).1 = Return (amin, meantime) ∧
    (read_nc ext ifile start end_ vars scal "max" w).1 = Return (amax, meantime) ∧
    ∀ c, (c < ncells ds0)%nat →
      ∃ lo hi,
        f_data amin !! c = Some lo ∧ f_data amax !! c = Some hi ∧ lo ≤ hi.
Proof.
  intros Hopen _ Hwf Hne Hall Htime Hlev Hscal.
  destruct (read_nc_cellwise ext ifile start end_ vars scal "min" w ds0)
    as (amin & m1 & -> & Hm1 & _ & _ & _ & _ & Hmin); try done; [auto|].
  destruct (read_nc_cellwise ext ifile start end_ vars scal "max" w ds0)
    as (amax & m3 & -> & Hm3 & _ & _ & _ & _ & Hmax); try done; [auto|].
  assert (m3 = m1) as -> by congruence.
  eexists _, _, _. split; [done|]. split; [done|].
  intros c Hc.
  destruct (Hmin c Hc) as (lo & Hlo & _ & _ & Hislo).
  destruct (Hmax c Hc) as (hi & Hhi & _ & Hishi & _).
  destruct (Hislo eq_refl) as [Hin _]. destruct (Hishi eq_refl) as [_ Hub].
  eexists _, _. split; [exact Hlo|]. split; [exact Hhi|].
  apply Qcmult_le_compat_r; [by apply Hub|done].
Qed.

Lemma dims_product_without_lev (dims : list (string * nat)) :
  NoDup dims.*1 → lev_ok dims →
  foldr Nat.mul 1%nat (filter (λ d, d.1 ≠ "lev") dims).*2
  = foldr Nat.mul 1%nat dims.*2.
Proof.
  induction dims as [|[n size] dims IH]; intros Hnd Hlev; [done|].
  cbn in Hnd. apply NoDup_cons in Hnd as [Hn Hnd].
  destruct (decide (n = "lev")) as [->|Hne].
  - rewrite filter_cons_False by (cbn; auto).
    assert (size = 1%nat) as ->.
    { apply (Hlev 0%nat ("lev", size)). cbn. by rewrite decide_True. }
    rewrite filter_all; [cbn; lia|].
    apply Forall_forall. intros d Hd Heq. apply Hn. apply list_elem_of_fmap.
    by exists d.
  - rewrite filter_cons_True by done. cbn. rewrite IH; [done|done|].
    intros i d Hfind. apply (Hlev (S i) d). cbn. rewrite decide_False by done.
    by rewrite Hfind.
Qed.

(** X8.  For a well-formed source on an ascending time axis, the field that
    [read_nc] returns is on the grid of the source: its longitudes and
    latitudes are those of the source, its dimensions are the source's
    without [lev], in their order, and it holds one value for each cell of
    these dimensions. *)
Theorem read_nc_keeps_grid ext ifile start end_ vars scal func w ds0 :
  open_source ext ifile (strftime ext start ifile) = Return ds0 →
  ascending (ds_time ds0) = true →
  wf_dataset ds0 →
  var_list vars ≠ [] →
  (∀ v, v ∈ var_list vars → is_Some (ds_vars ds0 !! v)) →
  ds_time (select_window ds0 start end_) ≠ [] →
  lev_ok (ds_dims ds0) →
  NoDup (ds_dims ds0).*1 →
  func = "mean" ∨ func = "max" ∨ func = "min" →
  ∃ arr meantime,
    (read_nc ext ifile start end_ vars scal func w).1 = Return (arr, meantime) ∧
    f_lon arr = ds_lon ds0 ∧ f_lat arr = ds_lat ds0 ∧
    f_dims arr = filter (λ d, d.1 ≠ "lev") (ds_dims ds0) ∧
    length (f_data arr) = foldr Nat.mul 1%nat (f_dims arr).*2.
Proof.
  intros Hopen _ Hwf Hne Hall Htime Hlev Hnd Hfunc.
  destruct (read_nc_cellwise ext ifile start end_ vars scal func w ds0)
    as (arr & m & -> & _ & Hlon & Hlat & Hdims & Hlen & _); try done.
  eexists _, _. split; [done|]. split; [done|]. split; [done|]. split; [done|].
  rewrite Hlen, Hdims. unfold ncells. symmetry. by apply dims_product_without_lev.
Qed.
End ReadNcMore.

Section MeanTime.
Local Open Scope Z_scope.

Lemma foldl_Zmin t ts :
  foldl Z.min t ts ∈ t :: ts ∧ ∀ x, x ∈ t :: ts → foldl Z.min t ts <= x.
Proof.
  revert t. induction ts as [|u ts IH]; intros t.
  - cbn. split; [left|]. intros x ->%list_elem_of_singleton. lia.
  - cbn [foldl]. destruct (IH (Z.min t u)) as [Hin Hle]. split.
    + apply elem_of_cons in Hin as [Hin|Hin]; [|by do 2 right].
      rewrite Hin. destruct (Z.min_spec t u) as [[_ ->]|[_ ->]]; [left|right; left].
    + intros x Hx. pose proof (Hle (Z.min t u) ltac:(left)).
      apply elem_of_cons in Hx as [->|Hx]; [lia|].
      apply elem_of_cons in Hx as [->|Hx]; [lia|].
      apply Hle. by right.
Qed.

Lemma list_Z_maximum (l : list Z) :
  l ≠ [] → ∃ hi, hi ∈ l ∧ ∀ x, x ∈ l → x <= hi.
Proof.
  induction l as [|t l IH]; [done|]. intros _.
  destruct l as [|u l].
  - exists t. split; [left|]. intros x ->%list_elem_of_singleton. lia.
  - destruct IH as (hi & Hin & Hle); [done|].
    destruct (Z.le_gt_cases t hi).
    + exists hi. split; [by right|]. intros x [->|Hx]%elem_of_cons; auto.
    + exists t. split; [left|]. intros x [->|Hx]%elem_of_cons; [lia|].
      specialize (Hle x Hx). lia.
Qed.

Lemma offsets_sum_bounds m hi (l : list Z) :
  (∀ x, x ∈ l → m <= x <= hi) →
  0 <= foldr Z.add 0 ((λ t, t - m) <$> l) <= Z.of_nat (length l) * (hi - m).
Proof.
  induction l as [|t l IH]; intros H; [cbn; lia|].
  cbn [fmap list_fmap foldr length]. rewrite Nat2Z.inj_succ.
  pose proof (H t ltac:(left)). destruct IH; [intros x Hx; apply H; by right|]. nia.
Qed.

Lemma mean_time_bounds m hi (l : list Z) :
  l ≠ [] → (∀ x, x ∈ l → m <= x <= hi) → m <= mean_time m l <= hi.
Proof.
  intros Hne H. unfold mean_time.
  pose proof (offsets_sum_bounds m hi l H) as [H0 H1].
  assert (0 < Z.of_nat (length l)) by (destruct l; [done|cbn [length]; lia]).
  pose proof (Z.div_pos _ (Z.of_nat (length l)) H0 ltac:(lia)).
  assert (foldr Z.add 0 ((λ t, t - m) <$> l) / Z.of_nat (length l) <= hi - m).
  { apply Z.div_le_upper_bound; lia. }
  lia.
Qed.

(** X5.  For a source on an ascending time axis, with selected time stamps
    whose offsets from the earliest add up without wrapping in 64 bits:
    whenever [read_nc] returns, its mean time lies between the earliest and
    the latest of the time stamps that were selected. *)
Theorem read_nc_meantime_within_samples ext ifile start end_ vars scal func w
    ds0 arr meantime :
  open_source ext ifile (strftime ext start ifile) = Return ds0 →
  ascending (ds_time ds0) = true →
  offsets_fit (ds_time (select_window ds0 start end_)) = true →
  (read_nc ext ifile start end_ vars scal func w).1 = Return (arr, meantime) →
  ∃ lo hi,
    let times := ds_time (select_window ds0 start end_) in
    lo ∈ times ∧ hi ∈ times ∧ (∀ t, t ∈ times → lo <= t <= hi) ∧
    lo <= meantime <= hi.
Proof.
  intros Hopen _ _. cbv zeta.
  rewrite read_nc_run. cbn [fst]. unfold read_nc_result. rewrite Hopen.
  cbn [rbind].
  destruct (sum_variables _ _) as [|[arrs|]] eqn:Es; [done| |done]. cbn [rbind bound].
  apply sum_variables_time in Es. rewrite Es.
  destruct (ds_time (select_window ds0 start end_)) as [|t ts] eqn:Et; [done|].
  cbn [np_min rbind].
  destruct (reduce_by _ _) as [|a]; [done|]. cbn [rbind].
  destruct (bound "arr" a) as [|a']; [done|]. cbn [rbind].
  destruct (if xr.has_dim _ _ then _ else _) as [|a'']; [done|]. cbn [rbind].
  intros [= _ <-].
  destruct (foldl_Zmin t ts) as [Hin Hle].
  destruct (list_Z_maximum (t :: ts)) as (hi & Hhi & Hub); [done|].
  exists (foldl Z.min t ts), hi.
  split; [done|]. split; [done|]. split; [by intros x Hx; split; auto|].
  apply mean_time_bounds; [done|]. by intros x Hx; split; auto.
Qed.
End MeanTime.

(** ** More on the contours, the shapefile and the diagnostic plot *)

Section WriterMore.
Variable ext : Externals.

Lemma same_but_at_refl path w : same_but_at path w w.
Proof. by repeat split. Qed.

Lemma same_but_at_trans path w1 w2 w3 :
  same_but_at path w1 w2 → same_but_at path w2 w3 → same_but_at path w1 w3.
Proof.
  intros (H1 & H2 & H3 & H4) (H1' & H2' & H3' & H4'). repeat split; try congruence.
  intros p Hp. by rewrite H1', H1.
Qed.

Lemma write_same_but_at p r w :
  same_but_at (Some p) w (fiona.write p r w).2.
Proof.
  unfold fiona.write. destruct (w_shp w !! p) as [f|]; [|apply same_but_at_refl].
  destruct (shp_closed f); [apply same_but_at_refl|].
  destruct (negb _); [apply same_but_at_refl|].
  destruct (w_quota w) as [[|q]|]; try apply same_but_at_refl;
    (repeat split; try done; intros p' Hp'; cbn;
     apply lookup_insert_ne; congruence).
Qed.

Lemma for_each_write_same_but_at p feats w :
  same_but_at (Some p) w (for_each feats (fiona.write p) w).2.
Proof.
  revert w. induction feats as [|r feats IH]; intros w; [apply same_but_at_refl|].
  cbn [for_each]. unfold bind.
  pose proof (write_same_but_at p r w) as H.
  destruct (fiona.write p r w) as [[e|[]] w1]; [done|]. cbn [snd] in H.
  eapply same_but_at_trans; [exact H|apply IH].
Qed.

Lemma for_each_map {A} (l : list A) (f : A → Feature) p w :
  for_each l (λ x, fiona.write p (f x)) w = for_each (f <$> l) (fiona.write p) w.
Proof.
  revert w. induction l as [|x l IH]; intros w; [done|].
  cbn [for_each fmap list_fmap]. unfold bind.
  destruct (fiona.write p (f x) w) as [[e|[]] w']; [done|]. apply IH.
Qed.

Lemma write_shapefile_frame cs propname shapefile w :
  same_but_at shapefile w (write_shapefile ext cs propname shapefile w).2.
Proof.
  unfold write_shapefile, bind, lift.
  destruct (build_polylist ext cs propname) as [e|polylist]; [apply same_but_at_refl|].
  destruct shapefile as [p|]; [|apply same_but_at_refl].
  unfold fiona.collection. destruct (decide (p ∈ w_unwritable w)); [apply same_but_at_refl|].
  set (w1 := set_shp p _ w).
  assert (H1 : same_but_at (Some p) w w1).
  { repeat split; try done. intros p' Hp'. cbn. apply lookup_insert_ne. congruence. }
  unfold finally. rewrite for_each_map.
  pose proof (for_each_write_same_but_at p
                ((λ x, mk_Feature (props x) (shapely.mapping (poly x))) <$> polylist) w1) as H2.
  destruct (for_each _ _ w1) as [r w2]. cbn [snd] in H2.
  assert (H3 : same_but_at (Some p) w2 (fiona.close p w2).2).
  { unfold fiona.close. destruct (w_shp w2 !! p); [|apply same_but_at_refl].
    repeat split; try done. intros p' Hp'. cbn. apply lookup_insert_ne. congruence. }
  destruct (fiona.close p w2) as [[e|[]] w3]; cbn [snd] in H3.
  - eapply same_but_at_trans; [exact H1|]. eapply same_but_at_trans; [exact H2|exact H3].
  - destruct r as [e|[]]; cbn [snd].
    + eapply same_but_at_trans; [exact H1|]. eapply same_but_at_trans; [exact H2|exact H3].
    + eapply same_but_at_trans; [exact H1|]. eapply same_but_at_trans; [exact H2|].
      eapply same_but_at_trans; [exact H3|]. by repeat split.
Qed.

Lemma for_fold_app {A S} (l1 l2 : list A) (s : S) (body : S → A → result S) :
  for_fold (l1 ++ l2) s body
  = rbind (for_fold l1 s body) (λ s', for_fold l2 s' body).
Proof.
  revert s. induction l1 as [|x l1 IH]; intros s; [done|].
  cbn [app for_fold]. destruct (body s x); [done|]. apply IH.
Qed.

Lemma dict_fold_lookup_other (kvs : list (LineCollection * Qc)) (d : gmap nat Qc) k :
  k ∉ (λ kv, col_id kv.1) <$> kvs →
  foldl (λ d kv, <[col_id kv.1 := kv.2]> d) d kvs !! k = d !! k.
Proof.
  revert d. induction kvs as [|kv kvs IH]; intros d Hk; [done|].
  cbn [foldl]. rewrite IH.
  - apply lookup_insert_ne. intros Heq. apply Hk. rewrite <- Heq. left.
  - intros Hin. apply Hk. by right.
Qed.

Lemma zip_take_l {A B} (l : list A) (k : list B) :
  zip l k = zip (take (length k) l) k.
Proof.
  revert k. induction l as [|x l IH]; intros [|y k]; try done.
  cbn. f_equal. apply IH.
Qed.

(** X10.  Whether it returns or raises, [write_shapefile] leaves every
    shapefile other than the one at its path as it was, and leaves the
    figures, the unwritable paths and the clock alone. *)
Theorem write_shapefile_touches_only_its_path cs propname shapefile w :
  let w' := (write_shapefile ext cs propname shapefile w).2 in
  (∀ p, Some p ≠ shapefile → w_shp w' !! p = w_shp w !! p) ∧
  w_figs w' = w_figs w ∧
  w_unwritable w' = w_unwritable w ∧
  w_today w' = w_today w.
Proof. apply write_shapefile_frame. Qed.

(** X11.  [zip] stops at the shorter list: for a contour set with distinct
    collections and fewer levels than collections, whose rings under the
    levels it has are all accepted by shapely, [write_shapefile] raises
    [KeyError] at the first collection without a level, before any file is
    opened. *)
Theorem write_shapefile_missing_level cs propname shapefile w :
  NoDup (col_id <$> collections cs) →
  (length (levels cs) < length (collections cs))%nat →
  Forall (accepted ext) (take (length (levels cs)) (collections cs) ≫= get_paths) →
  write_shapefile ext cs propname shapefile w
  = (Raise (KeyError "<LineCollection>"), w).
Proof.
  intros Hnd Hlen Hacc.
  set (m := length (levels cs)) in *.
  assert (Hsplit : collections cs = take m (collections cs) ++ drop m (collections cs))
    by (by rewrite take_drop).
  destruct (drop m (collections cs)) as [|c rest] eqn:Edrop.
  { apply (f_equal length) in Edrop. rewrite length_drop in Edrop. cbn in Edrop. lia. }
  assert (Hlen1 : length (take m (collections cs)) = length (levels cs)).
  { rewrite length_take. unfold m. lia. }
  assert (Hnd' : NoDup (col_id <$> take m (collections cs)) ∧
                 col_id c ∉ col_id <$> take m (collections cs)).
  { rewrite Hsplit, fmap_app in Hnd. apply NoDup_app in Hnd as (H1 & H2 & _).
    split; [done|]. intros Hin. apply (H2 _ Hin). cbn. left. }
  destruct Hnd' as [Hnd1 Hfresh].
  assert (build_polylist ext cs propname = Raise (KeyError "<LineCollection>")) as Hb.
  { unfold build_polylist. cbv zeta. unfold dict_zip.
    rewrite (zip_take_l (collections cs) (levels cs)). fold m.
    fold (dict_zip (take m (collections cs)) (levels cs)).
    set (d := dict_zip (take m (collections cs)) (levels cs)).
    assert (Hd : ∀ i c' z, take m (collections cs) !! i = Some c' →
                   levels cs !! i = Some z → d !! col_id c' = Some z).
    { intros i c' z Hc Hz. by eapply dict_zip_lookup. }
    assert (Hnone : d !! col_id c = None).
    { unfold d, dict_zip. rewrite dict_fold_lookup_other; [done|].
      intros Hin. apply Hfresh.
      apply list_elem_of_fmap in Hin as ([c' z] & Heq & Hin). cbn in Heq.
      apply list_elem_of_fmap. exists c'. split; [done|].
      apply list_elem_of_lookup in Hin as [i Hi].
      apply lookup_zip_with_Some in Hi as (c'' & z' & [= <- <-] & Hc & _).
      by eapply list_elem_of_lookup_2. }
    clearbody d. rewrite Hsplit, for_fold_app.
    rewrite (collections_loop ext propname d _ (levels cs) [] Hlen1 Hd).
    rewrite bool_decide_eq_true_2 by done. cbn [rbind for_fold].
    unfold dict_getitem at 1. by rewrite Hnone. }
  unfold write_shapefile, bind, lift. by rewrite Hb.
Qed.

Lemma get_contours_cases arr contours figname w :
  get_contours ext arr contours figname w
  = match contour ext (f_lon arr) (f_lat arr) (xr.values arr) contours with
    | Raise e => (Raise e, w)
    | Return cs =>
        match figname with
        | None => (Return cs, w)
        | Some name =>
            if decide (name ∈ w_unwritable w) then (Raise (OSError name), w)
            else (Return cs,
                  mk_World (w_today w)
                    (w_log w ++ [(INFO, "Original figure written to " +:+ name)])
                    (w_shp w) (<[name := ContourFigure cs]> (w_figs w))
                    (w_quota w) (w_unwritable w))
        end
    end.
Proof.
  unfold get_contours, bind, lift, savefig, log_info, ret.
  destruct (contour ext _ _ _ _) as [|cs]; [done|].
  destruct figname as [name|]; [|done].
  by destruct (decide (name ∈ w_unwritable w)).
Qed.

(** X9.  [get_contours] returns the contour set of the contouring routine
    exactly when that routine returns and the figure, if one is asked for,
    can be saved.  A figure that cannot be saved raises [OSError] and
    changes nothing; a saved figure holds the returned contours under its
    name; without a figure name nothing changes at all; and no shapefile is
    ever touched. *)
Theorem get_contours_outcome arr contours figname w :
  let found := contour ext (f_lon arr) (f_lat arr) (xr.values arr) contours in
  let drawn := get_contours ext arr contours figname w in
  (∀ cs, drawn.1 = Return cs ↔
         found = Return cs ∧ ∀ name, figname = Some name → name ∉ w_unwritable w) ∧
  (∀ cs name, found = Return cs → figname = Some name →
              name ∈ w_unwritable w → drawn = (Raise (OSError name), w)) ∧
  (∀ cs name, drawn.1 = Return cs → figname = Some name →
              w_figs drawn.2 = <[name := ContourFigure cs]> (w_figs w)) ∧
  (figname = None → drawn.2 = w) ∧
  w_shp drawn.2 = w_shp w.
Proof.
  cbv zeta. rewrite get_contours_cases.
  destruct (contour ext _ _ _ _) as [e|cs0]; cbn [fst snd].
  { split_and!; try done. intros cs. split; [done|]. by intros [[=] _]. }
  destruct figname as [name|]; cbn [fst snd].
  - destruct (decide (name ∈ w_unwritable w)) as [Hin|Hout]; cbn [fst snd].
    + split_and!; try done.
      * intros cs. split; [done|]. intros [_ H]. by destruct (H name).
      * by intros cs name' _ [= <-] _.
    + split_and!; try done.
      * intros cs. split.
        -- intros [= <-]. split; [done|]. by intros ? [= <-].
        -- by intros [[= <-] _].
      * by intros cs name' _ [= <-] ?.
      * by intros cs name' [= <-] [= <-].
  - split_and!; try done. intros cs. split.
    + intros [= <-]. split; [done|]. by intros.
    + by intros [[= <-] _].
Qed.

Lemma render_loop contour (sf : list Feature) (acc : list (list Qc * list Qc)) :
  Forall (λ r, properties r ≠ []) sf →
  for_fold sf acc (λ fills shape,
    rbind (record0 shape) (λ r0,
    if decide (r0 = contour)
    then let x := (coordinates (geometry shape)).*1 in
         let y := (coordinates (geometry shape)).*2 in
         Return (fills ++ [(x, y)])
    else Return fills))
  = Return (acc ++ (fill_of <$> filter (λ r, first_attr r = Some contour) sf)).
Proof.
  intros H. revert acc. induction H as [|r sf Hr Hsf IH]; intros acc.
  - cbn. by rewrite app_nil_r.
  - cbn [for_fold]. unfold record0 at 1.
    destruct (properties r) as [|[n x] ps] eqn:Ep; [done|]. cbn [rbind].
    rewrite filter_cons.
    destruct (decide (first_attr r = Some contour)) as [Hfa|Hfa];
      unfold first_attr in Hfa; rewrite Ep in Hfa; cbn in Hfa.
    + injection Hfa as ->. rewrite decide_True by done. cbv zeta in IH |- *.
      cbn [rbind]. rewrite IH, fmap_cons, <- app_assoc. done.
    + rewrite decide_False by congruence. apply IH.
Qed.

(** X12.  For an existing shapefile whose records all have an attribute,
    and a figure path that can be written, the diagnostic plot returns,
    saves at that path a figure with one filled outline for each record
    whose first attribute equals the level, in the order of the file, and
    logs one line. *)
Theorem render_fills_matching_records shapefile contour ofile title cl extent w f :
  w_shp w !! shapefile = Some f →
  Forall (λ r, properties r ≠ []) (shp_records f) →
  ofile ∉ w_unwritable w →
  let drawn := read_shapefile_and_plot_filled_contour (Some shapefile) contour
               (Some ofile) title cl extent w in
  drawn.1 = Return tt ∧
  w_figs drawn.2
  = <[ofile := FilledFigure title cl extent
        (fill_of <$> filter (λ r, first_attr r = Some contour) (shp_records f))]>
      (w_figs w) ∧
  w_log drawn.2 = w_log w ++ [(INFO, "Test figure written to " +:+ ofile)].
Proof.
  intros Hf Hprops Hofile. cbv zeta.
  unfold read_shapefile_and_plot_filled_contour, bind, shp.Reader, lift.
  rewrite Hf, render_loop by done. unfold savefig. rewrite decide_False by done.
  done.
Qed.

End WriterMore.

(** ** More on [main] *)

Section MainMore.
Variable ext : Externals.

Lemma read_nc_keeps_shapefiles ifile start end_ vars scal func w :
  w_shp (read_nc ext ifile start end_ vars scal func w).2 = w_shp w.
Proof. by rewrite read_nc_run. Qed.

Lemma get_contours_keeps_shapefiles arr contours figname w :
  w_shp (get_contours ext arr contours figname w).2 = w_shp w.
Proof.
  rewrite get_contours_cases. destruct (contour ext _ _ _ _); [done|].
  destruct figname as [name|]; [|done].
  by destruct (decide (name ∈ w_unwritable w)).
Qed.

(** X14.  A run of [main] changes no shapefile but its own: a path that the
    shapefile template cannot expand to holds after the run, however it
    ends, what it held before. *)
Theorem main_touches_only_its_shapefile args w p :
  (∀ meantime s, a_shapefile args = Some s → ts_strftime ext meantime s ≠ p) →
  w_shp (main ext args w).2 !! p = w_shp w !! p.
Proof.
  intros Hp. rewrite main_run.
  destruct (get_analysis_date _ _ _ _ _) as [|[start end_]]; [done|].
  pose proof (read_nc_keeps_shapefiles (a_ifile args) start end_
                (VList (a_ncvars args)) (a_ncscal args) (a_func args) w) as H1.
  destruct (read_nc _ _ _ _ _ _ _ _) as [[|[arr meantime]] w1]; cbn [snd] in H1 |- *;
    [by rewrite H1|].
  pose proof (get_contours_keeps_shapefiles arr (a_contours args)
                (ts_strftime ext meantime <$> a_contour_figname args) w1) as H2.
  destruct (get_contours _ _ _ _ _) as [[|cs] w2]; cbn [snd] in H2 |- *;
    [by rewrite H2, H1|].
  pose proof (write_shapefile_frame ext cs (a_propname args)
                (ts_strftime ext meantime <$> a_shapefile args) w2) as [H3 _].
  specialize (H3 p).
  assert (Some p ≠ ts_strftime ext meantime <$> a_shapefile args) as Hne.
  { destruct (a_shapefile args) as [s|] eqn:Es; [|done].
    intros [= ->]. by apply (Hp meantime s). }
  specialize (H3 Hne).
  destruct (write_shapefile _ _ _ _ _) as [[|[]] w3]; cbn [snd] in H3 |- *;
    [by rewrite H3, H2, H1|].
  destruct (fillfig_level args); cbn [snd]; [by rewrite H3, H2, H1|].
  by rewrite render_keeps_shapefiles, H3, H2, H1.
Qed.

(** X15.  [main] passes a missing shapefile name on to [write_shapefile],
    which has no path to open: without a shapefile template a run of [main]
    always ends in an exception, and no shapefile is changed.  The branch of
    the diagnostic plot for a missing shapefile is never reached from
    [main]. *)
Theorem main_without_shapefile_raises args w :
  a_shapefile args = None →
  (∃ e, (main ext args w).1 = Raise e) ∧
  w_shp (main ext args w).2 = w_shp w.
Proof.
  intros Hs. rewrite main_run, Hs.
  destruct (get_analysis_date _ _ _ _ _) as [e|[start end_]]; [by eauto|].
  pose proof (read_nc_keeps_shapefiles (a_ifile args) start end_
                (VList (a_ncvars args)) (a_ncscal args) (a_func args) w) as H1.
  destruct (read_nc _ _ _ _ _ _ _ _) as [[e|[arr meantime]] w1]; cbn [snd] in H1 |- *;
    [by eauto|].
  pose proof (get_contours_keeps_shapefiles arr (a_contours args)
                (ts_strftime ext meantime <$> a_contour_figname args) w1) as H2.
  destruct (get_contours _ _ _ _ _) as [[e|cs] w2]; cbn [snd] in H2 |- *;
    [split; [by eauto|by rewrite H2, H1]|].
  cbn [fmap option_fmap option_map].
  unfold write_shapefile, bind, lift, fiona.collection, raise.
  destruct (build_polylist ext cs (a_propname args)) as [e|polylist];
    cbn [fst snd]; (split; [by eauto|by rewrite H2, H1]).
Qed.
End MainMore.

(** ** The further properties on concrete runs *)

(** *** The analysis window *)

Lemma get_analysis_date_default_window_witness :
  dt.valid Demo.today ∧ 1 < dt.toordinal Demo.today ∧
  ∃ s e,
    get_analysis_date Demo.today None None None 24 = Return (s, e) ∧
    dt.valid s ∧ dt.valid e ∧
    dt.toordinal s = dt.toordinal Demo.today - 1 ∧
    dt.toordinal e = dt.toordinal Demo.today ∧
    (dt.hour s, dt.minute s, dt.second s, dt.microsecond s) = (0, 0, 0, 0) ∧
    (dt.hour e, dt.minute e, dt.second e, dt.microsecond e) = (0, 0, 0, 0).
Proof.
  assert (Hv : dt.valid Demo.today) by (split; reflexivity).
  assert (Ho : 1 < dt.toordinal Demo.today) by reflexivity.
  split; [exact Hv|]. split; [exact Ho|].
  exact (get_analysis_date_default_window Demo.today Hv Ho).
Defined.

Lemma get_analysis_date_ignores_clock_witness :
  dt.valid Demo.today ∧ 1 < dt.toordinal Demo.today ∧
  dt.valid Cases.clock2 ∧ 1 < dt.toordinal Cases.clock2 ∧
  get_analysis_date Demo.today (Some 2021) (Some 2) (Some 28) 48
  = get_analysis_date Cases.clock2 (Some 2021) (Some 2) (Some 28) 48.
Proof.
  assert (Hv1 : dt.valid Demo.today) by (split; reflexivity).
  assert (Ho1 : 1 < dt.toordinal Demo.today) by reflexivity.
  assert (Hv2 : dt.valid Cases.clock2) by (split; reflexivity).
  assert (Ho2 : 1 < dt.toordinal Cases.clock2) by reflexivity.
  split; [exact Hv1|]. split; [exact Ho1|]. split; [exact Hv2|].
  split; [exact Ho2|].
  exact (get_analysis_date_ignores_clock Demo.today Cases.clock2 2021 2 28 48
           Hv1 Ho1 Hv2 Ho2).
Defined.

(** *** Reading *)


Lemma read_nc_no_variables_witness :
  open_source Demo.ext "hourly.nc" (strftime Demo.ext Demo.start "hourly.nc")
  = Return Demo.ds3 ∧
  ascending (ds_time Demo.ds3) = true ∧
  var_list (VList []) = [] ∧
  (read_nc Demo.ext "hourly.nc" Demo.start Demo.end_ (VList []) 1%Qc "mean"
     Demo.world).1 = Raise (UnboundLocalError "arrs").
Proof.
  assert (H1 : open_source Demo.ext "hourly.nc"
                 (strftime Demo.ext Demo.start "hourly.nc") = Return Demo.ds3)
    by reflexivity.
  assert (Ha : ascending (ds_time Demo.ds3) = true) by reflexivity.
  assert (H2 : var_list (VList []) = []) by reflexivity.
  split; [exact H1|]. split; [exact Ha|]. split; [exact H2|].
  exact (read_nc_no_variables Demo.ext "hourly.nc" Demo.start Demo.end_
           (VList []) 1%Qc "mean" Demo.world Demo.ds3 H1 Ha H2).
Defined.


Lemma read_nc_meantime_within_samples_witness :
  ascending (ds_time Demo.ds3) = true ∧
  offsets_fit (ds_time (select_window Demo.ds3 Demo.start Demo.end_)) = true ∧
  (read_nc Demo.ext "hourly.nc" Demo.start Demo.end_
     (VList ["dust"; "salt"]) 1%Qc "mean" Demo.world).1
  = Return (Demo.field, Demo.t0 + Demo.hour_ns) ∧
  ∃ lo hi,
    let times := ds_time (select_window Demo.ds3 Demo.start Demo.end_) in
    lo ∈ times ∧ hi ∈ times ∧ (∀ t, t ∈ times → lo <= t <= hi) ∧
    lo <= Demo.t0 + Demo.hour_ns <= hi.
Proof.
  assert (Ha : ascending (ds_time Demo.ds3) = true) by reflexivity.
  assert (Hf : offsets_fit
                 (ds_time (select_window Demo.ds3 Demo.start Demo.end_)) = true)
    by (vm_compute; reflexivity).
  assert (H : (read_nc Demo.ext "hourly.nc" Demo.start Demo.end_
                 (VList ["dust"; "salt"]) 1%Qc "mean" Demo.world).1
              = Return (Demo.field, Demo.t0 + Demo.hour_ns)) by by_computation.
  split; [exact Ha|]. split; [exact Hf|]. split; [exact H|].
  exact (read_nc_meantime_within_samples Demo.ext "hourly.nc" Demo.start
           Demo.end_ (VList ["dust"; "salt"]) 1%Qc "mean" Demo.world
           Demo.ds3 Demo.field (Demo.t0 + Demo.hour_ns) eq_refl Ha Hf H).
Defined.

Lemma read_nc_min_below_max_witness :
  ascending (ds_time Demo.ds3) = true ∧
  wf_dataset Demo.ds3 ∧ lev_ok (ds_dims Demo.ds3) ∧ (0 ≤ Demo.q 2)%Qc ∧
  ∃ amin amax meantime,
    (read_nc Demo.ext "hourly.nc" Demo.start Demo.end_
       (VList ["dust"; "salt"]) (Demo.q 2) "min" Demo.world).1
    = Return (amin, meantime) ∧
    (read_nc Demo.ext "hourly.nc" Demo.start Demo.end_
       (VList ["dust"; "salt"]) (Demo.q 2) "max" Demo.world).1
    = Return (amax, meantime) ∧
    ∀ c, (c < ncells Demo.ds3)%nat →
      ∃ lo hi,
        f_data amin !! c = Some lo ∧ f_data amax !! c = Some hi ∧
        (lo ≤ hi)%Qc.
Proof.
  assert (H : (0 ≤ Demo.q 2)%Qc) by by_computation.
  split; [reflexivity|]. split; [exact ds3_wf|]. split; [exact ds3_lev_ok|].
  split; [exact H|].
  apply (read_nc_min_below_max Demo.ext "hourly.nc" Demo.start Demo.end_
           (VList ["dust"; "salt"]) (Demo.q 2) Demo.world Demo.ds3).
  - reflexivity.
  - reflexivity.
  - exact ds3_wf.
  - discriminate.
  - exact ds3_vars_present.
  - vm_compute. discriminate.
  - exact ds3_lev_ok.
  - exact H.
Defined.

Lemma read_nc_scale_after_witness :
  (read_nc Demo.ext "hourly.nc" Demo.start Demo.end_
     (VList ["dust"; "salt"]) 1%Qc "mean" Demo.world).1
  = Return (Demo.field, Demo.t0 + Demo.hour_ns) ∧
  (read_nc Demo.ext "hourly.nc" Demo.start Demo.end_
     (VList ["dust"; "salt"]) (Demo.q 2) "mean" Demo.world).1
  = Return (xr.scale Demo.field (Demo.q 2), Demo.t0 + Demo.hour_ns).
Proof.
  assert (H : (read_nc Demo.ext "hourly.nc" Demo.start Demo.end_
                 (VList ["dust"; "salt"]) 1%Qc "mean" Demo.world).1
              = Return (Demo.field, Demo.t0 + Demo.hour_ns)) by by_computation.
  split; [exact H|].
  exact (read_nc_scale_after Demo.ext "hourly.nc" Demo.start Demo.end_
           (VList ["dust"; "salt"]) (Demo.q 2) "mean" Demo.world Demo.field
           (Demo.t0 + Demo.hour_ns) H).
Defined.

(** The single level of [Demo.ds1] is dropped, the horizontal grid stays. *)
Lemma read_nc_keeps_grid_witness :
  ascending (ds_time Demo.ds1) = true ∧
  wf_dataset Demo.ds1 ∧ lev_ok (ds_dims Demo.ds1) ∧
  NoDup (ds_dims Demo.ds1).*1 ∧
  ∃ arr meantime,
    (read_nc Demo.ext "single.nc" Demo.start Demo.end_ (VStr "dust") 1%Qc
       "min" Demo.world).1 = Return (arr, meantime) ∧
    f_lon arr = ds_lon Demo.ds1 ∧ f_lat arr = ds_lat Demo.ds1 ∧
    f_dims arr = filter (λ d, d.1 ≠ "lev") (ds_dims Demo.ds1) ∧
    length (f_data arr) = foldr Nat.mul 1%nat (f_dims arr).*2.
Proof.
  assert (H : NoDup (ds_dims Demo.ds1).*1) by by_computation.
  split; [reflexivity|]. split; [exact ds1_wf|]. split; [exact ds1_lev_ok|].
  split; [exact H|].
  apply (read_nc_keeps_grid Demo.ext "single.nc" Demo.start Demo.end_
           (VStr "dust") 1%Qc "min" Demo.world Demo.ds1).
  - reflexivity.
  - reflexivity.
  - exact ds1_wf.
  - discriminate.
  - intros v Hv. apply (dust_present _ v); [by eexists|exact Hv].
  - vm_compute. discriminate.
  - exact ds1_lev_ok.
  - exact H.
  - right. right. reflexivity.
Defined.

(** *** Writing and plotting *)

Lemma write_shapefile_missing_level_witness :
  NoDup (col_id <$> collections Cases.cs_short) ∧
  (length (levels Cases.cs_short) < length (collections Cases.cs_short))%nat ∧
  Forall (accepted Demo.ext)
    (take (length (levels Cases.cs_short)) (collections Cases.cs_short)
       ≫= get_paths) ∧
  write_shapefile Demo.ext Cases.cs_short "pm25" (Some "plumes.shp") Demo.world
  = (Raise (KeyError "<LineCollection>"), Demo.world).
Proof.
  assert (H1 : NoDup (col_id <$> collections Cases.cs_short)) by by_computation.
  assert (H2 : (length (levels Cases.cs_short)
                < length (collections Cases.cs_short))%nat) by (cbn; lia).
  assert (H3 : Forall (accepted Demo.ext)
                 (take (length (levels Cases.cs_short))
                    (collections Cases.cs_short) ≫= get_paths))
    by by_computation.
  split; [exact H1|]. split; [exact H2|]. split; [exact H3|].
  exact (write_shapefile_missing_level Demo.ext Cases.cs_short "pm25"
           (Some "plumes.shp") Demo.world H1 H2 H3).
Defined.

(** Of the three records of the archive, the two at level 10 are filled. *)
Lemma render_fills_matching_records_witness :
  w_shp Cases.world_archive !! "archive.shp" = Some Cases.archive ∧
  Forall (λ r, properties r ≠ []) (shp_records Cases.archive) ∧
  ("fill.png" ∉ w_unwritable Cases.world_archive) ∧
  let drawn := read_shapefile_and_plot_filled_contour (Some "archive.shp")
                 (Demo.q 10) (Some "fill.png") "plumes" 0 [-180; 180; -90; 90]
                 Cases.world_archive in
  drawn.1 = Return tt ∧
  w_figs drawn.2
  = <[ "fill.png" := FilledFigure "plumes" 0 [-180; 180; -90; 90]
         (fill_of <$> filter (λ r, first_attr r = Some (Demo.q 10))
                        (shp_records Cases.archive)) ]>
      (w_figs Cases.world_archive) ∧
  w_log drawn.2
  = w_log Cases.world_archive ++ [(INFO, "Test figure written to fill.png")].
Proof.
  assert (H1 : w_shp Cases.world_archive !! "archive.shp" = Some Cases.archive)
    by reflexivity.
  assert (H2 : Forall (λ r, properties r ≠ []) (shp_records Cases.archive))
    by (repeat constructor; discriminate).
  assert (H3 : "fill.png" ∉ w_unwritable Cases.world_archive) by by_computation.
  split; [exact H1|]. split; [exact H2|]. split; [exact H3|].
  exact (render_fills_matching_records "archive.shp" (Demo.q 10) "fill.png"
           "plumes" 0 [-180; 180; -90; 90] Cases.world_archive Cases.archive
           H1 H2 H3).
Defined.

Example archive_level_10 :
  length (filter (λ r, first_attr r = Some (Demo.q 10))
            (shp_records Cases.archive)) = 2%nat.
Proof. by_computation. Qed.

(** *** Whole runs *)

(** The run of [Demo.args] writes [plumes.shp]; the archive stays. *)
Lemma main_touches_only_its_shapefile_witness :
  (∀ (meantime : Z) s, a_shapefile Demo.args = Some s →
     ts_strftime Demo.ext meantime s ≠ "archive.shp") ∧
  w_shp (main Demo.ext Demo.args Cases.world_archive).2 !! "archive.shp"
  = w_shp Cases.world_archive !! "archive.shp".
Proof.
  assert (H : ∀ (meantime : Z) s, a_shapefile Demo.args = Some s →
                ts_strftime Demo.ext meantime s ≠ "archive.shp").
  { intros meantime s [= <-]. discriminate. }
  split; [exact H|].
  exact (main_touches_only_its_shapefile Demo.ext Demo.args
           Cases.world_archive "archive.shp" H).
Defined.

Example main_archive_run :
  (main Demo.ext Demo.args Cases.world_archive).1 = Return tt ∧
  is_Some (w_shp (main Demo.ext Demo.args Cases.world_archive).2 !! "plumes.shp").
Proof. split; [by_computation|]. vm_compute. by eexists. Qed.

Lemma main_without_shapefile_raises_witness :
  a_shapefile Cases.args_noshp = None ∧
  (∃ e, (main Demo.ext Cases.args_noshp Demo.world).1 = Raise e) ∧
  w_shp (main Demo.ext Cases.args_noshp Demo.world).2 = w_shp Demo.world.
Proof.
  assert (H : a_shapefile Cases.args_noshp = None) by reflexivity.
  split; [exact H|].
  exact (main_without_shapefile_raises Demo.ext Cases.args_noshp Demo.world H).
Defined.
